(** * EPI recorder: the [epi run] command, its verification flow and the
      evidence container it drives.

    The development embeds [epi_cli/run.py] and the [keys] command of
    [epi_cli/main.py].  Python strings are [string]s (byte strings), lists are
    [list]s, dictionaries are [gmap]s or association lists when the order of
    the keys is observable, and code that raises runs in a state-and-exception
    monad over an explicit model of the file system and of the key store. *)

From Stdlib Require Import ZArith Ascii String Bool Lia.
From stdpp Require Import gmap strings list fin_maps pretty.

Local Open Scope Z_scope.
Local Open Scope stdpp_scope.

(** ** Python strings *)

Module PyStr.

(** [c.lower()] on one byte: only [A-Z] has a lower-case form. *)
Definition lower_ascii (c : ascii) : ascii :=
  let n := nat_of_ascii c in
  if ((65 <=? n) && (n <=? 90))%nat then ascii_of_nat (n + 32) else c.

(** [s.lower()]. *)
Fixpoint lower (s : string) : string :=
  match s with
  | EmptyString => EmptyString
  | String c r => String (lower_ascii c) (lower r)
  end.

(** [s.endswith(suf)]: some tail of [s] is [suf]. *)
Fixpoint endswith (s suf : string) : bool :=
  String.eqb s suf ||
  match s with
  | EmptyString => false
  | String _ r => endswith r suf
  end.

(** [c in s] for a one-character [c]. *)
Fixpoint contains (c : ascii) (s : string) : bool :=
  match s with
  | EmptyString => false
  | String d r => Ascii.eqb d c || contains c r
  end.

(** [s.split(c, 1)] when [c] occurs in [s]: the text before the first [c]
    and the text after it.  [None] when [c] does not occur (Python then
    returns the one-element list [[s]]). *)
Fixpoint split1 (c : ascii) (s : string) : option (string * string) :=
  match s with
  | EmptyString => None
  | String d r =>
      if Ascii.eqb d c then Some (EmptyString, r)
      else match split1 c r with
           | Some (k, v) => Some (String d k, v)
           | None => None
           end
  end.

(** [s.rfind(c)] as a split: the text before the last [c] and the text from
    it on. *)
Fixpoint rsplit (c : ascii) (s : string) : option (string * string) :=
  match s with
  | EmptyString => None
  | String d r =>
      match rsplit c r with
      | Some (a, b) => Some (String d a, b)
      | None => if Ascii.eqb d c then Some (EmptyString, s) else None
      end
  end.

(** [sep.join(l)]. *)
Fixpoint join (sep : string) (l : list string) : string :=
  match l with
  | [] => EmptyString
  | [x] => x
  | x :: r => x +:+ sep +:+ join sep r
  end.

End PyStr.

(** ** [_ensure_python_command] *)

Section EnsurePython.

(** [sys.executable]. *)
Variable sys_executable : string.

Definition _ensure_python_command (cmd : list string) : list string :=
  match cmd with
  | [] => cmd
  | first :: _ =>
      if PyStr.endswith (PyStr.lower first) ".py"
      then [sys_executable] ++ cmd
      else cmd
  end.

End EnsurePython.

(** A name ends with [.py] case-insensitively: its last three characters are
    a dot, a [p] or [P], and a [y] or [Y]. *)
Definition ends_with_py_ci (s : string) : Prop :=
  exists stem c1 c2,
    s = stem +:+ String "." (String c1 (String c2 EmptyString)) /\
    (c1 = "p"%char \/ c1 = "P"%char) /\ (c2 = "y"%char \/ c2 = "Y"%char).

(** ** Paths ([pathlib.PurePath] on POSIX-style strings) *)

Module PyPath.

(** The parent part of [p], up to and including the last separator, and the
    final component [p.name]. *)
Definition split_name (p : string) : string * string :=
  match PyStr.rsplit "/" p with
  | Some (a, String _ n) => (a +:+ "/", n)
  | _ => (EmptyString, p)
  end.

Definition name (p : string) : string := snd (split_name p).

(** [(stem, suffix)] of a final component: the suffix starts at the last
    dot, unless that dot is the first or the last character. *)
Definition split_suffix (n : string) : string * string :=
  match PyStr.rsplit "." n with
  | Some (String c a, String d (String e b)) =>
      (String c a, String d (String e b))
  | _ => (n, EmptyString)
  end.

Definition stem (p : string) : string := fst (split_suffix (name p)).

(** [p.with_suffix(suf)]. *)
Definition with_suffix (p suf : string) : string :=
  let '(parent, n) := split_name p in
  parent +:+ fst (split_suffix n) +:+ suf.

End PyPath.

(** ** Exceptions and the state-and-exception monad *)

(** The classes of [Exception] the modelled calls raise.  The error kinds of
    the container core are mapped on them: [NotFound] is
    [FileNotFoundError], [AlreadyExists] is [FileExistsError], [IOFailure] is
    [OSError]. *)
Inductive exn_class :=
  | FileNotFoundError | FileExistsError | OSError | KeyError | ValueError
  | BadZipFile | CorruptArchive | ValidationError | RuntimeError.

(** An exception: its class and [str(e)]. *)
Record exn := Exn { exn_cls : exn_class; exn_str : string }.

Inductive result (A : Type) :=
  | Ok (a : A)
  | Raise (e : exn).
Arguments Ok {A} a.
Arguments Raise {A} e.

#[global] Instance exn_class_eq_dec : EqDecision exn_class.
Proof. solve_decision. Defined.

(** [except Exception]: every modelled exception is one. *)
Definition is_Exception (e : exn) : bool := true.

(** [except FileNotFoundError]. *)
Definition is_FileNotFoundError (e : exn) : bool :=
  bool_decide (exn_cls e = FileNotFoundError).

(** [except FileExistsError]. *)
Definition is_FileExistsError (e : exn) : bool :=
  bool_decide (exn_cls e = FileExistsError).

(** ** The machine the commands run on *)

(** A ZIP archive is the sequence of its members, in the order they were
    written; a name may occur more than once. *)
Abbreviation zip_entries := (list (string * string)).

Inductive file :=
  | ZipArchive (members : zip_entries)
  | Opaque (bytes : string).

(** One named key pair of the key store: the private half may be absent. *)
Record KeyPair := { private_key : option string; public_key : string }.

(** The part of the machine the commands observe: the files, the key store,
    what was printed on the console, and the faults of the storage layer: the
    [n]-th storage operation of a run raises [faults n] when that is
    [Some e]. *)
Record World := {
  files : gmap string file;
  keystore : gmap string KeyPair;
  console : list string;
  tick : nat;
  faults : nat -> option exn
}.

Definition io (A : Type) : Type := World -> result A * World.

(** [return a]. *)
Definition ret {A} (a : A) : io A := fun w => (Ok a, w).

(** Sequencing: an exception ends the computation, the effects so far stay. *)
Definition bind {A B} (m : io A) (k : A -> io B) : io B := fun w =>
  match m w with
  | (Ok a, w') => k a w'
  | (Raise e, w') => (Raise e, w')
  end.

Declare Scope io_scope.
Delimit Scope io_scope with io.
Notation "x ← y ; z" := (bind y (fun x => z))
  (at level 20, y at level 100, z at level 200, only parsing) : io_scope.
Notation "' x ← y ; z" := (bind y (fun x => z))
  (at level 20, x pattern, y at level 100, z at level 200, only parsing) : io_scope.
Notation "x ;; z" := (bind x (fun _ => z))
  (at level 100, z at level 200, only parsing, right associativity) : io_scope.
Local Open Scope io_scope.

(** [raise e]. *)
Definition throw {A} (e : exn) : io A := fun w => (Raise e, w).

(** A pure call that may raise. *)
Definition lift {A} (r : result A) : io A := fun w => (r, w).

(** [try: body / except <catches> as e: handler e]. *)
Definition try_except {A} (body : io A) (catches : exn -> bool)
    (handler : exn -> io A) : io A := fun w =>
  match body w with
  | (Ok a, w') => (Ok a, w')
  | (Raise e, w') => if catches e then handler e w' else (Raise e, w')
  end.

Definition set_files (f : gmap string file -> gmap string file) (w : World) : World :=
  {| files := f (files w); keystore := keystore w; console := console w;
     tick := tick w; faults := faults w |}.

Definition set_keystore (f : gmap string KeyPair -> gmap string KeyPair) (w : World) : World :=
  {| files := files w; keystore := f (keystore w); console := console w;
     tick := tick w; faults := faults w |}.

(** [console.print(line)]. *)
Definition console_print (line : string) : io unit := fun w =>
  (Ok tt, {| files := files w; keystore := keystore w;
             console := console w ++ [line];
             tick := tick w; faults := faults w |}).

(** One storage operation: it raises the planned fault, if any, before it
    touches anything; otherwise it runs [act]. *)
Definition storage_op {A} (act : io A) : io A := fun w =>
  let w1 := {| files := files w; keystore := keystore w; console := console w;
               tick := S (tick w); faults := faults w |} in
  match faults w (tick w) with
  | Some e => (Raise e, w1)
  | None => act w1
  end.

(** *** [zipfile] *)

Definition MANIFEST_JSON : string := "manifest.json".

(** [zf.namelist()]. *)
Definition namelist (zf : zip_entries) : list string := map fst zf.

(** The member a name denotes: the last one written under that name. *)
Fixpoint getinfo (zf : zip_entries) (name : string) : option string :=
  match zf with
  | [] => None
  | (n, data) :: rest =>
      match getinfo rest name with
      | Some d => Some d
      | None => if String.eqb n name then Some data else None
      end
  end.

(** [zipfile.ZipFile(p, "r")]. *)
Definition zip_open_read (p : string) : io zip_entries :=
  storage_op (fun w =>
    match files w !! p with
    | None => (Raise (Exn FileNotFoundError p), w)
    | Some (Opaque _) => (Raise (Exn BadZipFile "File is not a zip file"), w)
    | Some (ZipArchive zf) => (Ok zf, w)
    end).

(** [zf.read(name)]. *)
Definition zip_read (zf : zip_entries) (name : string) : io string :=
  storage_op (fun w =>
    match getinfo zf name with
    | None => (Raise (Exn KeyError name), w)
    | Some d => (Ok d, w)
    end).

(** [zipfile.ZipFile(p, "w", ZIP_DEFLATED)]: creates or truncates [p]. *)
Definition zip_open_write (p : string) : io unit :=
  storage_op (fun w => (Ok tt, set_files (insert p (ZipArchive [])) w)).

(** [zf_out.writestr(name, data)] on the archive being written at [p]. *)
Definition zip_writestr (p name data : string) : io unit :=
  storage_op (fun w =>
    match files w !! p with
    | Some (ZipArchive zf) =>
        (Ok tt, set_files (insert p (ZipArchive (zf ++ [(name, data)]))) w)
    | _ => (Raise (Exn OSError p), w)
    end).

(** [src.replace(dst)]: one atomic rename. *)
Definition path_replace (src dst : string) : io unit :=
  storage_op (fun w =>
    match files w !! src with
    | None => (Raise (Exn FileNotFoundError src), w)
    | Some f => (Ok tt, set_files (fun fs => <[dst:=f]> (delete src fs)) w)
    end).

(** [p.exists()]. *)
Definition path_exists (p : string) : io bool := fun w =>
  (Ok (bool_decide (is_Some (files w !! p))), w).

(** [p.stat()]: the file itself stands for its metadata. *)
Definition path_stat (p : string) : io file :=
  storage_op (fun w =>
    match files w !! p with
    | None => (Raise (Exn FileNotFoundError p), w)
    | Some f => (Ok f, w)
    end).

(** ** The manifest *)

(** Values of the [metrics] dictionary: [float(value)] or the text itself. *)
Inductive metric_value (float : Type) :=
  | MetricFloat (x : float)
  | MetricStr (s : string).
Arguments MetricFloat {float} x.
Arguments MetricStr {float} s.

Record SignatureBlock := {
  signer : string;
  algorithm : string;
  signature_bytes : string;
  signed_at : string
}.

Record ManifestModel (float : Type) := {
  cli_command : string;
  created_at : string;
  goal : option string;
  notes : option string;
  metrics : option (gmap string (metric_value float));
  approved_by : option string;
  tags : option (list string);
  digests : list (string * string);
  signature : option SignatureBlock
}.
Arguments cli_command {float} _.
Arguments created_at {float} _.
Arguments goal {float} _.
Arguments notes {float} _.
Arguments metrics {float} _.
Arguments approved_by {float} _.
Arguments tags {float} _.
Arguments digests {float} _.
Arguments signature {float} _.

(** The collaborators of the commands that are not part of this code: the
    interpreter and its library ([sys.executable], [float], [shlex.quote],
    [datetime.utcnow], [webbrowser.open]), the content hasher, the manifest
    codec ([model_dump_json]; [json.loads] followed by the [ManifestModel]
    constructor),
    the signing primitives of the trust layer, the bundled viewer, and the
    recorded child process with its workspace. *)
Record Externals (float : Type) := {
  sys_executable : string;
  float_of_str : string -> option float;
  shlex_quote : string -> string;
  utcnow_stamp : string;
  webbrowser_open : string -> result bool;
  digest : string -> string;
  model_dump_json : ManifestModel float -> string;
  model_validate_json : string -> result (ManifestModel float);
  sign_manifest : ManifestModel float -> string -> string -> result (ManifestModel float);
  verify_signature : ManifestModel float -> string -> result (bool * string);
  viewer_asset : option string;
  (** workspace set-up, environment snapshot, [Popen] and [wait]: the return
      code, the files left in the workspace, and the duration as printed *)
  record_child : list string -> result (Z * zip_entries * string);
  (** [st_size / (1024 * 1024)] as printed with [:.2f] *)
  fmt_size_mb : file -> string
}.
Arguments sys_executable {float} _.
Arguments float_of_str {float} _ _.
Arguments shlex_quote {float} _ _.
Arguments utcnow_stamp {float} _.
Arguments webbrowser_open {float} _ _.
Arguments digest {float} _ _.
Arguments model_dump_json {float} _ _.
Arguments model_validate_json {float} _ _.
Arguments sign_manifest {float} _ _ _ _.
Arguments verify_signature {float} _ _ _.
Arguments viewer_asset {float} _.
Arguments record_child {float} _ _.
Arguments fmt_size_mb {float} _ _.

(** ** The key store *)

Module KeyManager.

(** Modelled from the spec: [epi_cli/keys.py] is not part of the sources.
    [generate(name, overwrite)] fails with [AlreadyExists] if [name] exists
    and [overwrite] is false, and otherwise persists both halves of the new
    pair under [name].  The new pair [fresh] comes from the key generator;
    the result is where the two halves were written. *)
Definition generate_keypair (fresh : string * string) (name : string)
    (overwrite : bool) : io (string * string) := fun w =>
  let store _ :=
    (Ok (name +:+ ".key", name +:+ ".pub"),
     set_keystore
       (insert name {| private_key := Some (fst fresh); public_key := snd fresh |}) w) in
  match keystore w !! name with
  | Some _ =>
      if overwrite then store tt
      else (Raise (Exn FileExistsError ("Key pair already exists: " +:+ name)), w)
  | None => store tt
  end.

(** Modelled from the spec: [load_private(name)] fails with [NotFound] if
    absent. *)
Definition load_private_key (name : string) : io string := fun w =>
  match keystore w !! name with
  | Some {| private_key := Some k |} => (Ok k, w)
  | _ => (Raise (Exn FileNotFoundError ("Private key not found: " +:+ name)), w)
  end.

(** Modelled from the spec: [load_public(name)] fails with [NotFound] if
    absent. *)
Definition load_public_key (name : string) : io string := fun w =>
  match keystore w !! name with
  | Some kp => (Ok (public_key kp), w)
  | None => (Raise (Exn FileNotFoundError ("Public key not found: " +:+ name)), w)
  end.

(** Modelled from the spec: [export_public(name)] returns the public key in
    a textual encoding; the stored text is taken to be that encoding. *)
Definition export_public_key (name : string) : io string := load_public_key name.

(** Modelled from the spec: [list()] returns all names, each with whether
    its private key is present. *)
Definition list_keys : io (list (string * bool)) := fun w =>
  (Ok (map (fun '(n, kp) => (n, bool_decide (is_Some (private_key kp))))
           (map_to_list (keystore w))), w).

End KeyManager.

(** Modelled from the spec: [get_signer_name] is a pure accessor of the
    signature block. *)
Definition get_signer_name (sig : SignatureBlock) : string := signer sig.

(** [a or b] on strings: the empty string is false. *)
Definition str_or (a b : string) : string :=
  match a with
  | EmptyString => b
  | _ => a
  end.

(** ** The container: packing, reading, integrity *)

Module EPIContainer.
Section Container.

Context {float : Type} (X : Externals float).

(** Modelled from the spec: [epi_core/container.py] is not part of the
    sources.  [pack] enumerates the files of the source directory plus the
    bundled viewer asset. *)
Definition archived_entries (source : zip_entries) : zip_entries :=
  source ++ match viewer_asset X with
            | Some html => [("viewer.html", html)]
            | None => []
            end.

(** Modelled from the spec: the digest of each entry's raw bytes is merged
    into the manifest template; the signature is still absent. *)
Definition sealed_manifest (source : zip_entries)
    (template : ManifestModel float) : ManifestModel float :=
  {| cli_command := cli_command template;
     created_at := created_at template;
     goal := goal template;
     notes := notes template;
     metrics := metrics template;
     approved_by := approved_by template;
     tags := tags template;
     digests := map (fun '(n, data) => (n, digest X data)) (archived_entries source);
     signature := None |}.

(** Modelled from the spec: the serialized manifest is written alongside
    the other entries. *)
Definition packed_archive (source : zip_entries)
    (template : ManifestModel float) : zip_entries :=
  archived_entries source ++
  [(MANIFEST_JSON, model_dump_json X (sealed_manifest source template))].

(** Modelled from the spec: [pack(source_directory, manifest_template,
    output_path)]; the archive is fully written or not produced at all. *)
Definition pack (source : zip_entries) (template : ManifestModel float)
    (output_path : string) : io unit :=
  storage_op (fun w =>
    (Ok tt, set_files (insert output_path (ZipArchive (packed_archive source template))) w)).

(** Modelled from the spec: [read_manifest(path)] opens the archive,
    locates and deserializes the manifest entry; it fails with
    [CorruptArchive] if the entry is missing or undecodable. *)
Definition read_manifest (path : string) : io (ManifestModel float) :=
  zf ← zip_open_read path;
  match getinfo zf MANIFEST_JSON with
  | None => throw (Exn CorruptArchive "manifest.json not found")
  | Some raw =>
      match model_validate_json X raw with
      | Ok m => ret m
      | Raise e => throw (Exn CorruptArchive (exn_str e))
      end
  end.

(** Modelled from the spec: a tracked entry is a mismatch when it is
    missing from the archive or its recomputed digest differs. *)
Definition tracked_mismatch (zf : zip_entries) (tracked : string * string) : bool :=
  match getinfo zf (fst tracked) with
  | None => true
  | Some data => negb (String.eqb (digest X data) (snd tracked))
  end.

(** Modelled from the spec: an archive entry, other than the manifest
    itself, that is absent from the digest mapping is a mismatch too. *)
Definition untracked (m : ManifestModel float) (name : string) : bool :=
  negb (String.eqb name MANIFEST_JSON) &&
  negb (existsb (String.eqb name) (map fst (digests m))).

(** Modelled from the spec: the report collects every mismatch. *)
Definition integrity_report (zf : zip_entries) (m : ManifestModel float) : list string :=
  map fst (List.filter (tracked_mismatch zf) (digests m)) ++
  List.filter (untracked m) (namelist zf).

(** Modelled from the spec: [verify_integrity(path) -> (ok, mismatches)];
    [ok] is true iff the mismatch list is empty. *)
Definition verify_integrity (path : string) : io (bool * list string) :=
  m ← read_manifest path;
  zf ← zip_open_read path;
  let mismatches := integrity_report zf m in
  ret (bool_decide (mismatches = []), mismatches).

End Container.
End EPIContainer.

(** Tampering with a packed archive: the byte at offset [i] of a payload is
    overwritten with [b]. *)
Fixpoint flip_byte (i : nat) (b : ascii) (data : string) : string :=
  match data, i with
  | EmptyString, _ => EmptyString
  | String _ r, O => String b r
  | String c r, S j => String c (flip_byte j b r)
  end.

(** The archive with the payload of every member called [name] replaced. *)
Definition replace_member (name data : string) (zf : zip_entries) : zip_entries :=
  map (fun '(n, d) => if String.eqb n name then (n, data) else (n, d)) zf.

(** ** [epi run] *)

Inductive outcome :=
  | Returned
  | Exit (code : Z).

Record RunArgs := {
  script : string;
  no_verify : bool;
  no_open : bool;
  arg_goal : option string;
  arg_notes : option string;
  metric : option (list string);
  arg_approved_by : option string;
  tag : option (list string)
}.

Section Run.

Context {float : Type} (X : Externals float).

Definition DEFAULT_DIR : string := "epi-recordings".

Definition _gen_auto_name (script_path : string) : string :=
  let base := if String.eqb (PyPath.name script_path) "-" then "recording"
              else PyPath.stem script_path in
  let timestamp := utcnow_stamp X in
  DEFAULT_DIR +:+ "/" +:+ base +:+ "_" +:+ timestamp +:+ ".epi".

(** The body of the inner [try] of [_verify_recording]; [KeyManager()]
    has no state of its own. *)
Definition check_signature (manifest : ManifestModel float)
    (sig : SignatureBlock) : io (bool * string) :=
  let signer_name := get_signer_name sig in
  public_key ← KeyManager.load_public_key (str_or signer_name "default");
  '(signature_valid, msg) ← lift (verify_signature X manifest public_key);
  if signature_valid then ret (true, "OK (signed & verified)")
  else ret (false, "Signature invalid: " +:+ msg).

(** The body of the outer [try] of [_verify_recording]. *)
Definition verification_steps (epi_file : string) : io (bool * string) :=
  manifest ← EPIContainer.read_manifest X epi_file;
  '(integrity_ok, mismatches) ← EPIContainer.verify_integrity X epi_file;
  if negb integrity_ok then
    ret (false, "Integrity check failed (" +:+ pretty (length mismatches)
                +:+ " mismatches)")
  else
    match signature manifest with
    | Some sig =>
        try_except
          (check_signature manifest sig)
          is_FileNotFoundError
          (fun _ => ret (true, "OK (unsigned - no public key)"))
    | None => ret (true, "OK (unsigned)")
    end.

Definition _verify_recording (epi_file : string) : io (bool * string) :=
  try_except
    (verification_steps epi_file)
    is_Exception
    (fun e => ret (false, "Verification failed: " +:+ exn_str e)).

Definition _open_viewer (epi_file : string) : io bool :=
  try_except
    (zf ← zip_open_read epi_file;
     if existsb (String.eqb "viewer.html") (namelist zf) then
       lift (webbrowser_open X "viewer.html")
     else ret false)
    is_Exception
    (fun _ => ret false).

(** The loop over [--metric] arguments, on the dictionary built so far. *)
Fixpoint parse_metrics (metric : list string)
    (metrics_dict : gmap string (metric_value float))
    : io (gmap string (metric_value float)) :=
  match metric with
  | [] => ret metrics_dict
  | m :: rest =>
      if PyStr.contains "=" m then
        match PyStr.split1 "=" m with
        | Some (key, value) =>
            match float_of_str X value with
            | Some x => parse_metrics rest (<[key := MetricFloat x]> metrics_dict)
            | None => parse_metrics rest (<[key := MetricStr value]> metrics_dict)
            end
        | None => parse_metrics rest metrics_dict
        end
      else
        console_print ("[yellow]Warning:[/yellow] Invalid metric format: " +:+ m
                       +:+ " (expected key=value)");;
        parse_metrics rest metrics_dict
  end.

(** [metrics_dict] as [run] computes it: [None] unless [metric] is a
    non-empty list. *)
Definition run_metrics (metric : option (list string))
    : io (option (gmap string (metric_value float))) :=
  match metric with
  | None | Some [] => ret None
  | Some l => d ← parse_metrics l ∅; ret (Some d)
  end.

(** The loop that copies every member but the manifest. *)
Fixpoint copy_members (zf_in : zip_entries) (temp_zip : string)
    (items : list string) : io unit :=
  match items with
  | [] => ret tt
  | item :: rest =>
      (if negb (String.eqb item MANIFEST_JSON) then
         data ← zip_read zf_in item; zip_writestr temp_zip item data
       else ret tt);;
      copy_members zf_in temp_zip rest
  end.

(** Closing the archive being written: the central directory goes out. *)
Definition zip_close (p : string) : io unit := storage_op (ret tt).

(** "Replace manifest in ZIP": the rewrite into [out.with_suffix(".epi.tmp")]
    and its promotion. *)
Definition replace_manifest (out signed_json : string) : io unit :=
  let temp_zip := PyPath.with_suffix out ".epi.tmp" in
  zf_in ← zip_open_read out;
  zip_open_write temp_zip;;
  copy_members zf_in temp_zip (namelist zf_in);;
  zip_writestr temp_zip MANIFEST_JSON signed_json;;
  zip_close temp_zip;;
  path_replace temp_zip out.

(** The body of the "Auto-sign" block of [run]. *)
Definition sign_in_place (out : string) : io unit :=
  priv ← KeyManager.load_private_key "default";
  zf ← zip_open_read out;
  raw ← zip_read zf MANIFEST_JSON;
  m ← lift (model_validate_json X raw);
  sm ← lift (sign_manifest X m priv "default");
  let signed_json := model_dump_json X sm in
  replace_manifest out signed_json.

(** The "Auto-sign" block of [run]: [try: ... signed = True / except
    Exception: pass]; the result is [signed]. *)
Definition auto_sign (out : string) : io bool :=
  try_except
    (sign_in_place out;; ret true)
    is_Exception
    (fun _ => ret false).

(** [run] from "Verify" to the end. *)
Definition verify_and_report (out : string) (rc : Z) (duration : string)
    (no_verify no_open : bool) : io outcome :=
  '(verified, verify_msg) ←
    (if negb no_verify then _verify_recording out else ret (false, "Skipped"));
  viewer_opened ←
    (if negb no_open && (rc =? 0) && verified then _open_viewer out else ret false);
  st ← path_stat out;
  let lines :=
    ["[bold]Saved:[/bold] " +:+ out;
     "[bold]Size:[/bold] " +:+ fmt_size_mb X st +:+ " MB";
     "[bold]Duration:[/bold] " +:+ duration +:+ "s"] ++
    (if negb no_verify then
       if verified
       then ["[bold]Verified:[/bold] [green]" +:+ verify_msg +:+ "[/green]"]
       else ["[bold]Verified:[/bold] [red]" +:+ verify_msg +:+ "[/red]"]
     else []) ++
    (if viewer_opened then ["[bold]Viewer:[/bold] [green]Opened in browser[/green]"]
     else if negb no_open then
       ["[bold]Viewer:[/bold] [yellow]Could not open automatically[/yellow]";
        "[dim]Open with:[/dim] epi view " +:+ PyPath.name out]
     else []) in
  let title := if rc =? 0 then "[OK] Recording complete"
               else "[WARN] Recording finished with errors" in
  console_print (title +:+ String "010" (PyStr.join (String "010" EmptyString) lines));;
  if negb (rc =? 0) then ret (Exit rc)
  else if negb verified && negb no_verify then ret (Exit 1)
  else ret (Exit 0).

Definition run (a : RunArgs) : io outcome :=
  script_found ← path_exists (script a);
  if negb script_found then
    console_print ("[red][FAIL] Error:[/red] Script not found: " +:+ script a);;
    ret (Exit 1)
  else
    metrics_dict ← run_metrics (metric a);
    let out := _gen_auto_name (script a) in
    let cmd := _ensure_python_command (sys_executable X) [script a] in
    console_print ("[dim]Recording:[/dim] " +:+ PyPath.name (script a));;
    '(rc, workspace, duration) ← lift (record_child X cmd);
    let manifest :=
      {| cli_command := PyStr.join " " (map (shlex_quote X) cmd);
         created_at := utcnow_stamp X;
         goal := arg_goal a;
         notes := arg_notes a;
         metrics := metrics_dict;
         approved_by := arg_approved_by a;
         tags := tag a;
         digests := [];
         signature := None |} in
    EPIContainer.pack X workspace manifest out;;
    signed ← auto_sign out;
    verify_and_report out rc duration (no_verify a) (no_open a).

End Run.

(** ** [epi keys] *)

(** Modelled from the spec: [print_keys_table] is not part of the sources;
    one line per key pair. *)
Definition print_keys_table (keys_list : list (string * bool)) : io unit :=
  console_print
    (PyStr.join (String "010" EmptyString)
       (map (fun row : string * bool =>
               fst row +:+ (if snd row then " (private, public)" else " (public)"))
            keys_list)).

(** The [keys] command; [fresh] is the pair the key generator would yield. *)
Definition keys (fresh : string * string) (action name : string)
    (overwrite : bool) : io outcome :=
  if String.eqb action "generate" then
    try_except
      ('(private_path, public_path) ← KeyManager.generate_keypair fresh name overwrite;
       console_print ("[bold green][OK] Generated key pair:[/bold green] " +:+ name);;
       console_print ("  [cyan]Private:[/cyan] " +:+ private_path);;
       console_print ("  [cyan]Public:[/cyan]  " +:+ public_path);;
       ret Returned)
      is_FileExistsError
      (fun e =>
         console_print ("[red][FAIL] Error:[/red] " +:+ exn_str e);;
         ret (Exit 1))
  else if String.eqb action "list" then
    keys_list ← KeyManager.list_keys;
    print_keys_table keys_list;;
    ret Returned
  else if String.eqb action "export" then
    try_except
      (public_key_b64 ← KeyManager.export_public_key name;
       console_print ("[bold]Public key for '" +:+ name +:+ "':[/bold]");;
       console_print ("[cyan]" +:+ public_key_b64 +:+ "[/cyan]");;
       ret Returned)
      is_FileNotFoundError
      (fun e =>
         console_print ("[red][FAIL] Error:[/red] " +:+ exn_str e);;
         ret (Exit 1))
  else
    console_print ("[red][FAIL] Unknown action:[/red] " +:+ action);;
    console_print "[dim]Valid actions: generate, list, export[/dim]";;
    ret (Exit 1).

(** ** The environment of the child process *)

(** [p.write_text(text)]. *)
Definition write_text (p text : string) : io unit :=
  storage_op (fun w => (Ok tt, set_files (insert p (Opaque text)) w)).

(** [_build_env_for_child]: [os_environ] is [os.environ], [bootstrap_dir] the
    directory [tempfile.mkdtemp] made, [project_root] the resolved
    grandparent of the module file, and [sep] is [os.pathsep]. *)
Definition _build_env_for_child (os_environ : gmap string string)
    (bootstrap_dir project_root sep : string)
    (steps_dir : string) (enable_redaction : bool) : io (gmap string string) :=
  let env := os_environ in
  let env := <["EPI_RECORD" := "1"]> env in
  let env := <["EPI_STEPS_DIR" := steps_dir]> env in
  let env := <["EPI_REDACT" := if enable_redaction then "1" else "0"]> env in
  let sitecustomize := bootstrap_dir +:+ "/sitecustomize.py" in
  write_text sitecustomize
    ("from epi_recorder.bootstrap import initialize_recording" +:+ String "010" EmptyString);;
  let existing := default EmptyString (env !! "PYTHONPATH") in
  ret (<["PYTHONPATH" :=
          bootstrap_dir +:+ sep +:+ project_root +:+
          match existing with
          | EmptyString => EmptyString
          | _ => sep +:+ existing
          end]> env).

(** ** Python text: [str] as the list of its code points *)

Module PyText.
Section Text.

Context {A : Type} `{EqDecision A}.

(** [s.startswith(p)]. *)
Fixpoint startswith (p s : list A) : bool :=
  match p, s with
  | [], _ => true
  | a :: p', b :: s' => bool_decide (a = b) && startswith p' s'
  | _ :: _, [] => false
  end.

(** [p in s]. *)
Fixpoint contains (p s : list A) : bool :=
  startswith p s ||
  match s with
  | [] => false
  | _ :: r => contains p r
  end.

(** The left-to-right scan of [s.replace(old, new)] for a non-empty [old];
    [skip] counts the characters of the current match still to pass. *)
Fixpoint replace_go (old new : list A) (skip : nat) (s : list A) : list A :=
  match s with
  | [] => []
  | c :: r =>
      match skip with
      | S k => replace_go old new k r
      | O =>
          if startswith old s then new ++ replace_go old new (length old - 1) r
          else c :: replace_go old new 0 r
      end
  end.

(** [s.replace(old, new)]; an empty [old] matches before every character
    and at the end. *)
Definition replace (old new s : list A) : list A :=
  match old with
  | [] => flat_map (fun c => new ++ [c]) s ++ new
  | _ :: _ => replace_go old new 0 s
  end.

(** The scan of [s.count(old)] for a non-empty [old]: the occurrences that
    do not overlap, from the left. *)
Fixpoint count_go (old : list A) (skip : nat) (s : list A) : nat :=
  match s with
  | [] => 0
  | _ :: r =>
      match skip with
      | S k => count_go old k r
      | O =>
          if startswith old s then S (count_go old (length old - 1) r)
          else count_go old 0 r
      end
  end.

(** [s.count(old)]. *)
Definition count (old s : list A) : nat :=
  match old with
  | [] => S (length s)
  | _ :: _ => count_go old 0 s
  end.

(** [l.index(x)], when [x] is in [l]. *)
Fixpoint index (x : A) (l : list A) : option nat :=
  match l with
  | [] => None
  | y :: r => if bool_decide (y = x) then Some 0%nat else S <$> index x r
  end.

End Text.
End PyText.

(** ** [fix_unicode.py] *)

Module FixUnicode.

(** A decoded text file: its code points. *)
Abbreviation text := (list N).

(** The code points of an ASCII literal. *)
Definition ascii_text (s : string) : text := map N_of_ascii (list_ascii_of_string s).

(** The literal an ASCII text prints as. *)
Definition show (t : text) : string := string_of_list_ascii (map ascii_of_N t).

(** The symbols are U+2705, U+274C, U+26A0 U+FE0F and U+2139 U+FE0F. *)
Definition replacements : list (text * text) :=
  [([9989%N], ascii_text "[OK]");
   ([10060%N], ascii_text "[FAIL]");
   ([9888%N; 65039%N], ascii_text "[WARN]");
   ([8505%N; 65039%N], ascii_text "[INFO]")].

Definition files_to_fix : list string :=
  ["epi_cli/keys.py"; "epi_cli/verify.py"; "epi_cli/view.py";
   "epi_cli/record.py"; "epi_cli/run.py"; "epi_cli/main.py"].

Definition root : string := "c:/Users/dell/epi-recorder".

(** ["=" * 60]. *)
Definition rule : string := "============================================================".

Definition newline : string := String "010" EmptyString.

(** [root / file_path]. *)
Definition full_path (file_path : string) : string := root +:+ "/" +:+ file_path.

(** The loop "Apply replacements" on one file: the content, the count of
    replacements and the lines printed so far. *)
Fixpoint apply_replacements (table : list (text * text)) (content : text)
    (file_replacements : nat) (out : list string) : text * nat * list string :=
  match table with
  | [] => (content, file_replacements, out)
  | (unicode_char, ascii_replacement) :: rest =>
      let count := PyText.count unicode_char content in
      if (0 <? count)%nat then
        apply_replacements rest
          (PyText.replace unicode_char ascii_replacement content)
          (file_replacements + count)
          (out ++ ["  - Replaced " +:+ pretty count +:+ "x '" +:+
                   pretty (default 0%nat
                             (PyText.index (unicode_char, ascii_replacement) replacements))
                   +:+ "' with '" +:+ show ascii_replacement +:+ "'"])
      else apply_replacements rest content file_replacements out
  end.

(** The loop over [files_to_fix]: the files, [total_replacements] and the
    lines printed. *)
Fixpoint process (paths : list string) (fs : gmap string text)
    (total_replacements : nat) (out : list string)
    : gmap string text * nat * list string :=
  match paths with
  | [] => (fs, total_replacements, out)
  | file_path :: rest =>
      match fs !! full_path file_path with
      | None =>
          process rest fs total_replacements
            (out ++ [newline +:+ "[SKIP] " +:+ file_path +:+ " - File not found"])
      | Some original_content =>
          let '(content, file_replacements, out1) :=
            apply_replacements replacements original_content 0
              (out ++ [newline +:+ "[PROCESSING] " +:+ file_path]) in
          if bool_decide (content <> original_content) then
            process rest (<[full_path file_path := content]> fs)
              (total_replacements + file_replacements)
              (out1 ++ ["  [OK] Saved (Total: " +:+ pretty file_replacements
                        +:+ " replacements)"])
          else
            process rest fs total_replacements (out1 ++ ["  [OK] No changes needed"])
      end
  end.

(** The script, on the decoded text files of the machine. *)
Definition main (fs : gmap string text) : gmap string text * nat * list string :=
  let '(fs', total_replacements, out) :=
    process files_to_fix fs 0 [rule; "FIXING UNICODE ISSUES IN CLI FILES"; rule] in
  (fs', total_replacements,
   out ++ [newline +:+ rule;
           "COMPLETE: " +:+ pretty total_replacements +:+ " total replacements made";
           rule]).

End FixUnicode.

(** ** [AsyncRecorder]: the step queue, its worker and [stop] *)

Module AsyncRecorder.

(** Where [_flush_worker] is: in its loop, or past the [break]. *)
Inductive worker_state := WorkerLooping | WorkerDone.

(** Where [stop] is: not called yet, waiting in [await
    self._step_queue.join()], or past it. *)
Inductive stop_state := NotCalled | Joining | PastJoin.

(** The [asyncio.Queue] made by [start], with its count of unfinished tasks,
    and the two coroutines.  An item is a step, or [None], the shutdown
    signal. *)
Record state := {
  items : list (option nat);
  unfinished_tasks : nat;
  worker : worker_state;
  stopper : stop_state
}.

(** The state [start] leaves: an empty queue and the worker in its loop. *)
Definition started : state :=
  {| items := []; unfinished_tasks := 0; worker := WorkerLooping; stopper := NotCalled |}.

(** What the event loop can run next. *)
Inductive event :=
  | WorkerGet      (** [queue.get()] in the worker delivers an item *)
  | WorkerTimeout  (** [wait_for] times out: [continue] *)
  | ProducerPut (step : nat)  (** some coroutine puts a step *)
  | StopPut        (** [stop]: [await self._step_queue.put(None)] *)
  | StopJoin.      (** [stop]: [await self._step_queue.join()] returns *)

(** One event; [None] when the event cannot happen in that state.
    [put] counts one more unfinished task, [task_done] one less, and [join]
    returns only when the count is zero.  The worker calls [task_done] for a
    step, and leaves its loop on [None] without calling it. *)
Definition exec (e : event) (s : state) : option state :=
  match e with
  | WorkerGet =>
      match worker s, items s with
      | WorkerLooping, Some _ :: rest =>
          Some {| items := rest; unfinished_tasks := pred (unfinished_tasks s);
                  worker := WorkerLooping; stopper := stopper s |}
      | WorkerLooping, None :: rest =>
          Some {| items := rest; unfinished_tasks := unfinished_tasks s;
                  worker := WorkerDone; stopper := stopper s |}
      | _, _ => None
      end
  | WorkerTimeout =>
      match worker s, items s with
      | WorkerLooping, [] => Some s
      | _, _ => None
      end
  | ProducerPut step =>
      Some {| items := items s ++ [Some step];
              unfinished_tasks := S (unfinished_tasks s);
              worker := worker s; stopper := stopper s |}
  | StopPut =>
      match stopper s with
      | NotCalled =>
          Some {| items := items s ++ [None];
                  unfinished_tasks := S (unfinished_tasks s);
                  worker := worker s; stopper := Joining |}
      | _ => None
      end
  | StopJoin =>
      match stopper s, unfinished_tasks s with
      | Joining, O =>
          Some {| items := items s; unfinished_tasks := 0;
                  worker := worker s; stopper := PastJoin |}
      | _, _ => None
      end
  end.

(** A schedule: the events in the order the event loop runs them. *)
Fixpoint run_schedule (schedule : list event) (s : state) : option state :=
  match schedule with
  | [] => Some s
  | e :: rest =>
      match exec e s with
      | Some s' => run_schedule rest s'
      | None => None
      end
  end.

(** Every item that was put is still queued, or was a step the worker has
    marked done, or is the shutdown signal the worker took without marking
    it; and the signal is queued from [stop]'s [put] until the worker takes
    it. *)
Definition counted (s : state) : Prop :=
  unfinished_tasks s
  = (length (items s) + match worker s with WorkerLooping => 0 | WorkerDone => 1 end)%nat /\
  match stopper s with
  | NotCalled => worker s = WorkerLooping /\ None ∉ items s
  | Joining => worker s = WorkerLooping -> None ∈ items s
  | PastJoin => False
  end.

End AsyncRecorder.

(** ** Vocabulary of the properties *)

(** The machine after one more storage operation was counted. *)
Definition bump (w : World) : World :=
  {| files := files w; keystore := keystore w; console := console w;
     tick := S (tick w); faults := faults w |}.

(** The storage layer raises nothing. *)
Definition fault_free (w : World) : Prop := forall n, faults w n = None.

(** [m] leaves the file at [p] as it found it, however it ends. *)
Definition keeps (p : string) {A} (m : io A) : Prop :=
  forall w r w', m w = (r, w') -> files w' !! p = files w !! p.

(** [m] leaves the file at [p] as it found it when it raises. *)
Definition keeps_on_raise (p : string) {A} (m : io A) : Prop :=
  forall w e w', m w = (Raise e, w') -> files w' !! p = files w !! p.

(** [m] changes neither the files nor the fault plan. *)
Definition steady {A} (m : io A) : Prop :=
  forall w r w', m w = (r, w') -> files w' = files w /\ faults w' = faults w.

(** What the copying loop writes for the names [items] of the archive [zf]:
    every member but the manifest, with the payload its name denotes. *)
Definition rewritten_members (zf : zip_entries) (items : list string) : zip_entries :=
  flat_map (fun item =>
              if String.eqb item MANIFEST_JSON then []
              else match getinfo zf item with
                   | Some d => [(item, d)]
                   | None => []
                   end) items.

(** Read all entries, rewrite all except the manifest unchanged, write the
    updated manifest. *)
Definition resigned_archive (zf : zip_entries) (signed_json : string) : zip_entries :=
  rewritten_members zf (namelist zf) ++ [(MANIFEST_JSON, signed_json)].

Section MetricsVocabulary.

Context {float : Type} (X : Externals float).

(** [float(value)] when that parses, the text otherwise. *)
Definition metric_of (value : string) : metric_value float :=
  match float_of_str X value with
  | Some x => MetricFloat x
  | None => MetricStr value
  end.

(** No argument of [l] has the form [key=value]. *)
Definition no_metric_for (key : string) (l : list string) : Prop :=
  forall m value, m ∈ l -> PyStr.split1 "=" m <> Some (key, value).

(** The warnings printed for the arguments without [=]. *)
Definition metric_warnings (l : list string) : list string :=
  map (fun m => "[yellow]Warning:[/yellow] Invalid metric format: " +:+ m
                +:+ " (expected key=value)")
      (List.filter (fun m => negb (PyStr.contains "=" m)) l).

End MetricsVocabulary.

(** Outside the paths [ps] the files of [w'] are those of [w], and so are the
    key store and the fault plan. *)
Definition untouched_outside (ps : list string) (w w' : World) : Prop :=
  keystore w' = keystore w /\ faults w' = faults w /\
  forall q, q ∉ ps -> files w' !! q = files w !! q.

(** However [m] ends, it has written to no file outside [ps] and has not
    changed the key store. *)
Definition confined (ps : list string) {A} (m : io A) : Prop :=
  forall w r w', m w = (r, w') -> untouched_outside ps w w'.

(** The keys the [--metric] arguments name, in the order of the arguments. *)
Definition metric_keys (l : list string) : list string :=
  omap (fun m => fst <$> PyStr.split1 "=" m) l.

(** A replacement table whose patterns are not empty, whose replacements are
    not empty, and in which no replacement has a character of a pattern. *)
Definition table_ok (table : list (FixUnicode.text * FixUnicode.text)) : Prop :=
  Forall (fun ua : FixUnicode.text * FixUnicode.text =>
            fst ua <> [] /\ snd ua <> [] /\
            Forall (fun ua' : FixUnicode.text * FixUnicode.text =>
                      Forall (fun c => c ∉ snd ua') (fst ua)) table) table.

(** A text in which none of the patterns of the table occurs. *)
Definition free_of (table : list (FixUnicode.text * FixUnicode.text))
    (content : FixUnicode.text) : Prop :=
  forall u a, (u, a) ∈ table -> PyText.contains u content = false.

(** The manifest [run] hands to [pack], for the metrics dictionary it
    parsed. *)
Definition run_template {float : Type} (X : Externals float) (a : RunArgs)
    (metrics_dict : option (gmap string (metric_value float))) : ManifestModel float :=
  {| cli_command :=
       PyStr.join " " (map (shlex_quote X)
                         (_ensure_python_command (sys_executable X) [script a]));
     created_at := utcnow_stamp X;
     goal := arg_goal a;
     notes := arg_notes a;
     metrics := metrics_dict;
     approved_by := arg_approved_by a;
     tags := tag a;
     digests := [];
     signature := None |}.

(** ** A small instance of the collaborators

    Enough to run the commands on examples: floats are the unsigned decimal
    literals, the hasher is a 16-bit polynomial checksum, the codec knows the
    two manifests of the example recording, and a signature is the checksum
    of the key followed by the command line. *)

Module Demo.

Fixpoint digits_value (s : string) (acc : N) : option N :=
  match s with
  | EmptyString => Some acc
  | String c r =>
      let n := N_of_ascii c in
      if ((48 <=? n) && (n <=? 57))%N then digits_value r (acc * 10 + (n - 48))%N
      else None
  end.

Definition float_of_str (s : string) : option N :=
  match s with
  | EmptyString => None
  | _ => digits_value s 0%N
  end.

Fixpoint checksum (s : string) (acc : N) : N :=
  match s with
  | EmptyString => acc
  | String c r => checksum r ((acc * 31 + N_of_ascii c) mod 65521)%N
  end.

Definition digest (s : string) : string := pretty (checksum s 7%N).

Definition workspace : zip_entries :=
  [("steps.jsonl", "{step 1}{step 2}{step 3}"); ("env.json", "{}");
   ("stdout.log", "done"); ("stderr.log", "")].

Definition viewer : string := "<html></html>".

Definition template : ManifestModel N :=
  {| cli_command := "/usr/bin/python3 demo.py";
     created_at := "20251121_231501";
     goal := None; notes := None; metrics := None; approved_by := None;
     tags := None; digests := []; signature := None |}.

Definition with_digests (m : ManifestModel N) (d : list (string * string))
    (sig : option SignatureBlock) : ManifestModel N :=
  {| cli_command := cli_command m; created_at := created_at m;
     goal := goal m; notes := notes m; metrics := metrics m;
     approved_by := approved_by m; tags := tags m;
     digests := d; signature := sig |}.

Definition sealed : ManifestModel N :=
  with_digests template
    (map (fun '(n, data) => (n, digest data)) (workspace ++ [("viewer.html", viewer)]))
    None.

Definition sign_manifest (m : ManifestModel N) (priv signer_name : string)
    : result (ManifestModel N) :=
  Ok (with_digests m (digests m)
        (Some {| signer := signer_name; algorithm := "ed25519";
                 signature_bytes := digest (priv +:+ cli_command m);
                 signed_at := "20251121_231502" |})).

Definition verify_signature (m : ManifestModel N) (pub : string) : result (bool * string) :=
  match signature m with
  | None => Ok (false, "No signature")
  | Some sig =>
      if String.eqb (signature_bytes sig) (digest (pub +:+ cli_command m))
      then Ok (true, "Signature valid")
      else Ok (false, "Invalid signature")
  end.

Definition signed_by (key signer_name : string) : ManifestModel N :=
  match sign_manifest sealed key signer_name with
  | Ok m => m
  | Raise _ => sealed
  end.

Definition model_dump_json (m : ManifestModel N) : string :=
  match signature m with
  | None => "{unsigned}"
  | Some sig => "{signed:" +:+ signer sig +:+ ":" +:+ signature_bytes sig +:+ "}"
  end.

Definition model_validate_json (raw : string) : result (ManifestModel N) :=
  if String.eqb raw "{unsigned}" then Ok sealed
  else if String.eqb raw (model_dump_json (signed_by "k-default" "default"))
  then Ok (signed_by "k-default" "default")
  else if String.eqb raw (model_dump_json (signed_by "k-alice" "alice"))
  then Ok (signed_by "k-alice" "alice")
  else Raise (Exn ValidationError "cannot decode manifest").

Definition externals : Externals N :=
  Build_Externals N
    "/usr/bin/python3"                       (* sys_executable *)
    float_of_str
    (fun s => s)                             (* shlex_quote *)
    "20251121_231501"                        (* utcnow_stamp *)
    (fun _ => Ok true)                       (* webbrowser_open *)
    digest
    model_dump_json
    model_validate_json
    sign_manifest
    verify_signature
    (Some viewer)                            (* viewer_asset *)
    (fun _ => Ok (0, workspace, "0.5"))      (* record_child *)
    (fun _ => "0.00").                       (* fmt_size_mb *)

Definition no_faults : nat -> option exn := fun _ => None.

(** A machine with the script, the example recording and the default key. *)
Definition out : string := "epi-recordings/demo_20251121_231501.epi".

Definition world (archive : zip_entries) (keys : gmap string KeyPair)
    (plan : nat -> option exn) : World :=
  {| files := <[out := ZipArchive archive]> {[ "demo.py" := Opaque "print(1)" ]};
     keystore := keys;
     console := [];
     tick := 0;
     faults := plan |}.

Definition default_keys : gmap string KeyPair :=
  {[ "default" := {| private_key := Some "k-default"; public_key := "k-default" |} ]}.

Definition packed : zip_entries := EPIContainer.packed_archive externals workspace template.

(** The example recording after a signer re-signed it in place. *)
Definition archive_signed_by (key signer_name : string) : zip_entries :=
  resigned_archive packed (model_dump_json (signed_by key signer_name)).

(** The example run: [epi run demo.py] on a machine with the default key. *)
Definition args : RunArgs :=
  {| script := "demo.py"; no_verify := false; no_open := false;
     arg_goal := None; arg_notes := None; metric := None;
     arg_approved_by := None; tag := None |}.

Definition machine : World :=
  {| files := {[ "demo.py" := Opaque "print(1)" ]};
     keystore := default_keys; console := []; tick := 0;
     faults := no_faults |}.

End Demo.

(** * Properties *)

(** ** Strings *)

Lemma lower_ascii_dot c : PyStr.lower_ascii c = "."%char -> c = "."%char.
Proof.
  destruct c as [[] [] [] [] [] [] [] []]; vm_compute; intros H;
    first [reflexivity | discriminate H].
Qed.

Lemma lower_ascii_p c :
  PyStr.lower_ascii c = "p"%char -> c = "p"%char \/ c = "P"%char.
Proof.
  destruct c as [[] [] [] [] [] [] [] []]; vm_compute; intros H;
    first [left; reflexivity | right; reflexivity | discriminate H].
Qed.

Lemma lower_ascii_y c :
  PyStr.lower_ascii c = "y"%char -> c = "y"%char \/ c = "Y"%char.
Proof.
  destruct c as [[] [] [] [] [] [] [] []]; vm_compute; intros H;
    first [left; reflexivity | right; reflexivity | discriminate H].
Qed.

Lemma string_app_cons c (s t : string) : String c s +:+ t = String c (s +:+ t).
Proof. reflexivity. Qed.

Lemma string_app_nil_l (s : string) : EmptyString +:+ s = s.
Proof. reflexivity. Qed.

(** Pushes appends under the leading characters. *)
Ltac sapp := rewrite ?string_app_cons, ?string_app_nil_l in *.

Lemma string_app_nil_r (s : string) : s +:+ EmptyString = s.
Proof. induction s as [|c s IH]; sapp; [reflexivity | now rewrite IH]. Qed.

Lemma string_app_assoc (a b c : string) : (a +:+ b) +:+ c = a +:+ (b +:+ c).
Proof. induction a as [|x a IH]; sapp; [reflexivity | now rewrite IH]. Qed.


Lemma string_app_inv_head (a b c : string) : a +:+ b = a +:+ c -> b = c.
Proof. induction a as [|x a IH]; sapp; intros H; [exact H | injection H; auto]. Qed.

(** The test of [_ensure_python_command] is the case-insensitive suffix test. *)
Lemma endswith_lower_py (s : string) :
  PyStr.endswith (PyStr.lower s) ".py" = true <-> ends_with_py_ci s.
Proof.
  induction s as [|c r IH].
  - split; [discriminate |].
    intros (stem & c1 & c2 & E & _). destruct stem; discriminate E.
  - cbn [PyStr.lower PyStr.endswith]. rewrite orb_true_iff, IH. split.
    + intros [H | (stem & c1 & c2 & E & H1 & H2)].
      * apply String.eqb_eq in H.
        destruct r as [|c1 [|c2 [|c3 r]]]; try discriminate H.
        cbn in H. injection H as Hc H1 H2.
        exists EmptyString, c1, c2. repeat split.
        -- sapp. f_equal. now apply lower_ascii_dot.
        -- now apply lower_ascii_p.
        -- now apply lower_ascii_y.
      * exists (String c stem), c1, c2. sapp. now rewrite E.
    + intros (stem & c1 & c2 & E & H1 & H2). destruct stem as [|d stem]; sapp.
      * left. injection E as -> ->.
        destruct H1 as [-> | ->], H2 as [-> | ->]; reflexivity.
      * right. injection E as -> ->. now exists stem, c1, c2.
Qed.

Lemma split1_spec c s k v :
  PyStr.split1 c s = Some (k, v) <->
  s = k +:+ String c v /\ PyStr.contains c k = false.
Proof.
  revert k. induction s as [|d r IH]; intros k; cbn.
  - split; [discriminate |]. intros [E _]. destruct k; discriminate E.
  - destruct (Ascii.eqb_spec d c) as [-> | Hne].
    + split.
      * intros [= <- <-]. now split.
      * intros [E Hk]. destruct k as [|x k]; sapp; cbn in *.
        -- now injection E as ->.
        -- injection E as <- _. now rewrite Ascii.eqb_refl in Hk.
    + destruct (PyStr.split1 c r) as [[k' v']|] eqn:Hs.
      * split.
        -- intros [= <- <-]. destruct (proj1 (IH k') eq_refl) as [-> Hk].
           split; [reflexivity |]. cbn.
           destruct (Ascii.eqb_spec d c); [contradiction | exact Hk].
        -- intros [E Hk]. destruct k as [|x k]; sapp; cbn in *.
           ++ injection E as E _. contradiction.
           ++ injection E as <- E. apply orb_false_iff in Hk as [_ Hk].
              assert (Some (k', v') = Some (k, v)) as [= -> ->]
                by (apply IH; now split).
              reflexivity.
      * split; [discriminate |]. intros [E Hk]. destruct k as [|x k]; sapp; cbn in *.
        -- injection E as E _. contradiction.
        -- injection E as <- E. apply orb_false_iff in Hk as [_ Hk].
           assert (None = Some (k, v)) by (apply IH; now split). discriminate.
Qed.

Lemma contains_split1 c s :
  PyStr.contains c s = false <-> PyStr.split1 c s = None.
Proof.
  induction s as [|d r IH]; cbn; [tauto |].
  destruct (Ascii.eqb d c); cbn; [split; discriminate |].
  rewrite IH. destruct (PyStr.split1 c r) as [[? ?]|]; split; congruence.
Qed.

(** ** [_ensure_python_command] *)

(** C10: [_ensure_python_command] returns the empty list unchanged, puts
    [sys.executable] in front of a list whose first element ends with [.py]
    case-insensitively, and returns every other list unchanged. *)
Theorem ensure_python_command_spec (sys_executable : string) :
  _ensure_python_command sys_executable [] = [] /\
  forall first rest,
    (ends_with_py_ci first ->
     _ensure_python_command sys_executable (first :: rest)
       = sys_executable :: first :: rest) /\
    (~ ends_with_py_ci first ->
     _ensure_python_command sys_executable (first :: rest) = first :: rest).
Proof.
  split; [reflexivity |]. intros first rest.
  pose proof (endswith_lower_py first) as Hiff.
  unfold _ensure_python_command.
  destruct (PyStr.endswith (PyStr.lower first) ".py") eqn:E; split; intros H.
  - reflexivity.
  - exfalso. apply H, Hiff. reflexivity.
  - apply Hiff in H. discriminate H.
  - reflexivity.
Qed.

Lemma ensure_python_command_witness :
  _ensure_python_command "/usr/bin/python3" ["Train.PY"; "--fast"]
    = ["/usr/bin/python3"; "Train.PY"; "--fast"] /\
  _ensure_python_command "/usr/bin/python3" ["train.pyc"] = ["train.pyc"].
Proof.
  split.
  - apply (ensure_python_command_spec "/usr/bin/python3").
    exists "Train", "P"%char, "Y"%char. repeat split; auto.
  - apply (ensure_python_command_spec "/usr/bin/python3").
    intros H. apply endswith_lower_py in H. vm_compute in H. discriminate H.
Defined.

(** ** Paths *)

Lemma rsplit_spec c s a b :
  PyStr.rsplit c s = Some (a, b) ->
  s = a +:+ b /\ exists r, b = String c r /\ PyStr.contains c r = false.
Proof.
  revert a. induction s as [|d s IH]; intros a; cbn; [discriminate |].
  destruct (PyStr.rsplit c s) as [[a' b']|] eqn:E.
  - intros [= <- <-]. destruct (IH a' eq_refl) as [-> Hr]. now split.
  - destruct (Ascii.eqb_spec d c) as [-> | _]; [| discriminate].
    intros [= <- <-]. split; [reflexivity |]. exists s. split; [reflexivity |].
    clear IH. induction s as [|x s IHs]; cbn in *; [reflexivity |].
    destruct (PyStr.rsplit c s) as [[? ?]|]; [discriminate |].
    destruct (Ascii.eqb x c); [discriminate | now apply IHs].
Qed.

Lemma split_name_spec p : p = fst (PyPath.split_name p) +:+ snd (PyPath.split_name p).
Proof.
  unfold PyPath.split_name.
  destruct (PyStr.rsplit "/" p) as [[a b]|] eqn:E; [| reflexivity].
  destruct (rsplit_spec _ _ _ _ E) as [-> (r & -> & _)]. cbn [fst snd].
  now rewrite string_app_assoc.
Qed.

Lemma split_suffix_spec n :
  n = fst (PyPath.split_suffix n) +:+ snd (PyPath.split_suffix n) /\
  (snd (PyPath.split_suffix n) = EmptyString \/
   exists r, snd (PyPath.split_suffix n) = String "." r /\ PyStr.contains "." r = false).
Proof.
  unfold PyPath.split_suffix.
  destruct (PyStr.rsplit "." n) as [[a b]|] eqn:E.
  - destruct (rsplit_spec _ _ _ _ E) as [-> (r & -> & Hr)].
    destruct a as [|c a]; [| destruct r as [|e r]]; cbn [fst snd];
      rewrite ?string_app_nil_r; (split; [reflexivity |]); eauto.
  - cbn [fst snd]. rewrite string_app_nil_r. auto.
Qed.

(** The staging path of the re-sign is never the archive itself. *)
Lemma with_suffix_tmp_ne (p : string) : PyPath.with_suffix p ".epi.tmp" <> p.
Proof.
  unfold PyPath.with_suffix. intros H.
  pose proof (split_name_spec p) as Hp.
  destruct (PyPath.split_name p) as [parent n]. cbn [fst snd] in Hp.
  destruct (split_suffix_spec n) as [Hn Hs].
  destruct (PyPath.split_suffix n) as [st suf]. cbn [fst snd] in *.
  rewrite Hp, Hn in H.
  apply string_app_inv_head, string_app_inv_head in H.
  destruct Hs as [-> | (r & -> & Hr)]; [discriminate H |].
  injection H as <-. discriminate Hr.
Qed.

(** ** The monad *)


Lemma storage_op_eq {A} (act : io A) w :
  storage_op act w =
  match faults w (tick w) with
  | Some e => (Raise e, bump w)
  | None => act (bump w)
  end.
Proof. reflexivity. Qed.



Lemma keeps_ret p {A} (a : A) : keeps p (ret a).
Proof. intros w r w' [= _ <-]. reflexivity. Qed.


Lemma keeps_lift p {A} (x : result A) : keeps p (lift x).
Proof. intros w r w' [= _ <-]. reflexivity. Qed.

Lemma keeps_bind p {A B} (m : io A) (k : A -> io B) :
  keeps p m -> (forall a, keeps p (k a)) -> keeps p (bind m k).
Proof.
  intros Hm Hk w r w' E. unfold bind in E.
  destruct (m w) as [[a|e] w1] eqn:Em.
  - rewrite (Hk a _ _ _ E). exact (Hm _ _ _ Em).
  - injection E as _ <-. exact (Hm _ _ _ Em).
Qed.

Lemma keeps_on_raise_bind p {A B} (m : io A) (k : A -> io B) :
  keeps p m -> (forall a, keeps_on_raise p (k a)) -> keeps_on_raise p (bind m k).
Proof.
  intros Hm Hk w e w' E. unfold bind in E.
  destruct (m w) as [[a|e1] w1] eqn:Em.
  - rewrite (Hk a _ _ _ E). exact (Hm _ _ _ Em).
  - injection E as _ <-. exact (Hm _ _ _ Em).
Qed.


Lemma keeps_storage_op p {A} (act : io A) : keeps p act -> keeps p (storage_op act).
Proof.
  intros Ha w r w' E. rewrite storage_op_eq in E.
  destruct (faults w (tick w)).
  - now injection E as _ <-.
  - exact (Ha _ _ _ E).
Qed.


Lemma keeps_zip_open_read p q : keeps p (zip_open_read q).
Proof.
  apply keeps_storage_op. intros w r w' E.
  destruct (files w !! q) as [[zf|bytes]|]; now injection E as _ <-.
Qed.

Lemma keeps_zip_read p zf name : keeps p (zip_read zf name).
Proof.
  apply keeps_storage_op. intros w r w' E.
  destruct (getinfo zf name); now injection E as _ <-.
Qed.


Lemma keeps_zip_open_write p q : q <> p -> keeps p (zip_open_write q).
Proof.
  intros Hne. apply keeps_storage_op. intros w r w' [= _ <-].
  cbn. now apply lookup_insert_ne.
Qed.

Lemma keeps_zip_writestr p q name data : q <> p -> keeps p (zip_writestr q name data).
Proof.
  intros Hne. apply keeps_storage_op. intros w r w' E.
  destruct (files w !! q) as [[zf|bytes]|]; injection E as _ <-; try reflexivity.
  cbn. now apply lookup_insert_ne.
Qed.

Lemma keeps_on_raise_path_replace p src dst : keeps_on_raise p (path_replace src dst).
Proof.
  intros w e w' E. unfold path_replace in E. rewrite storage_op_eq in E.
  destruct (faults w (tick w)); [now injection E as _ <- |].
  cbn in E. destruct (files w !! src); [discriminate E | now injection E as _ <-].
Qed.

Lemma keeps_load_private_key p name : keeps p (KeyManager.load_private_key name).
Proof.
  intros w r w' E. unfold KeyManager.load_private_key in E.
  destruct (keystore w !! name) as [[[k|] pk]|]; now injection E as _ <-.
Qed.


Lemma bind_ok {A B} (m : io A) (k : A -> io B) w b w' :
  bind m k w = (Ok b, w') -> exists a w1, m w = (Ok a, w1) /\ k a w1 = (Ok b, w').
Proof.
  unfold bind. destruct (m w) as [[a|e] w1]; [eauto | discriminate].
Qed.

Lemma storage_op_ok {A} (act : io A) w a w' :
  storage_op act w = (Ok a, w') -> act (bump w) = (Ok a, w').
Proof. rewrite storage_op_eq. destruct (faults w (tick w)); [discriminate | auto]. Qed.

Lemma zip_open_read_ok p w zf w' :
  zip_open_read p w = (Ok zf, w') ->
  files w !! p = Some (ZipArchive zf) /\ files w' = files w.
Proof.
  intros E. apply storage_op_ok in E. cbn in E.
  destruct (files w !! p) as [[zf0|bytes]|]; try discriminate E.
  now injection E as -> <-.
Qed.

Lemma zip_read_ok zf name w d w' :
  zip_read zf name w = (Ok d, w') -> getinfo zf name = Some d /\ files w' = files w.
Proof.
  intros E. apply storage_op_ok in E.
  destruct (getinfo zf name); [| discriminate E]. now injection E as -> <-.
Qed.

Lemma zip_open_write_ok p w u w' :
  zip_open_write p w = (Ok u, w') -> files w' = <[p := ZipArchive []]> (files w).
Proof. intros E. apply storage_op_ok in E. now injection E as _ <-. Qed.

Lemma zip_writestr_ok p name data w u w' :
  zip_writestr p name data w = (Ok u, w') ->
  exists zf, files w !! p = Some (ZipArchive zf) /\
             files w' = <[p := ZipArchive (zf ++ [(name, data)])]> (files w).
Proof.
  intros E. apply storage_op_ok in E. cbn in E.
  destruct (files w !! p) as [[zf|bytes]|]; try discriminate E.
  injection E as _ <-. now exists zf.
Qed.

Lemma path_replace_ok src dst w u w' :
  path_replace src dst w = (Ok u, w') ->
  exists f, files w !! src = Some f /\
            files w' = <[dst := f]> (delete src (files w)).
Proof.
  intros E. apply storage_op_ok in E. cbn in E.
  destruct (files w !! src) as [f|]; [| discriminate E].
  injection E as _ <-. now exists f.
Qed.

(** ** The archive a re-sign produces *)


Lemma getinfo_app zf1 zf2 name :
  getinfo (zf1 ++ zf2) name =
  match getinfo zf2 name with
  | Some d => Some d
  | None => getinfo zf1 name
  end.
Proof.
  induction zf1 as [|[n d] zf1 IH]; cbn.
  - now destruct (getinfo zf2 name).
  - rewrite IH. now destruct (getinfo zf2 name).
Qed.

Lemma getinfo_None zf name : getinfo zf name = None <-> name ∉ namelist zf.
Proof.
  induction zf as [|[n d] zf IH]; cbn.
  - split; [intros _ H; inversion H | reflexivity].
  - rewrite not_elem_of_cons, <- IH.
    destruct (getinfo zf name); [split; [discriminate | intros [_ ?]; discriminate] |].
    destruct (String.eqb_spec n name) as [-> | Hne].
    + split; [discriminate | intros [? _]; contradiction].
    + split; [intros _; split; [congruence | reflexivity] | reflexivity].
Qed.

Lemma getinfo_singleton n d name :
  getinfo [(n, d)] name = if String.eqb n name then Some d else None.
Proof. reflexivity. Qed.

Lemma rewritten_members_cons zf item items :
  rewritten_members zf (item :: items) =
  (if String.eqb item MANIFEST_JSON then []
   else match getinfo zf item with
        | Some d => [(item, d)]
        | None => []
        end) ++ rewritten_members zf items.
Proof. reflexivity. Qed.

Lemma namelist_rewritten zf items name :
  name ∈ namelist (rewritten_members zf items) -> name ∈ items.
Proof.
  induction items as [|x items IH]; intros H; [inversion H |].
  rewrite rewritten_members_cons in H. unfold namelist in H.
  rewrite map_app in H. apply elem_of_app in H as [H | H].
  - destruct (String.eqb x MANIFEST_JSON); [inversion H |].
    destruct (getinfo zf x); [| inversion H].
    apply list_elem_of_singleton in H as ->. apply elem_of_cons. now left.
  - apply elem_of_cons. right. now apply IH.
Qed.

Lemma getinfo_rewritten zf items name :
  name <> MANIFEST_JSON -> name ∈ items ->
  getinfo (rewritten_members zf items) name = getinfo zf name.
Proof.
  intros Hm. induction items as [|item items IH]; intros Hin; [inversion Hin |].
  rewrite rewritten_members_cons, getinfo_app.
  destruct (decide (name ∈ items)) as [Hi | Hi].
  - rewrite (IH Hi). destruct (getinfo zf name) eqn:E; [reflexivity |].
    destruct (String.eqb item MANIFEST_JSON); [reflexivity |].
    destruct (getinfo zf item) eqn:Ei; [| reflexivity].
    rewrite getinfo_singleton.
    destruct (String.eqb_spec item name) as [-> | _]; [congruence | reflexivity].
  - apply elem_of_cons in Hin as [-> | Hin]; [| contradiction].
    assert (getinfo (rewritten_members zf items) item = None) as ->.
    { apply getinfo_None. intros H. apply Hi. now apply namelist_rewritten in H. }
    destruct (String.eqb_spec item MANIFEST_JSON) as [-> | _]; [contradiction |].
    destruct (getinfo zf item) eqn:Ei; [| reflexivity].
    rewrite getinfo_singleton. now rewrite String.eqb_refl.
Qed.

(** Frame property of the rewritten archive: every name but the manifest
    denotes the payload it denoted before, and the manifest is the new one. *)
Lemma getinfo_resigned zf signed_json name :
  getinfo (resigned_archive zf signed_json) name =
  if String.eqb name MANIFEST_JSON then Some signed_json else getinfo zf name.
Proof.
  unfold resigned_archive. rewrite getinfo_app, getinfo_singleton.
  rewrite (String.eqb_sym name).
  destruct (String.eqb_spec MANIFEST_JSON name) as [<- | Hne]; [reflexivity |].
  destruct (decide (name ∈ namelist zf)) as [Hin | Hout].
  - apply getinfo_rewritten; [congruence | exact Hin].
  - rewrite (proj2 (getinfo_None zf name) Hout). apply getinfo_None.
    intros H. apply Hout. now apply namelist_rewritten in H.
Qed.

(** ** Replacing the manifest of a packed archive *)

Lemma storage_op_free {A} (act : io A) w :
  fault_free w -> storage_op act w = act (bump w).
Proof. intros H. rewrite storage_op_eq. now rewrite H. Qed.

Lemma keeps_copy_members p zf temp items :
  temp <> p -> keeps p (copy_members zf temp items).
Proof.
  intros Hne. induction items as [|item items IH]; cbn [copy_members].
  - apply keeps_ret.
  - apply keeps_bind; [| intros _; exact IH].
    destruct (negb (String.eqb item MANIFEST_JSON)); [| apply keeps_ret].
    apply keeps_bind; [apply keeps_zip_read |].
    intros data. now apply keeps_zip_writestr.
Qed.

Lemma copy_members_ok zf temp items : forall w u w' acc,
  copy_members zf temp items w = (Ok u, w') ->
  files w !! temp = Some (ZipArchive acc) ->
  files w' = <[temp := ZipArchive (acc ++ rewritten_members zf items)]> (files w).
Proof.
  induction items as [|item items IH]; intros w u w' acc E Hacc.
  - injection E as _ <-. cbn. rewrite app_nil_r. symmetry. now apply insert_id.
  - cbn [copy_members] in E. rewrite rewritten_members_cons.
    apply bind_ok in E as (u1 & w1 & E1 & E).
    destruct (String.eqb item MANIFEST_JSON); cbn [negb] in E1.
    + injection E1 as _ <-. exact (IH _ _ _ _ E Hacc).
    + apply bind_ok in E1 as (data & w0 & Er & Ew).
      apply zip_read_ok in Er as [Hd H0]. rewrite Hd.
      apply zip_writestr_ok in Ew as (zf0 & Hz & H1).
      rewrite H0, Hacc in Hz. injection Hz as <-. rewrite H0 in H1.
      rewrite (IH _ _ _ (acc ++ [(item, data)]) E).
      * rewrite H1, insert_insert_eq. now rewrite <- app_assoc.
      * rewrite H1. apply lookup_insert_eq.
Qed.

Lemma copy_members_progress zf temp items : forall w acc,
  fault_free w -> (forall item, item ∈ items -> item ∈ namelist zf) ->
  files w !! temp = Some (ZipArchive acc) ->
  exists w' acc', copy_members zf temp items w = (Ok tt, w') /\ fault_free w' /\
                  files w' !! temp = Some (ZipArchive acc').
Proof.
  induction items as [|item items IH]; intros w acc Hf Hin Hacc.
  - exists w, acc. repeat split; [exact Hf | exact Hacc].
  - cbn [copy_members]. unfold bind at 1.
    assert (Hrest : forall x, x ∈ items -> x ∈ namelist zf)
      by (intros x Hx; apply Hin, elem_of_cons; now right).
    destruct (String.eqb item MANIFEST_JSON); cbn [negb].
    + cbn. exact (IH w acc Hf Hrest Hacc).
    + destruct (getinfo zf item) as [data|] eqn:Ed.
      2:{ apply getinfo_None in Ed. exfalso. apply Ed, Hin, elem_of_cons. now left. }
      unfold bind at 1, zip_read. rewrite (storage_op_free _ _ Hf), Ed.
      unfold zip_writestr. rewrite storage_op_free by exact Hf.
      cbn [files bump]. rewrite Hacc.
      apply (IH _ (acc ++ [(item, data)])); [exact Hf | exact Hrest |].
      cbn. apply lookup_insert_eq.
Qed.

Lemma keeps_on_raise_replace_manifest out signed_json :
  keeps_on_raise out (replace_manifest out signed_json).
Proof.
  pose proof (with_suffix_tmp_ne out) as Hne. unfold replace_manifest.
  apply keeps_on_raise_bind; [apply keeps_zip_open_read | intros zf_in].
  apply keeps_on_raise_bind; [now apply keeps_zip_open_write | intros _].
  apply keeps_on_raise_bind; [now apply keeps_copy_members | intros _].
  apply keeps_on_raise_bind; [now apply keeps_zip_writestr | intros _].
  apply keeps_on_raise_bind.
  - apply keeps_storage_op, keeps_ret.
  - intros _. apply keeps_on_raise_path_replace.
Qed.

Lemma replace_manifest_ok out signed_json w u w' :
  replace_manifest out signed_json w = (Ok u, w') ->
  exists zf,
    files w !! out = Some (ZipArchive zf) /\
    files w' !! out = Some (ZipArchive (resigned_archive zf signed_json)) /\
    files w' !! PyPath.with_suffix out ".epi.tmp" = None.
Proof.
  pose proof (with_suffix_tmp_ne out) as Hne. unfold replace_manifest.
  set (temp := PyPath.with_suffix out ".epi.tmp") in *. intros E.
  apply bind_ok in E as (zf & w1 & E1 & E).
  apply zip_open_read_ok in E1 as [Hzf H1].
  apply bind_ok in E as (u2 & w2 & E2 & E). apply zip_open_write_ok in E2.
  apply bind_ok in E as (u3 & w3 & E3 & E).
  apply (copy_members_ok _ _ _ _ _ _ []) in E3;
    [| rewrite E2; apply lookup_insert_eq].
  apply bind_ok in E as (u4 & w4 & E4 & E).
  apply zip_writestr_ok in E4 as (zf4 & Hz4 & H4).
  rewrite E3, lookup_insert_eq in Hz4. injection Hz4 as <-.
  apply bind_ok in E as (u5 & w5 & E5 & E).
  apply storage_op_ok in E5. injection E5 as _ <-.
  apply path_replace_ok in E as (f & Hf & H6). cbn [files bump] in *.
  rewrite H4, lookup_insert_eq in Hf. injection Hf as <-.
  exists zf. rewrite H6. repeat split.
  - exact Hzf.
  - rewrite lookup_insert_eq. reflexivity.
  - rewrite lookup_insert_ne by congruence. apply lookup_delete_eq.
Qed.

Lemma replace_manifest_progress out signed_json w zf :
  fault_free w -> files w !! out = Some (ZipArchive zf) ->
  exists w', replace_manifest out signed_json w = (Ok tt, w') /\ fault_free w'.
Proof.
  intros Hf Hzf. unfold replace_manifest.
  set (temp := PyPath.with_suffix out ".epi.tmp").
  unfold bind at 1, zip_open_read. rewrite (storage_op_free _ _ Hf).
  cbn [files bump]. rewrite Hzf.
  unfold bind at 1, zip_open_write. rewrite storage_op_free by exact Hf.
  unfold bind at 1.
  edestruct (copy_members_progress zf temp (namelist zf))
    as (w3 & acc3 & -> & Hf3 & H3); [| auto | |].
  - exact Hf.
  - cbn. apply lookup_insert_eq.
  - unfold bind at 1, zip_writestr. rewrite (storage_op_free _ _ Hf3).
    cbn [files bump]. rewrite H3.
    unfold bind at 1, zip_close. rewrite storage_op_free by exact Hf3.
    unfold ret, path_replace. rewrite storage_op_free by exact Hf3.
    cbn [files bump set_files]. rewrite lookup_insert_eq.
    eexists. split; [reflexivity | exact Hf3].
Qed.

(** C3: on an archive at the output path the in-place re-sign goes through
    when the storage layer raises nothing, and whenever it goes through the
    output path holds an archive in which every entry name other than
    [manifest.json] denotes the same payload bytes as before, is present
    exactly when it was present before, and therefore passes or fails the
    digest comparison of the integrity check exactly as before. *)
Theorem resign_preserves_other_entries {float} (X : Externals float)
    (out signed_json : string) (w : World) (zf : zip_entries) :
  files w !! out = Some (ZipArchive zf) ->
  (fault_free w -> exists w', replace_manifest out signed_json w = (Ok tt, w')) /\
  (forall u w',
     replace_manifest out signed_json w = (Ok u, w') ->
     exists zf',
       files w' !! out = Some (ZipArchive zf') /\
       forall name, name <> MANIFEST_JSON ->
         getinfo zf' name = getinfo zf name /\
         (name ∈ namelist zf' <-> name ∈ namelist zf) /\
         forall expected,
           EPIContainer.tracked_mismatch X zf' (name, expected)
           = EPIContainer.tracked_mismatch X zf (name, expected)).
Proof.
  intros Hout. split.
  - intros Hf.
    destruct (replace_manifest_progress out signed_json w zf Hf Hout) as (w' & E & _).
    now exists w'.
  - intros u w' E. apply replace_manifest_ok in E as (zf0 & Hzf & Hzf' & _).
    rewrite Hout in Hzf. injection Hzf as <-.
    exists (resigned_archive zf signed_json). split; [exact Hzf' |].
    intros name Hname.
    assert (Hget : getinfo (resigned_archive zf signed_json) name = getinfo zf name).
    { rewrite getinfo_resigned.
      destruct (String.eqb_spec name MANIFEST_JSON); [contradiction | reflexivity]. }
    split; [exact Hget |]. split.
    + pose proof (getinfo_None zf name) as H1.
      pose proof (getinfo_None (resigned_archive zf signed_json) name) as H2.
      rewrite Hget in H2. split; intros Hin.
      * destruct (decide (name ∈ namelist zf)) as [Hy | Hn]; [exact Hy |].
        apply H1, H2 in Hn. contradiction.
      * destruct (decide (name ∈ namelist (resigned_archive zf signed_json)))
          as [Hy | Hn]; [exact Hy |].
        apply H2, H1 in Hn. contradiction.
    + intros expected. unfold EPIContainer.tracked_mismatch. cbn [fst snd].
      now rewrite Hget.
Qed.

Lemma resign_preserves_other_entries_witness :
  let w := Demo.world Demo.packed Demo.default_keys Demo.no_faults in
  exists w' zf',
    replace_manifest Demo.out "{signed}" w = (Ok tt, w') /\
    files w' !! Demo.out = Some (ZipArchive zf') /\
    getinfo zf' "stdout.log" = Some "done".
Proof.
  intros w.
  destruct (resign_preserves_other_entries Demo.externals Demo.out "{signed}" w
              Demo.packed eq_refl) as [Hgo Hframe].
  destruct (Hgo (fun n => eq_refl)) as (w' & E).
  destruct (Hframe tt w' E) as (zf' & Hzf' & Hsame).
  exists w', zf'. split; [exact E |]. split; [exact Hzf' |].
  destruct (Hsame "stdout.log") as (-> & _); [discriminate | reflexivity].
Defined.

(** C4: the re-sign stages the whole updated archive at
    [out.with_suffix(".epi.tmp")] and promotes it with one [replace].  If any
    step raises, the replace included, the file at the output path is what it
    was before; if none does, the output path holds the complete rewritten
    archive and the staging path is gone. *)
Theorem resign_is_atomic (out signed_json : string) (w : World)
    (r : result unit) (w' : World) :
  replace_manifest out signed_json w = (r, w') ->
  match r with
  | Raise _ => files w' !! out = files w !! out
  | Ok _ =>
      exists zf,
        files w !! out = Some (ZipArchive zf) /\
        files w' !! out = Some (ZipArchive (resigned_archive zf signed_json)) /\
        files w' !! PyPath.with_suffix out ".epi.tmp" = None
  end.
Proof.
  intros E. destruct r as [u|e].
  - exact (replace_manifest_ok _ _ _ _ _ E).
  - exact (keeps_on_raise_replace_manifest _ _ _ _ _ E).
Qed.

Lemma resign_is_atomic_witness :
  let disk_full := fun n : nat => if (n =? 3)%nat then Some (Exn OSError "No space left on device") else None in
  files (snd (replace_manifest Demo.out "{signed}"
                (Demo.world Demo.packed Demo.default_keys disk_full))) !! Demo.out
    = files (Demo.world Demo.packed Demo.default_keys disk_full) !! Demo.out /\
  exists zf,
    files (Demo.world Demo.packed Demo.default_keys Demo.no_faults) !! Demo.out
      = Some (ZipArchive zf) /\
    files (snd (replace_manifest Demo.out "{signed}"
                  (Demo.world Demo.packed Demo.default_keys Demo.no_faults))) !! Demo.out
      = Some (ZipArchive (resigned_archive zf "{signed}")) /\
    files (snd (replace_manifest Demo.out "{signed}"
                  (Demo.world Demo.packed Demo.default_keys Demo.no_faults)))
      !! PyPath.with_suffix Demo.out ".epi.tmp" = None.
Proof.
  intros disk_full. split.
  - refine (resign_is_atomic Demo.out "{signed}" _
              (Raise (Exn OSError "No space left on device")) _ _).
    vm_compute. reflexivity.
  - refine (resign_is_atomic Demo.out "{signed}" _ (Ok tt) _ _).
    vm_compute. reflexivity.
Defined.

(** ** The auto-sign step *)

Section AutoSign.

Context {float : Type} (X : Externals float).

Lemma keeps_on_raise_sign_in_place out : keeps_on_raise out (sign_in_place X out).
Proof.
  unfold sign_in_place.
  apply keeps_on_raise_bind; [apply keeps_load_private_key | intros priv].
  apply keeps_on_raise_bind; [apply keeps_zip_open_read | intros zf].
  apply keeps_on_raise_bind; [apply keeps_zip_read | intros raw].
  apply keeps_on_raise_bind; [apply keeps_lift | intros m].
  apply keeps_on_raise_bind; [apply keeps_lift | intros sm].
  apply keeps_on_raise_replace_manifest.
Qed.

(** The auto-sign block never raises, and a run that was not signed left
    the archive as it was. *)
Lemma auto_sign_total out w :
  exists signed w',
    auto_sign X out w = (Ok signed, w') /\
    (signed = false -> files w' !! out = files w !! out).
Proof.
  unfold auto_sign, try_except, bind.
  destruct (sign_in_place X out w) as [[u|e] w1] eqn:E; cbn.
  - exists true, w1. split; [reflexivity | discriminate].
  - exists false, w1. split; [reflexivity | intros _].
    exact (keeps_on_raise_sign_in_place _ _ _ _ E).
Qed.

End AutoSign.

(** C5: the auto-sign block of [run] never raises.  Whatever raises inside
    it (the default private key is missing, the manifest cannot be read or
    decoded, signing fails, the rewrite or the replace fails), the block ends
    normally with [signed = False], the archive at the output path is the one
    that was packed, and [run] goes on with verification and reporting from
    there. *)
Theorem auto_sign_failure_is_not_fatal {float} (X : Externals float)
    (out : string) (w : World) :
  (exists signed w', auto_sign X out w = (Ok signed, w')) /\
  (forall e w1,
     sign_in_place X out w = (Raise e, w1) ->
     auto_sign X out w = (Ok false, w1) /\
     files w1 !! out = files w !! out /\
     forall rc duration no_verify no_open,
       (signed ← auto_sign X out;
        verify_and_report X out rc duration no_verify no_open) w
       = verify_and_report X out rc duration no_verify no_open w1).
Proof.
  split.
  - destruct (auto_sign_total X out w) as (signed & w' & E & _). now exists signed, w'.
  - intros e w1 E.
    assert (H : auto_sign X out w = (Ok false, w1)).
    { unfold auto_sign, try_except, bind. now rewrite E. }
    split; [exact H |]. split.
    + exact (keeps_on_raise_sign_in_place X _ _ _ _ E).
    + intros rc duration nv no. unfold bind at 1. now rewrite H.
Qed.

Lemma auto_sign_failure_is_not_fatal_witness :
  let w := Demo.world Demo.packed ∅ Demo.no_faults in
  auto_sign Demo.externals Demo.out w = (Ok false, w) /\
  files w !! Demo.out = files w !! Demo.out /\
  forall rc duration no_verify no_open,
    (signed ← auto_sign Demo.externals Demo.out;
     verify_and_report Demo.externals Demo.out rc duration no_verify no_open) w
    = verify_and_report Demo.externals Demo.out rc duration no_verify no_open w.
Proof.
  intros w.
  apply (proj2 (auto_sign_failure_is_not_fatal Demo.externals Demo.out w)
           (Exn FileNotFoundError "Private key not found: default") w).
  reflexivity.
Defined.

(** ** [_verify_recording] *)

Section VerifyRecording.

Context {float : Type} (X : Externals float).

Lemma verify_recording_total p w :
  exists ok reason w', _verify_recording X p w = (Ok (ok, reason), w').
Proof.
  unfold _verify_recording, try_except.
  destruct (verification_steps X p w) as [[[ok reason]|e] w1].
  - now exists ok, reason, w1.
  - cbn. now eexists _, _, _.
Qed.

Lemma verify_recording_of_steps p w r w1 :
  verification_steps X p w = (r, w1) ->
  _verify_recording X p w =
  match r with
  | Ok res => (Ok res, w1)
  | Raise e => (Ok (false, "Verification failed: " +:+ exn_str e), w1)
  end.
Proof. intros E. unfold _verify_recording, try_except. rewrite E. now destruct r. Qed.

Lemma verification_steps_tampered p w m w1 mm w2 :
  EPIContainer.read_manifest X p w = (Ok m, w1) ->
  EPIContainer.verify_integrity X p w1 = (Ok (false, mm), w2) ->
  verification_steps X p w =
  (Ok (false, "Integrity check failed (" +:+ pretty (length mm) +:+ " mismatches)"), w2).
Proof.
  intros H1 H2. unfold verification_steps, bind at 1. rewrite H1.
  unfold bind at 1. rewrite H2. reflexivity.
Qed.

Lemma verification_steps_unsigned p w m w1 mm w2 :
  EPIContainer.read_manifest X p w = (Ok m, w1) ->
  EPIContainer.verify_integrity X p w1 = (Ok (true, mm), w2) ->
  signature m = None ->
  verification_steps X p w = (Ok (true, "OK (unsigned)"), w2).
Proof.
  intros H1 H2 Hs. unfold verification_steps, bind at 1. rewrite H1.
  unfold bind at 1. rewrite H2. cbn. now rewrite Hs.
Qed.

Lemma verification_steps_signed p w m w1 mm w2 sig :
  EPIContainer.read_manifest X p w = (Ok m, w1) ->
  EPIContainer.verify_integrity X p w1 = (Ok (true, mm), w2) ->
  signature m = Some sig ->
  verification_steps X p w =
  try_except (check_signature X m sig) is_FileNotFoundError
    (fun _ => ret (true, "OK (unsigned - no public key)")) w2.
Proof.
  intros H1 H2 Hs. unfold verification_steps, bind at 1. rewrite H1.
  unfold bind at 1. rewrite H2. cbn. now rewrite Hs.
Qed.

Lemma check_signature_no_key m sig w :
  keystore w !! str_or (get_signer_name sig) "default" = None ->
  exists e, check_signature X m sig w = (Raise e, w) /\ exn_cls e = FileNotFoundError.
Proof.
  intros Hk. unfold check_signature, bind, KeyManager.load_public_key.
  rewrite Hk. now eexists.
Qed.

Lemma check_signature_rejected m sig w kp msg :
  keystore w !! str_or (get_signer_name sig) "default" = Some kp ->
  verify_signature X m (public_key kp) = Ok (false, msg) ->
  check_signature X m sig w = (Ok (false, "Signature invalid: " +:+ msg), w).
Proof.
  intros Hk Hv. unfold check_signature, bind, KeyManager.load_public_key, lift.
  rewrite Hk, Hv. reflexivity.
Qed.

Lemma try_except_ok {A} (body : io A) catches handler w a w' :
  body w = (Ok a, w') -> try_except body catches handler w = (Ok a, w').
Proof. intros E. unfold try_except. now rewrite E. Qed.

Lemma try_except_raise {A} (body : io A) catches handler w e w' :
  body w = (Raise e, w') ->
  try_except body catches handler w =
  if catches e then handler e w' else (Raise e, w').
Proof. intros E. unfold try_except. now rewrite E. Qed.

End VerifyRecording.

(** C2: after a readable manifest and a clean integrity check, a signature
    block whose signer has no public key in the local key store gives
    [(True, "OK (unsigned - no public key)")], a success like the
    [(True, "OK (unsigned)")] of a manifest without signature block, whereas
    a signature the trust layer rejects gives [(False, "Signature invalid:
    ...")]; the reason of the key-unavailable case is none of the reasons of
    a rejection. *)
Theorem missing_public_key_passes {float} (X : Externals float) (p : string)
    (w : World) (m : ManifestModel float) (w1 : World) (mm : list string) (w2 : World) :
  EPIContainer.read_manifest X p w = (Ok m, w1) ->
  EPIContainer.verify_integrity X p w1 = (Ok (true, mm), w2) ->
  (forall sig,
     signature m = Some sig ->
     keystore w2 !! str_or (get_signer_name sig) "default" = None ->
     _verify_recording X p w = (Ok (true, "OK (unsigned - no public key)"), w2)) /\
  (signature m = None ->
   _verify_recording X p w = (Ok (true, "OK (unsigned)"), w2)) /\
  (forall sig kp msg,
     signature m = Some sig ->
     keystore w2 !! str_or (get_signer_name sig) "default" = Some kp ->
     verify_signature X m (public_key kp) = Ok (false, msg) ->
     _verify_recording X p w = (Ok (false, "Signature invalid: " +:+ msg), w2) /\
     "OK (unsigned - no public key)" <> "Signature invalid: " +:+ msg).
Proof.
  intros H1 H2. split; [| split].
  - intros sig Hs Hk.
    destruct (check_signature_no_key X m sig w2 Hk) as (e & He & Hc).
    rewrite (verify_recording_of_steps X p w (Ok (true, "OK (unsigned - no public key)")) w2);
      [reflexivity |].
    rewrite (verification_steps_signed X p w m w1 mm w2 sig H1 H2 Hs).
    rewrite (try_except_raise _ _ _ _ _ _ He).
    unfold is_FileNotFoundError. rewrite Hc. reflexivity.
  - intros Hs.
    rewrite (verify_recording_of_steps X p w (Ok (true, "OK (unsigned)")) w2);
      [reflexivity |].
    exact (verification_steps_unsigned X p w m w1 mm w2 H1 H2 Hs).
  - intros sig kp msg Hs Hk Hv. split; [| discriminate].
    rewrite (verify_recording_of_steps X p w
               (Ok (false, "Signature invalid: " +:+ msg)) w2); [reflexivity |].
    rewrite (verification_steps_signed X p w m w1 mm w2 sig H1 H2 Hs).
    apply try_except_ok. now apply (check_signature_rejected X m sig w2 kp).
Qed.


Lemma missing_public_key_passes_witness :
  let w := Demo.world (Demo.archive_signed_by "k-alice" "alice") Demo.default_keys
             Demo.no_faults in
  fst (_verify_recording Demo.externals Demo.out w)
  = Ok (true, "OK (unsigned - no public key)").
Proof.
  intros w.
  set (w1 := snd (EPIContainer.read_manifest Demo.externals Demo.out w)).
  set (w2 := snd (EPIContainer.verify_integrity Demo.externals Demo.out w1)).
  assert (H1 : EPIContainer.read_manifest Demo.externals Demo.out w
               = (Ok (Demo.signed_by "k-alice" "alice"), w1))
    by (vm_compute; reflexivity).
  assert (H2 : EPIContainer.verify_integrity Demo.externals Demo.out w1
               = (Ok (true, []), w2))
    by (vm_compute; reflexivity).
  destruct (missing_public_key_passes Demo.externals Demo.out w _ w1 [] w2 H1 H2)
    as (Hmissing & _ & _).
  rewrite (Hmissing _ eq_refl eq_refl). reflexivity.
Defined.

(** C6, as the code has it: [_verify_recording] never raises.  A tampered
    archive gives [(False, "Integrity check failed (n mismatches)")], a
    rejected signature [(False, "Signature invalid: ...")], and an exception
    that leaves the verification steps is turned into [(False, "Verification
    failed: ...")].  A [FileNotFoundError] raised while the signer's public
    key is loaded or the signature is checked does not leave them: it gives
    [(True, "OK (unsigned - no public key)")]. *)
Theorem verify_recording_never_raises {float} (X : Externals float)
    (p : string) (w : World) :
  (exists ok reason w', _verify_recording X p w = (Ok (ok, reason), w')) /\
  (forall e w1,
     verification_steps X p w = (Raise e, w1) ->
     _verify_recording X p w = (Ok (false, "Verification failed: " +:+ exn_str e), w1)) /\
  (forall m w1 mm w2,
     EPIContainer.read_manifest X p w = (Ok m, w1) ->
     EPIContainer.verify_integrity X p w1 = (Ok (false, mm), w2) ->
     _verify_recording X p w
     = (Ok (false, "Integrity check failed (" +:+ pretty (length mm) +:+ " mismatches)"), w2)) /\
  (forall m w1 mm w2 sig,
     EPIContainer.read_manifest X p w = (Ok m, w1) ->
     EPIContainer.verify_integrity X p w1 = (Ok (true, mm), w2) ->
     signature m = Some sig ->
     (forall kp msg,
        keystore w2 !! str_or (get_signer_name sig) "default" = Some kp ->
        verify_signature X m (public_key kp) = Ok (false, msg) ->
        _verify_recording X p w = (Ok (false, "Signature invalid: " +:+ msg), w2)) /\
     (forall e w3,
        check_signature X m sig w2 = (Raise e, w3) ->
        _verify_recording X p w =
        if is_FileNotFoundError e
        then (Ok (true, "OK (unsigned - no public key)"), w3)
        else (Ok (false, "Verification failed: " +:+ exn_str e), w3))).
Proof.
  split; [apply verify_recording_total |]. split; [| split].
  - intros e w1 E. now rewrite (verify_recording_of_steps X p w _ _ E).
  - intros m w1 mm w2 H1 H2.
    now rewrite (verify_recording_of_steps X p w _ _
                   (verification_steps_tampered X p w m w1 mm w2 H1 H2)).
  - intros m w1 mm w2 sig H1 H2 Hs. split.
    + intros kp msg Hk Hv.
      rewrite (verify_recording_of_steps X p w
                 (Ok (false, "Signature invalid: " +:+ msg)) w2); [reflexivity |].
      rewrite (verification_steps_signed X p w m w1 mm w2 sig H1 H2 Hs).
      apply try_except_ok. now apply (check_signature_rejected X m sig w2 kp).
    + intros e w3 E.
      pose proof (verification_steps_signed X p w m w1 mm w2 sig H1 H2 Hs) as Hv.
      rewrite (try_except_raise _ _ _ _ _ _ E) in Hv.
      destruct (is_FileNotFoundError e).
      * now rewrite (verify_recording_of_steps X p w _ _ Hv).
      * now rewrite (verify_recording_of_steps X p w _ _ Hv).
Qed.

Lemma verify_recording_never_raises_witness :
  let w := Demo.world (replace_member "stdout.log" (flip_byte 1 "X" "done") Demo.packed)
             Demo.default_keys Demo.no_faults in
  fst (_verify_recording Demo.externals Demo.out w)
  = Ok (false, "Integrity check failed (1 mismatches)").
Proof.
  intros w.
  set (w1 := snd (EPIContainer.read_manifest Demo.externals Demo.out w)).
  set (w2 := snd (EPIContainer.verify_integrity Demo.externals Demo.out w1)).
  destruct (verify_recording_never_raises Demo.externals Demo.out w)
    as (_ & _ & Htampered & _).
  rewrite (Htampered Demo.sealed w1 ["stdout.log"] w2).
  - reflexivity.
  - vm_compute. reflexivity.
  - vm_compute. reflexivity.
Defined.

(** C6 as stated fails: the example recording re-signed by [alice], on a
    machine whose key store has no key of that name.  Loading the public key
    raises during verification, and the outcome is a success, not
    [(False, reason)]. *)
Lemma verify_recording_exception_counterexample :
  let w := Demo.world (Demo.archive_signed_by "k-alice" "alice") Demo.default_keys
             Demo.no_faults in
  fst (KeyManager.load_public_key "alice" w)
  = Raise (Exn FileNotFoundError "Public key not found: alice") /\
  ~ exists reason w', _verify_recording Demo.externals Demo.out w = (Ok (false, reason), w').
Proof.
  intros w. split; [reflexivity |].
  intros (reason & w' & H).
  assert (E : fst (_verify_recording Demo.externals Demo.out w)
              = Ok (true, "OK (unsigned - no public key)"))
    by (vm_compute; reflexivity).
  rewrite H in E. discriminate E.
Qed.

(** ** The key store and [epi keys generate] *)

(** C7: generating under a name that is taken, without [--overwrite], raises
    [FileExistsError]; the [keys] command reports it and exits with code 1,
    and the key store is as it was.  With [--overwrite] the generation
    succeeds, and loading the private key under that name gives the new
    key. *)
Theorem generate_existing_name (fresh : string * string) (name : string)
    (old : KeyPair) (w : World) :
  keystore w !! name = Some old ->
  (exists msg,
     KeyManager.generate_keypair fresh name false w
     = (Raise (Exn FileExistsError msg), w)) /\
  (exists w',
     keys fresh "generate" name false w = (Ok (Exit 1), w') /\
     keystore w' = keystore w) /\
  (exists paths w',
     KeyManager.generate_keypair fresh name true w = (Ok paths, w') /\
     KeyManager.load_private_key name w' = (Ok (fst fresh), w')) /\
  (exists w',
     keys fresh "generate" name true w = (Ok Returned, w') /\
     KeyManager.load_private_key name w' = (Ok (fst fresh), w')).
Proof.
  intros Hold. split; [| split; [| split]].
  - unfold KeyManager.generate_keypair. rewrite Hold. now eexists.
  - unfold keys. cbn [String.eqb Ascii.eqb Bool.eqb].
    unfold try_except, bind at 1, KeyManager.generate_keypair. rewrite Hold.
    cbn. now eexists.
  - unfold KeyManager.generate_keypair. rewrite Hold.
    eexists _, _. split; [reflexivity |].
    unfold KeyManager.load_private_key. cbn. now rewrite lookup_insert_eq.
  - unfold keys. cbn [String.eqb Ascii.eqb Bool.eqb].
    unfold try_except, bind at 1, KeyManager.generate_keypair. rewrite Hold.
    cbn. eexists. split; [reflexivity |].
    unfold KeyManager.load_private_key. cbn. now rewrite lookup_insert_eq.
Qed.

Lemma generate_existing_name_witness :
  let w := Demo.world Demo.packed Demo.default_keys Demo.no_faults in
  (exists msg,
     KeyManager.generate_keypair ("k-new", "p-new") "default" false w
     = (Raise (Exn FileExistsError msg), w)) /\
  (exists w',
     keys ("k-new", "p-new") "generate" "default" false w = (Ok (Exit 1), w') /\
     keystore w' = keystore w) /\
  (exists paths w',
     KeyManager.generate_keypair ("k-new", "p-new") "default" true w = (Ok paths, w') /\
     KeyManager.load_private_key "default" w' = (Ok "k-new", w')) /\
  (exists w',
     keys ("k-new", "p-new") "generate" "default" true w = (Ok Returned, w') /\
     KeyManager.load_private_key "default" w' = (Ok "k-new", w')).
Proof.
  intros w.
  apply (generate_existing_name ("k-new", "p-new") "default"
           {| private_key := Some "k-default"; public_key := "k-default" |} w).
  reflexivity.
Defined.

(** ** Read-only steps *)


Lemma steady_ret {A} (a : A) : steady (ret a).
Proof. intros w r w' [= _ <-]. now split. Qed.

Lemma steady_throw {A} e : steady (@throw A e).
Proof. intros w r w' [= _ <-]. now split. Qed.

Lemma steady_lift {A} (x : result A) : steady (lift x).
Proof. intros w r w' [= _ <-]. now split. Qed.


Lemma steady_bind {A B} (m : io A) (k : A -> io B) :
  steady m -> (forall a, steady (k a)) -> steady (bind m k).
Proof.
  intros Hm Hk w r w' E. unfold bind in E.
  destruct (m w) as [[a|e] w1] eqn:Em.
  - destruct (Hm _ _ _ Em) as [<- <-]. exact (Hk a _ _ _ E).
  - injection E as _ <-. exact (Hm _ _ _ Em).
Qed.

Lemma steady_try {A} (body : io A) catches handler :
  steady body -> (forall e, steady (handler e)) ->
  steady (try_except body catches handler).
Proof.
  intros Hb Hh w r w' E. unfold try_except in E.
  destruct (body w) as [[a|e] w1] eqn:Eb.
  - injection E as _ <-. exact (Hb _ _ _ Eb).
  - destruct (Hb _ _ _ Eb) as [<- <-]. destruct (catches e).
    + exact (Hh e _ _ _ E).
    + injection E as _ <-. now split.
Qed.

Lemma steady_storage_op {A} (act : io A) : steady act -> steady (storage_op act).
Proof.
  intros Ha w r w' E. rewrite storage_op_eq in E.
  destruct (faults w (tick w)).
  - injection E as _ <-. now split.
  - exact (Ha _ _ _ E).
Qed.

Lemma steady_zip_open_read p : steady (zip_open_read p).
Proof.
  apply steady_storage_op. intros w r w' E.
  destruct (files w !! p) as [[zf|bytes]|]; injection E as _ <-; now split.
Qed.


Lemma steady_load_public_key name : steady (KeyManager.load_public_key name).
Proof.
  intros w r w' E. unfold KeyManager.load_public_key in E.
  destruct (keystore w !! name); injection E as _ <-; now split.
Qed.

Section ReadOnly.

Context {float : Type} (X : Externals float).

Lemma steady_read_manifest p : steady (EPIContainer.read_manifest X p).
Proof.
  unfold EPIContainer.read_manifest.
  apply steady_bind; [apply steady_zip_open_read | intros zf].
  destruct (getinfo zf MANIFEST_JSON) as [raw|]; [| apply steady_throw].
  destruct (model_validate_json X raw); [apply steady_ret | apply steady_throw].
Qed.

Lemma steady_verify_integrity p : steady (EPIContainer.verify_integrity X p).
Proof.
  unfold EPIContainer.verify_integrity.
  apply steady_bind; [apply steady_read_manifest | intros m].
  apply steady_bind; [apply steady_zip_open_read | intros zf].
  apply steady_ret.
Qed.

Lemma steady_verify_recording p : steady (_verify_recording X p).
Proof.
  unfold _verify_recording.
  apply steady_try; [| intros e; apply steady_ret].
  unfold verification_steps.
  apply steady_bind; [apply steady_read_manifest | intros m].
  apply steady_bind; [apply steady_verify_integrity | intros [ok mm]].
  destruct (negb ok); [apply steady_ret |].
  destruct (signature m) as [sig|]; [| apply steady_ret].
  apply steady_try; [| intros e; apply steady_ret].
  unfold check_signature.
  apply steady_bind; [apply steady_load_public_key | intros pk].
  apply steady_bind; [apply steady_lift | intros [valid msg]].
  destruct valid; apply steady_ret.
Qed.

Lemma steady_open_viewer p : steady (_open_viewer X p).
Proof.
  unfold _open_viewer.
  apply steady_try; [| intros e; apply steady_ret].
  apply steady_bind; [apply steady_zip_open_read | intros zf].
  destruct (existsb _ _); [apply steady_lift | apply steady_ret].
Qed.

Lemma open_viewer_total p w : exists opened w', _open_viewer X p w = (Ok opened, w').
Proof.
  unfold _open_viewer, try_except.
  match goal with |- context [match ?b w with _ => _ end] => destruct (b w) as [[o|e] w1] end.
  - now exists o, w1.
  - cbn. now eexists _, _.
Qed.

(** The verification outcome the exit code depends on. *)
Lemma verify_and_report_exit out rc duration nv no w o w' :
  verify_and_report X out rc duration nv no w = (Ok o, w') ->
  exists verified reason w1,
    (if nv then (Ok (verified, reason), w1) = (Ok (false, "Skipped"), w)
     else _verify_recording X out w = (Ok (verified, reason), w1)) /\
    o = if negb (rc =? 0) then Exit rc
        else if negb verified && negb nv then Exit 1 else Exit 0.
Proof.
  unfold verify_and_report. intros E.
  apply bind_ok in E as ([verified reason] & w1 & E1 & E).
  apply bind_ok in E as (opened & w2 & _ & E).
  apply bind_ok in E as (st & w3 & _ & E).
  apply bind_ok in E as (u & w4 & _ & E).
  exists verified, reason, w1. split.
  - destruct nv; cbn [negb] in E1; [| exact E1]. now injection E1 as <- <- <-.
  - destruct (negb (rc =? 0)); [now injection E as <- _ |].
    destruct (negb verified && negb nv); now injection E as <- _.
Qed.

Lemma verify_and_report_progress out rc duration nv no w :
  fault_free w -> is_Some (files w !! out) ->
  exists o w', verify_and_report X out rc duration nv no w = (Ok o, w').
Proof.
  intros Hf [f Hout]. unfold verify_and_report.
  assert (Hv : exists verified reason w1,
             (if negb nv then _verify_recording X out else ret (false, "Skipped")) w
             = (Ok (verified, reason), w1) /\ files w1 = files w /\ faults w1 = faults w).
  { destruct nv; cbn [negb].
    - now exists false, "Skipped", w.
    - destruct (verify_recording_total X out w) as (v & reason & w1 & E).
      exists v, reason, w1. split; [exact E |].
      exact (steady_verify_recording out _ _ _ E). }
  destruct Hv as (verified & reason & w1 & E1 & Hfiles1 & Hfaults1).
  unfold bind at 1. rewrite E1.
  assert (Ho : exists opened w2,
             (if negb no && (rc =? 0) && verified then _open_viewer X out else ret false) w1
             = (Ok opened, w2) /\ files w2 = files w1 /\ faults w2 = faults w1).
  { destruct (negb no && (rc =? 0) && verified).
    - destruct (open_viewer_total out w1) as (o & w2 & E).
      exists o, w2. split; [exact E |]. exact (steady_open_viewer out _ _ _ E).
    - now exists false, w1. }
  destruct Ho as (opened & w2 & E2 & Hfiles2 & Hfaults2).
  unfold bind at 1. rewrite E2.
  unfold bind at 1, path_stat. rewrite storage_op_free.
  2:{ intros n. now rewrite Hfaults2, Hfaults1. }
  cbn [files bump]. rewrite Hfiles2, Hfiles1, Hout.
  unfold bind at 1, console_print.
  destruct (negb (rc =? 0)); [now eexists _, _ |].
  destruct (negb verified && negb nv); now eexists _, _.
Qed.

End ReadOnly.

(** ** The exit code of [epi run] *)

(** C8: a run of an existing script that reaches its end exits as its last
    part, from "Verify" on, does with the return code [rc] of the child; and
    that part exits with [rc] when [rc] is not zero, with 1 when [rc] is zero
    and the verification that was performed failed, and with 0 when [rc] is
    zero and verification passed or was skipped with [--no-verify].  It does
    reach its end when the archive is there and the storage layer raises
    nothing. *)
Theorem run_exit_code {float} (X : Externals float) :
  (forall a w o w',
     is_Some (files w !! script a) ->
     run X a w = (Ok o, w') ->
     exists rc workspace duration w_v,
       record_child X (_ensure_python_command (sys_executable X) [script a])
         = Ok (rc, workspace, duration) /\
       verify_and_report X (_gen_auto_name X (script a)) rc duration
         (no_verify a) (no_open a) w_v = (Ok o, w')) /\
  (forall out rc duration nv no w o w',
     verify_and_report X out rc duration nv no w = (Ok o, w') ->
     (rc <> 0 -> o = Exit rc) /\
     (rc = 0 -> nv = false ->
      (exists reason w1, _verify_recording X out w = (Ok (false, reason), w1)) ->
      o = Exit 1) /\
     (rc = 0 ->
      (nv = true \/
       exists reason w1, _verify_recording X out w = (Ok (true, reason), w1)) ->
      o = Exit 0)) /\
  (forall out rc duration nv no w,
     fault_free w -> is_Some (files w !! out) ->
     exists o w', verify_and_report X out rc duration nv no w = (Ok o, w')).
Proof.
  split; [| split; [| apply verify_and_report_progress]].
  - intros a w o w' Hscript E. unfold run in E.
    apply bind_ok in E as (found & w0 & E0 & E).
    unfold path_exists in E0. injection E0 as <- <-.
    rewrite bool_decide_eq_true_2 in E by exact Hscript. cbn [negb] in E.
    apply bind_ok in E as (metrics_dict & w1 & _ & E).
    apply bind_ok in E as (u & w2 & _ & E).
    apply bind_ok in E as ([[rc workspace] duration] & w3 & E3 & E).
    unfold lift in E3. injection E3 as E3 _.
    apply bind_ok in E as (u4 & w_p & _ & E).
    apply bind_ok in E as (signed & w_v & _ & E).
    now exists rc, workspace, duration, w_v.
  - intros out rc duration nv no w o w' E.
    apply verify_and_report_exit in E as (verified & reason & w5 & Ev & ->).
    split; [| split].
    + intros Hrc. apply Z.eqb_neq in Hrc. now rewrite Hrc.
    + intros -> -> (reason' & w1' & Hfail).
      rewrite Hfail in Ev. now injection Ev as <- _ _.
    + intros -> [-> | (reason' & w1' & Hpass)].
      * cbn. now rewrite andb_false_r.
      * destruct nv; [cbn; now rewrite andb_false_r |].
        rewrite Hpass in Ev. now injection Ev as <- _ _.
Qed.


Lemma run_exit_code_witness :
  (exists rc workspace duration w_v,
     record_child Demo.externals
       (_ensure_python_command (sys_executable Demo.externals) [script Demo.args])
       = Ok (rc, workspace, duration) /\
     verify_and_report Demo.externals
       (_gen_auto_name Demo.externals (script Demo.args)) rc duration
       (no_verify Demo.args) (no_open Demo.args) w_v
     = (Ok (Exit 0), snd (run Demo.externals Demo.args Demo.machine))) /\
  let tampered := replace_member "stdout.log" (flip_byte 1 "X" "done") Demo.packed in
  let w := Demo.world tampered Demo.default_keys Demo.no_faults in
  forall o w',
    verify_and_report Demo.externals Demo.out 0 "0.5" false false w = (Ok o, w') ->
    o = Exit 1.
Proof.
  split.
  - apply (proj1 (run_exit_code Demo.externals) Demo.args Demo.machine (Exit 0)).
    + eexists. vm_compute. reflexivity.
    + vm_compute. reflexivity.
  - intros tampered w o w' E.
    destruct (proj1 (proj2 (run_exit_code Demo.externals)) _ _ _ _ _ _ _ _ E) as (_ & H & _).
    apply H; [reflexivity | reflexivity |].
    eexists _, _. vm_compute. reflexivity.
Defined.

(** ** Metrics *)

Section Metrics.

Context {float : Type} (X : Externals float).


Lemma parse_metrics_spec l : forall acc w,
  exists d w',
    parse_metrics X l acc w = (Ok d, w') /\
    console w' = console w ++ metric_warnings l /\
    (forall key, no_metric_for key l -> d !! key = acc !! key) /\
    (forall before m after key value,
       l = before ++ m :: after ->
       PyStr.split1 "=" m = Some (key, value) ->
       no_metric_for key after ->
       d !! key = Some (metric_of X value)).
Proof.
  induction l as [|m rest IH]; intros acc w.
  - exists acc, w. split; [reflexivity |]. split; [now rewrite app_nil_r |].
    split; [reflexivity |]. intros [|? ?] ? ? ? ? E; discriminate E.
  - cbn [parse_metrics].
    destruct (PyStr.contains "=" m) eqn:Hc.
    + destruct (PyStr.split1 "=" m) as [[k v]|] eqn:Hs.
      2:{ apply contains_split1 in Hs. congruence. }
      set (acc' := <[k := metric_of X v]> acc).
      assert (Hstep : (match float_of_str X v with
                       | Some x => parse_metrics X rest (<[k := MetricFloat x]> acc)
                       | None => parse_metrics X rest (<[k := MetricStr v]> acc)
                       end) = parse_metrics X rest acc').
      { unfold acc', metric_of. now destruct (float_of_str X v). }
      rewrite Hstep. destruct (IH acc' w) as (d & w' & E & Hcon & Hno & Hlast).
      exists d, w'. split; [exact E |]. split.
      { rewrite Hcon. unfold metric_warnings. cbn [List.filter]. now rewrite Hc. }
      split.
      * intros key Hkey. rewrite Hno.
        -- unfold acc'. apply lookup_insert_ne. intros ->.
           apply (Hkey m v); [apply elem_of_cons; now left | exact Hs].
        -- intros m' v' Hin. apply Hkey. apply elem_of_cons. now right.
      * intros [|b before] m0 after key value El Hs0 Hafter.
        -- cbn in El. injection El as <- <-.
           rewrite Hs in Hs0. injection Hs0 as <- <-.
           rewrite (Hno k Hafter). unfold acc'. apply lookup_insert_eq.
        -- cbn in El. injection El as _ ->. now apply (Hlast before m0 after).
    + unfold bind at 1, console_print.
      match goal with |- context [parse_metrics X rest acc ?w1] =>
        destruct (IH acc w1) as (d & w' & E & Hcon & Hno & Hlast) end.
      exists d, w'. split; [exact E |]. split.
      { rewrite Hcon. cbn [console]. unfold metric_warnings.
        cbn [List.filter]. rewrite Hc. cbn [negb map]. now rewrite <- app_assoc. }
      split.
      * intros key Hkey. apply Hno.
        intros m' v' Hin. apply Hkey. apply elem_of_cons. now right.
      * intros [|b before] m0 after key value El Hs0 Hafter.
        -- cbn in El. injection El as <- <-.
           apply contains_split1 in Hc. congruence.
        -- cbn in El. injection El as _ ->. now apply (Hlast before m0 after).
Qed.

(** A test that decides [no_metric_for] on a given list. *)
Lemma no_metric_for_test key l :
  forallb (fun m => match PyStr.split1 "=" m with
                    | Some (k, _) => negb (String.eqb k key)
                    | None => true
                    end) l = true ->
  no_metric_for key l.
Proof.
  intros H m value Hm Hs. rewrite forallb_forall in H.
  apply list_elem_of_In in Hm. specialize (H m Hm). rewrite Hs in H.
  now rewrite String.eqb_refl in H.
Qed.

End Metrics.

(** C9, as the code has it: without [--metric] arguments the [metrics] field
    is [None].  Otherwise it is a dictionary in which every argument
    [key=value] (split at the first [=]) that no later argument with the same
    key follows binds [key] to [float(value)] when that parses and to the
    text [value] otherwise; a key no argument names is not bound, so an
    argument without [=] adds nothing; and for each such argument one warning
    is printed. *)
Theorem run_metrics_spec {float} (X : Externals float) :
  (forall w, run_metrics X None w = (Ok None, w)) /\
  (forall w, run_metrics X (Some []) w = (Ok None, w)) /\
  (forall l w, l <> [] ->
     exists d w',
       run_metrics X (Some l) w = (Ok (Some d), w') /\
       console w' = console w ++ metric_warnings l /\
       (forall before m after key value,
          l = before ++ m :: after ->
          m = key +:+ String "=" value ->
          PyStr.contains "=" key = false ->
          no_metric_for key after ->
          d !! key = Some (metric_of X value)) /\
       (forall key, no_metric_for key l -> d !! key = None)).
Proof.
  split; [reflexivity |]. split; [reflexivity |].
  intros l w Hl. destruct l as [|m l]; [contradiction |].
  destruct (parse_metrics_spec X (m :: l) ∅ w) as (d & w' & E & Hcon & Hno & Hlast).
  exists d, w'. split.
  - unfold run_metrics, bind. now rewrite E.
  - split; [exact Hcon |]. split.
    + intros before m0 after key value El Em Hkey Hafter.
      apply (Hlast before m0 after key value El); [| exact Hafter].
      apply split1_spec. now split.
    + intros key Hkey. now rewrite (Hno key Hkey).
Qed.

Lemma run_metrics_spec_witness :
  exists d w',
    run_metrics Demo.externals (Some ["accuracy=92"; "latency"; "model=gpt=4"]) Demo.machine
    = (Ok (Some d), w') /\
    d !! "accuracy" = Some (MetricFloat 92%N) /\
    d !! "model" = Some (MetricStr "gpt=4") /\
    d !! "latency" = None.
Proof.
  destruct (proj2 (proj2 (run_metrics_spec Demo.externals))
              ["accuracy=92"; "latency"; "model=gpt=4"] Demo.machine)
    as (d & w' & E & _ & Hlast & Hnone); [discriminate |].
  exists d, w'. split; [exact E |]. split; [| split].
  - apply (Hlast [] "accuracy=92" ["latency"; "model=gpt=4"] "accuracy" "92");
      try reflexivity.
    apply no_metric_for_test. reflexivity.
  - apply (Hlast ["accuracy=92"; "latency"] "model=gpt=4" [] "model" "gpt=4");
      try reflexivity.
    apply no_metric_for_test. reflexivity.
  - apply Hnone. apply no_metric_for_test. reflexivity.
Defined.

(** C9 as stated fails when a key is repeated: after
    [--metric a=1 --metric a=2] the dictionary binds [a] to [float("2")], so
    the argument [a=1] is not bound to [float("1")]. *)
Lemma run_metrics_repeated_key_counterexample :
  exists d,
    fst (run_metrics Demo.externals (Some ["a=1"; "a=2"]) Demo.machine) = Ok (Some d) /\
    PyStr.split1 "=" "a=1" = Some ("a", "1") /\
    metric_of Demo.externals "1" = MetricFloat 1%N /\
    d !! "a" = Some (MetricFloat 2%N) /\
    d !! "a" <> Some (metric_of Demo.externals "1").
Proof.
  eexists. split; [vm_compute; reflexivity |].
  split; [reflexivity |]. split; [reflexivity |].
  split; [vm_compute; reflexivity |]. vm_compute. discriminate.
Qed.

(** ** Integrity *)

Lemma filter_none {A} (f : A -> bool) (l : list A) :
  (forall x, x ∈ l -> f x = false) -> List.filter f l = [].
Proof.
  induction l as [|x l IH]; intros H; [reflexivity |]. cbn.
  rewrite (H x) by (apply elem_of_cons; now left).
  apply IH. intros y Hy. apply H, elem_of_cons. now right.
Qed.

Lemma filter_eqb_NoDup (x : string) (l : list string) :
  NoDup l -> x ∈ l -> List.filter (fun n => String.eqb n x) l = [x].
Proof.
  induction l as [|y l IH]; intros Hnd Hin; [inversion Hin |].
  apply NoDup_cons in Hnd as [Hy Hnd]. cbn.
  destruct (String.eqb_spec y x) as [-> | Hne].
  - f_equal. apply filter_none. intros z Hz.
    destruct (String.eqb_spec z x) as [-> | _]; [contradiction | reflexivity].
  - apply IH; [exact Hnd |]. apply elem_of_cons in Hin as [-> | Hin]; [congruence | exact Hin].
Qed.

Lemma filter_map_fst {A} (g : A -> string * string) (key : A -> string)
    (P : string * string -> bool) (Q : string -> bool) (l : list A) :
  (forall e, e ∈ l -> fst (g e) = key e /\ P (g e) = Q (key e)) ->
  map fst (List.filter P (map g l)) = List.filter Q (map key l).
Proof.
  induction l as [|e l IH]; intros H; [reflexivity |]. cbn.
  destruct (H e) as [Hk HP]; [apply elem_of_cons; now left |].
  rewrite HP.
  assert (IH' := IH (fun e' He' => H e' (proj2 (elem_of_cons l e' e) (or_intror He')))).
  destruct (Q (key e)); cbn; rewrite IH'; [now rewrite Hk | reflexivity].
Qed.

Lemma getinfo_NoDup zf name data :
  NoDup (namelist zf) -> (name, data) ∈ zf -> getinfo zf name = Some data.
Proof.
  induction zf as [|[n d] zf IH]; intros Hnd Hin; [inversion Hin |].
  cbn in Hnd. apply NoDup_cons in Hnd as [Hn Hnd]. cbn.
  apply elem_of_cons in Hin as [[= <- <-] | Hin].
  - rewrite (proj2 (getinfo_None zf name) Hn). now rewrite String.eqb_refl.
  - now rewrite (IH Hnd Hin).
Qed.

Lemma namelist_replace_member name data zf :
  namelist (replace_member name data zf) = namelist zf.
Proof.
  unfold namelist, replace_member. rewrite map_map. apply map_ext.
  intros [n d]. now destruct (String.eqb n name).
Qed.

Lemma getinfo_cons n0 d0 zf n :
  getinfo ((n0, d0) :: zf) n =
  match getinfo zf n with
  | Some d => Some d
  | None => if String.eqb n0 n then Some d0 else None
  end.
Proof. reflexivity. Qed.

Lemma replace_member_cons name data n0 d0 zf :
  replace_member name data ((n0, d0) :: zf) =
  (n0, if String.eqb n0 name then data else d0) :: replace_member name data zf.
Proof. unfold replace_member. cbn. now destruct (String.eqb n0 name). Qed.

Lemma getinfo_replace_member name data zf n :
  getinfo (replace_member name data zf) n =
  if String.eqb n name then
    match getinfo zf n with
    | Some _ => Some data
    | None => None
    end
  else getinfo zf n.
Proof.
  induction zf as [|[n0 d0] zf IH].
  - cbn. now destruct (String.eqb n name).
  - rewrite replace_member_cons, !getinfo_cons, IH.
    destruct (String.eqb_spec n name) as [En | Hn].
    + subst n. destruct (getinfo zf name); [reflexivity |].
      destruct (String.eqb n0 name); reflexivity.
    + destruct (getinfo zf n); [reflexivity |].
      destruct (String.eqb_spec n0 n) as [E0 | _]; [| reflexivity].
      subst n0. destruct (String.eqb_spec n name); [contradiction | reflexivity].
Qed.

Section Integrity.

Context {float : Type} (X : Externals float).

(** What [verify_integrity] returns is the report on the archive at the
    path and the manifest decoded from it. *)
Lemma verify_integrity_inv p w ok mm w' :
  EPIContainer.verify_integrity X p w = (Ok (ok, mm), w') ->
  exists zf raw m,
    files w !! p = Some (ZipArchive zf) /\
    getinfo zf MANIFEST_JSON = Some raw /\
    model_validate_json X raw = Ok m /\
    mm = EPIContainer.integrity_report X zf m /\
    ok = bool_decide (mm = []).
Proof.
  unfold EPIContainer.verify_integrity, EPIContainer.read_manifest. intros E.
  apply bind_ok in E as (m & w1 & E1 & E).
  apply bind_ok in E1 as (zf & w0 & E0 & E1).
  apply zip_open_read_ok in E0 as [Hzf H0].
  destruct (getinfo zf MANIFEST_JSON) as [raw|] eqn:Hraw; [| discriminate E1].
  destruct (model_validate_json X raw) as [m0|e] eqn:Hm; [| discriminate E1].
  injection E1 as -> <-.
  apply bind_ok in E as (zf2 & w2 & E2 & E).
  apply zip_open_read_ok in E2 as [Hzf2 H2].
  rewrite H0, Hzf in Hzf2. injection Hzf2 as <-.
  injection E as <- <- _.
  now exists zf, raw, m.
Qed.

Lemma verify_integrity_run p w zf raw m :
  fault_free w ->
  files w !! p = Some (ZipArchive zf) ->
  getinfo zf MANIFEST_JSON = Some raw ->
  model_validate_json X raw = Ok m ->
  EPIContainer.verify_integrity X p w =
  (Ok (bool_decide (EPIContainer.integrity_report X zf m = []),
       EPIContainer.integrity_report X zf m), bump (bump w)).
Proof.
  intros Hf Hzf Hraw Hm.
  unfold EPIContainer.verify_integrity, EPIContainer.read_manifest.
  unfold bind at 1. unfold bind at 1. unfold zip_open_read at 1.
  rewrite (storage_op_free _ _ Hf). cbn [files bump]. rewrite Hzf, Hraw, Hm.
  unfold ret at 1. unfold bind at 1, zip_open_read.
  rewrite storage_op_free by exact Hf. cbn [files bump]. rewrite Hzf.
  reflexivity.
Qed.

Lemma integrity_report_elem zf m name :
  name ∈ EPIContainer.integrity_report X zf m <->
  (exists expected,
     (name, expected) ∈ digests m /\
     (getinfo zf name = None \/
      exists data, getinfo zf name = Some data /\ digest X data <> expected)) \/
  (name ∈ namelist zf /\ name <> MANIFEST_JSON /\ name ∉ map fst (digests m)).
Proof.
  unfold EPIContainer.integrity_report. rewrite elem_of_app.
  match goal with |- ?A1 \/ ?A2 <-> ?B1 \/ ?B2 =>
    assert (H1 : A1 <-> B1); [| assert (H2 : A2 <-> B2); [| tauto]] end.
  - rewrite list_elem_of_In, in_map_iff. split.
    + intros ([n expected] & <- & Hin). apply filter_In in Hin as [Hin Ht].
      exists expected. split; [now apply list_elem_of_In |].
      unfold EPIContainer.tracked_mismatch in Ht. cbn [fst snd] in *.
      destruct (getinfo zf n) as [data|]; [right | now left].
      exists data. split; [reflexivity |]. intros Heq.
      rewrite Heq, String.eqb_refl in Ht. discriminate Ht.
    + intros (expected & Hin & Hbad). exists (name, expected).
      split; [reflexivity |]. apply filter_In. split; [now apply list_elem_of_In |].
      unfold EPIContainer.tracked_mismatch. cbn [fst snd].
      destruct Hbad as [-> | (data & -> & Hne)]; [reflexivity |].
      destruct (String.eqb_spec (digest X data) expected); [contradiction | reflexivity].
  - rewrite list_elem_of_In, filter_In, <- list_elem_of_In.
    unfold EPIContainer.untracked. rewrite andb_true_iff, !negb_true_iff.
    assert (Hm : String.eqb name MANIFEST_JSON = false <-> name <> MANIFEST_JSON)
      by (destruct (String.eqb_spec name MANIFEST_JSON); split; congruence).
    assert (Hd : existsb (String.eqb name) (map fst (digests m)) = false
                 <-> name ∉ map fst (digests m)).
    { rewrite list_elem_of_In. split.
      * intros Hex Hin. apply not_true_iff_false in Hex. apply Hex.
        apply existsb_exists. exists name. split; [exact Hin | apply String.eqb_refl].
      * intros Hnin. apply not_true_iff_false. intros Hex.
        apply existsb_exists in Hex as (x & Hx & Heq).
        apply String.eqb_eq in Heq as <-. contradiction. }
    tauto.
Qed.

End Integrity.

Section Tamper.

Context {float : Type} (X : Externals float).

Variables (source : zip_entries) (template : ManifestModel float).

Local Abbreviation entries := (EPIContainer.archived_entries X source).
Local Abbreviation sealed := (EPIContainer.sealed_manifest X source template).
Local Abbreviation packed := (EPIContainer.packed_archive X source template).

Hypothesis names_unique : NoDup (namelist entries).
Hypothesis manifest_reserved : MANIFEST_JSON ∉ namelist entries.

Lemma sealed_digest_names : map fst (digests sealed) = namelist entries.
Proof.
  unfold sealed, EPIContainer.sealed_manifest, namelist. cbn [digests].
  fold entries. rewrite map_map. apply map_ext. now intros [n d].
Qed.

Lemma getinfo_packed name data :
  (name, data) ∈ entries -> getinfo packed name = Some data.
Proof.
  intros Hin. unfold packed, EPIContainer.packed_archive. fold entries.
  rewrite getinfo_app, getinfo_singleton.
  destruct (String.eqb_spec MANIFEST_JSON name) as [<- | _].
  - exfalso. apply manifest_reserved. unfold namelist.
    apply list_elem_of_In, in_map_iff. exists (MANIFEST_JSON, data).
    split; [reflexivity | now apply list_elem_of_In].
  - now apply getinfo_NoDup.
Qed.

Lemma getinfo_packed_manifest :
  getinfo packed MANIFEST_JSON = Some (model_dump_json X sealed).
Proof.
  unfold packed, EPIContainer.packed_archive.
  rewrite getinfo_app, getinfo_singleton. now rewrite String.eqb_refl.
Qed.

Lemma namelist_packed : namelist packed = namelist entries ++ [MANIFEST_JSON].
Proof.
  unfold packed, EPIContainer.packed_archive, namelist. fold entries.
  now rewrite map_app.
Qed.

Lemma untracked_packed zf :
  namelist zf = namelist packed ->
  List.filter (EPIContainer.untracked sealed) (namelist zf) = [].
Proof.
  intros ->. apply filter_none. intros x Hx.
  rewrite namelist_packed in Hx. unfold EPIContainer.untracked.
  apply elem_of_app in Hx as [Hx | Hx].
  - rewrite sealed_digest_names.
    assert (existsb (String.eqb x) (namelist entries) = true) as ->.
    { apply existsb_exists. exists x.
      split; [now apply list_elem_of_In | apply String.eqb_refl]. }
    apply andb_false_r.
  - apply list_elem_of_singleton in Hx as ->. now rewrite String.eqb_refl.
Qed.

Lemma report_packed : EPIContainer.integrity_report X packed sealed = [].
Proof.
  unfold EPIContainer.integrity_report.
  rewrite (untracked_packed packed eq_refl), app_nil_r.
  rewrite filter_none; [reflexivity |]. intros [n h] Hin.
  unfold sealed, EPIContainer.sealed_manifest in Hin. cbn [digests] in Hin.
  fold entries in Hin. apply list_elem_of_In, in_map_iff in Hin as ([n0 d] & [= <- <-] & Hin).
  apply list_elem_of_In in Hin.
  unfold EPIContainer.tracked_mismatch. cbn [fst snd].
  rewrite (getinfo_packed _ _ Hin). now rewrite String.eqb_refl.
Qed.

Lemma report_tampered name data data' :
  (name, data) ∈ entries ->
  digest X data' <> digest X data ->
  EPIContainer.integrity_report X (replace_member name data' packed) sealed = [name].
Proof.
  intros Hin Hne. unfold EPIContainer.integrity_report.
  rewrite untracked_packed by apply namelist_replace_member. rewrite app_nil_r.
  unfold sealed at 1, EPIContainer.sealed_manifest. cbn [digests]. fold entries.
  rewrite (filter_map_fst _ fst _ (fun n => String.eqb n name)).
  - apply filter_eqb_NoDup; [exact names_unique |].
    apply list_elem_of_In, in_map_iff. exists (name, data).
    split; [reflexivity | now apply list_elem_of_In].
  - intros [n d] He. split; [reflexivity |].
    unfold EPIContainer.tracked_mismatch. cbn [fst snd].
    rewrite getinfo_replace_member, (getinfo_packed _ _ He).
    destruct (String.eqb_spec n name) as [En | _].
    + subst n.
      assert (d = data) as ->.
      { pose proof (getinfo_packed _ _ He) as H1.
        pose proof (getinfo_packed _ _ Hin) as H2. congruence. }
      destruct (String.eqb_spec (digest X data') (digest X data)); [contradiction | reflexivity].
    + now rewrite String.eqb_refl.
Qed.

End Tamper.

(** C1: whatever [verify_integrity] returns, [ok] is true exactly when the
    mismatch list is empty, and the list holds every mismatching entry: a
    name is in it exactly when the digest mapping tracks it and the archive
    lacks it or holds bytes with another digest, or when the archive holds it
    untracked.  On a readable archive and fault-free storage it returns.
    After packing entries with distinct names, overwriting one byte of one
    entry so that its digest changes makes [verify_integrity] return
    [(False, [that entry])]; on the untouched archive it returns
    [(True, [])]. *)
Theorem verify_integrity_report {float} (X : Externals float) :
  (forall p w ok mm w',
     EPIContainer.verify_integrity X p w = (Ok (ok, mm), w') ->
     (ok = true <-> mm = []) /\
     exists zf raw m,
       files w !! p = Some (ZipArchive zf) /\
       getinfo zf MANIFEST_JSON = Some raw /\
       model_validate_json X raw = Ok m /\
       forall name,
         name ∈ mm <->
         (exists expected,
            (name, expected) ∈ digests m /\
            (getinfo zf name = None \/
             exists data, getinfo zf name = Some data /\ digest X data <> expected)) \/
         (name ∈ namelist zf /\ name <> MANIFEST_JSON /\ name ∉ map fst (digests m))) /\
  (forall p w zf raw m,
     fault_free w ->
     files w !! p = Some (ZipArchive zf) ->
     getinfo zf MANIFEST_JSON = Some raw ->
     model_validate_json X raw = Ok m ->
     exists ok mm w', EPIContainer.verify_integrity X p w = (Ok (ok, mm), w')) /\
  (forall source template p w,
     NoDup (namelist (EPIContainer.archived_entries X source)) ->
     MANIFEST_JSON ∉ namelist (EPIContainer.archived_entries X source) ->
     model_validate_json X (model_dump_json X (EPIContainer.sealed_manifest X source template))
       = Ok (EPIContainer.sealed_manifest X source template) ->
     fault_free w ->
     (files w !! p = Some (ZipArchive (EPIContainer.packed_archive X source template)) ->
      exists w', EPIContainer.verify_integrity X p w = (Ok (true, []), w')) /\
     (forall name data i b,
        (name, data) ∈ EPIContainer.archived_entries X source ->
        digest X (flip_byte i b data) <> digest X data ->
        files w !! p
          = Some (ZipArchive (replace_member name (flip_byte i b data)
                                (EPIContainer.packed_archive X source template))) ->
        exists w', EPIContainer.verify_integrity X p w = (Ok (false, [name]), w'))).
Proof.
  split; [| split].
  - intros p w ok mm w' E.
    apply verify_integrity_inv in E as (zf & raw & m & Hzf & Hraw & Hm & -> & ->).
    split.
    + rewrite bool_decide_eq_true. reflexivity.
    + exists zf, raw, m. repeat (split; [assumption |]).
      intros name. apply integrity_report_elem.
  - intros p w zf raw m Hf Hzf Hraw Hm.
    rewrite (verify_integrity_run X p w zf raw m Hf Hzf Hraw Hm). now eexists _, _, _.
  - intros source template p w Hnd Hres Hcodec Hf. split.
    + intros Hzf.
      rewrite (verify_integrity_run X p w _ _ _ Hf Hzf
                 (getinfo_packed_manifest X source template) Hcodec).
      rewrite (report_packed X source template Hnd Hres). now eexists.
    + intros name data i b Hin Hne Hzf.
      assert (Hman : getinfo (replace_member name (flip_byte i b data)
                                (EPIContainer.packed_archive X source template))
                       MANIFEST_JSON
                     = Some (model_dump_json X (EPIContainer.sealed_manifest X source template))).
      { rewrite getinfo_replace_member, getinfo_packed_manifest.
        destruct (String.eqb_spec MANIFEST_JSON name) as [<- | _]; [| reflexivity].
        exfalso. apply Hres. unfold namelist. apply list_elem_of_In, in_map_iff.
        exists (MANIFEST_JSON, data). split; [reflexivity | now apply list_elem_of_In]. }
      rewrite (verify_integrity_run X p w _ _ _ Hf Hzf Hman Hcodec).
      rewrite (report_tampered X source template Hnd Hres name data _ Hin Hne).
      now eexists.
Qed.

Lemma verify_integrity_report_witness :
  let w := Demo.world (replace_member "stdout.log" (flip_byte 1 "X" "done") Demo.packed)
             Demo.default_keys Demo.no_faults in
  exists w', EPIContainer.verify_integrity Demo.externals Demo.out w
             = (Ok (false, ["stdout.log"]), w').
Proof.
  intros w.
  destruct (verify_integrity_report Demo.externals) as (_ & _ & H).
  destruct (H Demo.workspace Demo.template Demo.out w) as [_ Htamper].
  - apply (bool_decide_eq_true_1 _). vm_compute. reflexivity.
  - apply (bool_decide_eq_true_1 _). vm_compute. reflexivity.
  - vm_compute. reflexivity.
  - intros n. reflexivity.
  - apply (Htamper "stdout.log" "done" 1%nat "X"%char).
    + apply (bool_decide_eq_true_1 _). vm_compute. reflexivity.
    + vm_compute. discriminate.
    + reflexivity.
Defined.


(** * Further properties *)

(** ** What the commands write to *)

Lemma untouched_refl ps w : untouched_outside ps w w.
Proof. now repeat split. Qed.

Lemma untouched_trans ps w1 w2 w3 :
  untouched_outside ps w1 w2 -> untouched_outside ps w2 w3 ->
  untouched_outside ps w1 w3.
Proof.
  intros (Hk1 & Hf1 & H1) (Hk2 & Hf2 & H2). split; [congruence |].
  split; [congruence |]. intros q Hq. now rewrite (H2 q Hq), (H1 q Hq).
Qed.

Lemma untouched_bump ps w : untouched_outside ps w (bump w).
Proof. now repeat split. Qed.

Lemma confined_ret ps {A} (a : A) : confined ps (ret a).
Proof. intros w r w' [= _ <-]. apply untouched_refl. Qed.

Lemma confined_throw ps {A} e : confined ps (@throw A e).
Proof. intros w r w' [= _ <-]. apply untouched_refl. Qed.

Lemma confined_lift ps {A} (x : result A) : confined ps (lift x).
Proof. intros w r w' [= _ <-]. apply untouched_refl. Qed.

Lemma confined_console_print ps line : confined ps (console_print line).
Proof. intros w r w' [= _ <-]. now repeat split. Qed.


Lemma confined_bind ps {A B} (m : io A) (k : A -> io B) :
  confined ps m -> (forall a, confined ps (k a)) -> confined ps (bind m k).
Proof.
  intros Hm Hk w r w' E. unfold bind in E.
  destruct (m w) as [[a|e] w1] eqn:Em.
  - exact (untouched_trans _ _ _ _ (Hm _ _ _ Em) (Hk a _ _ _ E)).
  - injection E as _ <-. exact (Hm _ _ _ Em).
Qed.

Lemma confined_try ps {A} (body : io A) catches handler :
  confined ps body -> (forall e, confined ps (handler e)) ->
  confined ps (try_except body catches handler).
Proof.
  intros Hb Hh w r w' E. unfold try_except in E.
  destruct (body w) as [[a|e] w1] eqn:Eb.
  - injection E as _ <-. exact (Hb _ _ _ Eb).
  - destruct (catches e).
    + exact (untouched_trans _ _ _ _ (Hb _ _ _ Eb) (Hh e _ _ _ E)).
    + injection E as _ <-. exact (Hb _ _ _ Eb).
Qed.

Lemma confined_storage_op ps {A} (act : io A) :
  confined ps act -> confined ps (storage_op act).
Proof.
  intros Ha w r w' E. rewrite storage_op_eq in E.
  destruct (faults w (tick w)).
  - injection E as _ <-. apply untouched_bump.
  - exact (untouched_trans _ _ _ _ (untouched_bump ps w) (Ha _ _ _ E)).
Qed.

Lemma confined_zip_open_read ps p : confined ps (zip_open_read p).
Proof.
  apply confined_storage_op. intros w r w' E.
  destruct (files w !! p) as [[zf|bytes]|]; injection E as _ <-; apply untouched_refl.
Qed.

Lemma confined_zip_read ps zf name : confined ps (zip_read zf name).
Proof.
  apply confined_storage_op. intros w r w' E.
  destruct (getinfo zf name); injection E as _ <-; apply untouched_refl.
Qed.

Lemma confined_path_stat ps p : confined ps (path_stat p).
Proof.
  apply confined_storage_op. intros w r w' E.
  destruct (files w !! p); injection E as _ <-; apply untouched_refl.
Qed.

Lemma untouched_insert ps p f w :
  p ∈ ps -> untouched_outside ps w (set_files (insert p f) w).
Proof.
  intros Hp. repeat split. intros q Hq. cbn.
  apply lookup_insert_ne. intros ->. contradiction.
Qed.

Lemma confined_zip_open_write ps p : p ∈ ps -> confined ps (zip_open_write p).
Proof.
  intros Hp. apply confined_storage_op. intros w r w' [= _ <-].
  now apply untouched_insert.
Qed.

Lemma confined_zip_writestr ps p name data :
  p ∈ ps -> confined ps (zip_writestr p name data).
Proof.
  intros Hp. apply confined_storage_op. intros w r w' E.
  destruct (files w !! p) as [[zf|bytes]|]; injection E as _ <-;
    first [now apply untouched_insert | apply untouched_refl].
Qed.

Lemma confined_path_replace ps src dst :
  src ∈ ps -> dst ∈ ps -> confined ps (path_replace src dst).
Proof.
  intros Hs Hd. apply confined_storage_op. intros w r w' E.
  destruct (files w !! src) as [f|]; injection E as _ <-; [| apply untouched_refl].
  repeat split. intros q Hq. cbn.
  rewrite lookup_insert_ne by (intros ->; contradiction).
  apply lookup_delete_ne. intros ->. contradiction.
Qed.


Lemma confined_load_public_key ps name : confined ps (KeyManager.load_public_key name).
Proof.
  intros w r w' E. unfold KeyManager.load_public_key in E.
  destruct (keystore w !! name); injection E as _ <-; apply untouched_refl.
Qed.

Lemma confined_copy_members ps zf temp items :
  temp ∈ ps -> confined ps (copy_members zf temp items).
Proof.
  intros Ht. induction items as [|item items IH]; cbn [copy_members].
  - apply confined_ret.
  - apply confined_bind; [| intros _; exact IH].
    destruct (negb (String.eqb item MANIFEST_JSON)); [| apply confined_ret].
    apply confined_bind; [apply confined_zip_read |].
    intros data. now apply confined_zip_writestr.
Qed.

Lemma confined_replace_manifest out signed_json :
  confined [out; PyPath.with_suffix out ".epi.tmp"] (replace_manifest out signed_json).
Proof.
  unfold replace_manifest.
  set (temp := PyPath.with_suffix out ".epi.tmp").
  assert (Ho : out ∈ [out; temp]) by (apply elem_of_cons; now left).
  assert (Ht : temp ∈ [out; temp])
    by (apply elem_of_cons; right; apply elem_of_cons; now left).
  apply confined_bind; [apply confined_zip_open_read | intros zf_in].
  apply confined_bind; [now apply confined_zip_open_write | intros _].
  apply confined_bind; [now apply confined_copy_members | intros _].
  apply confined_bind; [now apply confined_zip_writestr | intros _].
  apply confined_bind; [apply confined_storage_op, confined_ret | intros _].
  now apply confined_path_replace.
Qed.

Lemma confined_mono ps ps' {A} (m : io A) :
  (forall q, q ∈ ps -> q ∈ ps') -> confined ps m -> confined ps' m.
Proof.
  intros Hsub Hm w r w' E. destruct (Hm _ _ _ E) as (Hk & Hf & H).
  repeat split; [exact Hk | exact Hf |]. intros q Hq. apply H. intros Hin.
  apply Hq, Hsub, Hin.
Qed.

Lemma confined_nil ps {A} (m : io A) : confined [] m -> confined ps m.
Proof. apply confined_mono. intros q Hq. inversion Hq. Qed.

Section Footprint.

Context {float : Type} (X : Externals float).

Lemma confined_read_manifest ps p : confined ps (EPIContainer.read_manifest X p).
Proof.
  unfold EPIContainer.read_manifest.
  apply confined_bind; [apply confined_zip_open_read | intros zf].
  destruct (getinfo zf MANIFEST_JSON) as [raw|]; [| apply confined_throw].
  destruct (model_validate_json X raw); [apply confined_ret | apply confined_throw].
Qed.

Lemma confined_verify_integrity ps p : confined ps (EPIContainer.verify_integrity X p).
Proof.
  unfold EPIContainer.verify_integrity.
  apply confined_bind; [apply confined_read_manifest | intros m].
  apply confined_bind; [apply confined_zip_open_read | intros zf].
  apply confined_ret.
Qed.

Lemma confined_verify_recording ps p : confined ps (_verify_recording X p).
Proof.
  unfold _verify_recording.
  apply confined_try; [| intros e; apply confined_ret].
  unfold verification_steps.
  apply confined_bind; [apply confined_read_manifest | intros m].
  apply confined_bind; [apply confined_verify_integrity | intros [ok mm]].
  destruct (negb ok); [apply confined_ret |].
  destruct (signature m) as [sig|]; [| apply confined_ret].
  apply confined_try; [| intros e; apply confined_ret].
  unfold check_signature.
  apply confined_bind; [apply confined_load_public_key | intros pk].
  apply confined_bind; [apply confined_lift | intros [valid msg]].
  destruct valid; apply confined_ret.
Qed.

Lemma confined_open_viewer ps p : confined ps (_open_viewer X p).
Proof.
  unfold _open_viewer.
  apply confined_try; [| intros e; apply confined_ret].
  apply confined_bind; [apply confined_zip_open_read | intros zf].
  destruct (existsb _ _); [apply confined_lift | apply confined_ret].
Qed.

Lemma confined_parse_metrics ps l : forall acc, confined ps (parse_metrics X l acc).
Proof.
  induction l as [|m rest IH]; intros acc; cbn [parse_metrics].
  - apply confined_ret.
  - destruct (PyStr.contains "=" m).
    + destruct (PyStr.split1 "=" m) as [[k v]|]; [| apply IH].
      destruct (float_of_str X v); apply IH.
    + apply confined_bind; [apply confined_console_print | intros _; apply IH].
Qed.

Lemma confined_run_metrics ps metric : confined ps (run_metrics X metric).
Proof.
  unfold run_metrics. destruct metric as [[|m l]|]; try apply confined_ret.
  apply confined_bind; [apply confined_parse_metrics | intros d; apply confined_ret].
Qed.



Lemma confined_verify_and_report ps out rc duration nv no :
  confined ps (verify_and_report X out rc duration nv no).
Proof.
  unfold verify_and_report.
  apply confined_bind.
  { destruct (negb nv); [apply confined_verify_recording | apply confined_ret]. }
  intros [verified msg].
  apply confined_bind.
  { destruct (negb no && (rc =? 0) && verified);
      [apply confined_open_viewer | apply confined_ret]. }
  intros opened.
  apply confined_bind; [apply confined_path_stat | intros st].
  apply confined_bind; [apply confined_console_print | intros _].
  destruct (negb (rc =? 0)); [apply confined_ret |].
  destruct (negb verified && negb nv); apply confined_ret.
Qed.



End Footprint.

(** X1: verification is read-only.  However [_verify_recording] ends, every
    file and the key store are what they were. *)
Theorem verify_recording_read_only {float} (X : Externals float)
    (p : string) (w : World) (r : result (bool * string)) (w' : World) :
  _verify_recording X p w = (r, w') ->
  files w' = files w /\ keystore w' = keystore w.
Proof.
  intros E. destruct (confined_verify_recording X [] p _ _ _ E) as (Hk & _ & Hf).
  split; [| exact Hk]. apply map_eq. intros q. apply Hf. intros H. inversion H.
Qed.

Lemma verify_recording_read_only_witness :
  let w := Demo.world (replace_member "stdout.log" (flip_byte 1 "X" "done") Demo.packed)
             Demo.default_keys Demo.no_faults in
  files (snd (_verify_recording Demo.externals Demo.out w)) = files w /\
  keystore (snd (_verify_recording Demo.externals Demo.out w)) = keystore w.
Proof.
  intros w.
  apply (verify_recording_read_only Demo.externals Demo.out w
           (fst (_verify_recording Demo.externals Demo.out w))).
  now destruct (_verify_recording Demo.externals Demo.out w).
Defined.


(** X3: the manifest rewrite writes to the archive and to its staging path
    only: however it ends, every other file and the key store are what they
    were. *)
Theorem replace_manifest_footprint (out signed_json : string) (w : World)
    (r : result unit) (w' : World) :
  replace_manifest out signed_json w = (r, w') ->
  keystore w' = keystore w /\
  forall q, q <> out -> q <> PyPath.with_suffix out ".epi.tmp" ->
            files w' !! q = files w !! q.
Proof.
  intros E. destruct (confined_replace_manifest out signed_json _ _ _ E) as (Hk & _ & Hf).
  split; [exact Hk |]. intros q H1 H2. apply Hf.
  intros Hin. apply elem_of_cons in Hin as [-> | Hin]; [contradiction |].
  apply elem_of_cons in Hin as [-> | Hin]; [contradiction | inversion Hin].
Qed.

Lemma replace_manifest_footprint_witness :
  let w := Demo.world Demo.packed Demo.default_keys Demo.no_faults in
  files (snd (replace_manifest Demo.out "{signed}" w)) !! "demo.py"
  = Some (Opaque "print(1)").
Proof.
  intros w.
  destruct (replace_manifest_footprint Demo.out "{signed}" w
              (fst (replace_manifest Demo.out "{signed}" w))
              (snd (replace_manifest Demo.out "{signed}" w))) as [_ H].
  - now destruct (replace_manifest Demo.out "{signed}" w).
  - rewrite H; [reflexivity | discriminate | vm_compute; discriminate].
Defined.



(** ** The shape of a re-signed archive *)

Lemma namelist_rewritten_members zf items :
  (forall item, item ∈ items -> item ∈ namelist zf) ->
  namelist (rewritten_members zf items)
  = List.filter (fun n => negb (String.eqb n MANIFEST_JSON)) items.
Proof.
  induction items as [|item items IH]; intros Hin; [reflexivity |].
  rewrite rewritten_members_cons. unfold namelist at 1. rewrite map_app.
  fold (namelist (rewritten_members zf items)).
  rewrite IH by (intros x Hx; apply Hin, elem_of_cons; now right).
  cbn [List.filter].
  destruct (String.eqb item MANIFEST_JSON); [reflexivity |].
  destruct (getinfo zf item) as [d|] eqn:Ed; [reflexivity |].
  apply getinfo_None in Ed. exfalso. apply Ed, Hin, elem_of_cons. now left.
Qed.

Lemma namelist_resigned zf signed_json :
  namelist (resigned_archive zf signed_json)
  = List.filter (fun n => negb (String.eqb n MANIFEST_JSON)) (namelist zf)
    ++ [MANIFEST_JSON].
Proof.
  unfold resigned_archive, namelist at 1. rewrite map_app.
  fold (namelist (rewritten_members zf (namelist zf))).
  now rewrite namelist_rewritten_members by auto.
Qed.

(** X5: a successful manifest rewrite leaves an archive that lists the other
    members in their original order, followed by exactly one [manifest.json]
    that holds the new text, whether the archive had one manifest member,
    several or none. *)
Theorem replace_manifest_listing (out signed_json : string) (w : World)
    (u : unit) (w' : World) :
  replace_manifest out signed_json w = (Ok u, w') ->
  exists zf zf',
    files w !! out = Some (ZipArchive zf) /\
    files w' !! out = Some (ZipArchive zf') /\
    namelist zf'
    = List.filter (fun n => negb (String.eqb n MANIFEST_JSON)) (namelist zf)
      ++ [MANIFEST_JSON] /\
    getinfo zf' MANIFEST_JSON = Some signed_json.
Proof.
  intros E. apply replace_manifest_ok in E as (zf & Hzf & Hzf' & _).
  exists zf, (resigned_archive zf signed_json).
  split; [exact Hzf |]. split; [exact Hzf' |].
  split; [apply namelist_resigned |]. now rewrite getinfo_resigned.
Qed.

Lemma replace_manifest_listing_witness :
  let doubled := ("manifest.json", "{stale}") :: Demo.packed in
  let w := Demo.world doubled Demo.default_keys Demo.no_faults in
  exists zf',
    files (snd (replace_manifest Demo.out "{signed}" w)) !! Demo.out
      = Some (ZipArchive zf') /\
    namelist zf' = ["steps.jsonl"; "env.json"; "stdout.log"; "stderr.log";
                    "viewer.html"; "manifest.json"].
Proof.
  intros doubled w.
  destruct (replace_manifest_listing Demo.out "{signed}" w tt
              (snd (replace_manifest Demo.out "{signed}" w)))
    as (zf & zf' & Hzf & Hzf' & Hnames & _).
  - vm_compute. reflexivity.
  - exists zf'. split; [exact Hzf' |]. rewrite Hnames.
    vm_compute in Hzf. injection Hzf as <-. reflexivity.
Defined.

Lemma filter_untracked_skips_manifest {float} (m : ManifestModel float) (l : list string) :
  List.filter (EPIContainer.untracked m)
    (List.filter (fun n => negb (String.eqb n MANIFEST_JSON)) l)
  = List.filter (EPIContainer.untracked m) l.
Proof.
  induction l as [|n l IH]; [reflexivity |]. cbn [List.filter].
  unfold EPIContainer.untracked at 2.
  destruct (String.eqb n MANIFEST_JSON) eqn:En; cbn [negb andb]; [exact IH |].
  cbn [List.filter]. unfold EPIContainer.untracked at 1. rewrite En. cbn [negb andb].
  destruct (negb (existsb (String.eqb n) (map fst (digests m)))); [now rewrite IH | exact IH].
Qed.

Lemma report_after_resign {float} (X : Externals float)
    (zf : zip_entries) (signed_json : string) (m m' : ManifestModel float) :
  digests m' = digests m ->
  MANIFEST_JSON ∉ map fst (digests m) ->
  EPIContainer.integrity_report X (resigned_archive zf signed_json) m'
  = EPIContainer.integrity_report X zf m.
Proof.
  intros Hd Hm. unfold EPIContainer.integrity_report. rewrite Hd. f_equal.
  - f_equal. apply filter_ext_in. intros [n h] Hin.
    unfold EPIContainer.tracked_mismatch. cbn [fst snd].
    rewrite getinfo_resigned.
    destruct (String.eqb_spec n MANIFEST_JSON) as [-> | _]; [| reflexivity].
    exfalso. apply Hm. apply list_elem_of_In, in_map_iff.
    now exists (MANIFEST_JSON, h).
  - rewrite namelist_resigned, List.filter_app.
    assert (EPIContainer.untracked m' = EPIContainer.untracked m) as ->
      by (unfold EPIContainer.untracked; now rewrite Hd).
    rewrite filter_untracked_skips_manifest. cbn [List.filter].
    unfold EPIContainer.untracked at 2. rewrite String.eqb_refl. cbn [negb andb].
    apply app_nil_r.
Qed.

(** X6: re-signing does not disturb the integrity check.  When the new
    manifest records the same digests as the old one, and the manifest itself
    is not among the tracked names, the integrity report of the rewritten
    archive is the report of the original, entry for entry. *)
Theorem integrity_report_resigned {float} (X : Externals float)
    (zf : zip_entries) (signed_json : string) (m m' : ManifestModel float) :
  digests m' = digests m ->
  MANIFEST_JSON ∉ map fst (digests m) ->
  EPIContainer.integrity_report X (resigned_archive zf signed_json) m'
  = EPIContainer.integrity_report X zf m.
Proof. apply report_after_resign. Qed.

Lemma integrity_report_resigned_witness :
  EPIContainer.integrity_report Demo.externals
    (resigned_archive Demo.packed
       (Demo.model_dump_json (Demo.signed_by "k-default" "default")))
    (Demo.signed_by "k-default" "default")
  = EPIContainer.integrity_report Demo.externals Demo.packed Demo.sealed.
Proof.
  apply (integrity_report_resigned Demo.externals).
  - reflexivity.
  - apply (bool_decide_eq_true_1 _). vm_compute. reflexivity.
Defined.

(** ** The auto-sign step, case by case *)

Lemma fault_free_bump w : fault_free w -> fault_free (bump w).
Proof. intros H n. apply H. Qed.

(** X7: without a usable default private key (no key pair of that name, or
    one whose private half is absent) the auto-sign step does nothing at all:
    it yields [signed = False] and the machine is exactly as before. *)
Theorem auto_sign_without_key {float} (X : Externals float) (out : string) (w : World) :
  keystore w !! "default" ≫= private_key = None ->
  auto_sign X out w = (Ok false, w).
Proof.
  intros Hk. unfold auto_sign, try_except, bind, sign_in_place, bind,
    KeyManager.load_private_key.
  destruct (keystore w !! "default") as [[[k|] pk]|]; [discriminate Hk | |]; reflexivity.
Qed.

Lemma auto_sign_without_key_witness :
  let public_only : gmap string KeyPair :=
    {[ "default" := {| private_key := None; public_key := "k-default" |} ]} in
  let w := Demo.world Demo.packed public_only Demo.no_faults in
  auto_sign Demo.externals Demo.out w = (Ok false, w).
Proof.
  intros public_only w.
  apply (auto_sign_without_key Demo.externals Demo.out w). reflexivity.
Defined.

Lemma auto_sign_success {float} (X : Externals float) (out : string) (w : World)
    (kp : KeyPair) (priv : string) (zf : zip_entries) (raw : string)
    (m sm : ManifestModel float) :
  fault_free w ->
  keystore w !! "default" = Some kp ->
  private_key kp = Some priv ->
  files w !! out = Some (ZipArchive zf) ->
  getinfo zf MANIFEST_JSON = Some raw ->
  model_validate_json X raw = Ok m ->
  sign_manifest X m priv "default" = Ok sm ->
  exists w',
    auto_sign X out w = (Ok true, w') /\
    files w' !! out = Some (ZipArchive (resigned_archive zf (model_dump_json X sm))) /\
    files w' !! PyPath.with_suffix out ".epi.tmp" = None /\
    keystore w' = keystore w /\ fault_free w'.
Proof.
  intros Hf Hkp Hpriv Hzf Hraw Hm Hsm.
  assert (Hsign : exists w', sign_in_place X out w = (Ok tt, w') /\
            replace_manifest out (model_dump_json X sm) (bump (bump w)) = (Ok tt, w')).
  { unfold sign_in_place. unfold bind at 1, KeyManager.load_private_key.
    rewrite Hkp. destruct kp as [pk pub]. cbn in Hpriv. subst pk.
    unfold bind at 1, zip_open_read. rewrite (storage_op_free _ _ Hf).
    cbn [files bump]. rewrite Hzf.
    unfold bind at 1, zip_read.
    rewrite storage_op_free by (apply fault_free_bump, Hf). rewrite Hraw.
    unfold bind at 1, lift. rewrite Hm. unfold bind at 1. rewrite Hsm.
    destruct (replace_manifest_progress out (model_dump_json X sm) (bump (bump w)) zf)
      as (w' & E & _); [apply fault_free_bump, fault_free_bump, Hf | exact Hzf |].
    exists w'. now split. }
  destruct Hsign as (w' & Es & Er).
  exists w'. split.
  { unfold auto_sign, try_except, bind. now rewrite Es. }
  destruct (replace_manifest_ok _ _ _ _ _ Er) as (zf0 & Hzf0 & Hnew & Htmp).
  cbn [files bump] in Hzf0. rewrite Hzf in Hzf0. injection Hzf0 as <-.
  split; [exact Hnew |]. split; [exact Htmp |].
  destruct (confined_replace_manifest _ _ _ _ _ Er) as (Hk & Hfa & _).
  split; [exact Hk |]. intros n. rewrite Hfa. apply Hf.
Qed.

(** X8: with a default private key, an archive whose manifest decodes, a
    signing call that succeeds and a storage layer that raises nothing, the
    auto-sign step yields [signed = True]; the output path then holds the
    original archive with its manifest replaced by the serialized signed
    manifest, the staging path is gone, and the key store and the fault plan
    are unchanged. *)
Theorem auto_sign_signs {float} (X : Externals float) (out : string) (w : World)
    (kp : KeyPair) (priv : string) (zf : zip_entries) (raw : string)
    (m sm : ManifestModel float) :
  fault_free w ->
  keystore w !! "default" = Some kp ->
  private_key kp = Some priv ->
  files w !! out = Some (ZipArchive zf) ->
  getinfo zf MANIFEST_JSON = Some raw ->
  model_validate_json X raw = Ok m ->
  sign_manifest X m priv "default" = Ok sm ->
  exists w',
    auto_sign X out w = (Ok true, w') /\
    files w' !! out = Some (ZipArchive (resigned_archive zf (model_dump_json X sm))) /\
    files w' !! PyPath.with_suffix out ".epi.tmp" = None /\
    keystore w' = keystore w /\ fault_free w'.
Proof. apply auto_sign_success. Qed.

Lemma auto_sign_signs_witness :
  let w := Demo.world Demo.packed Demo.default_keys Demo.no_faults in
  exists w',
    auto_sign Demo.externals Demo.out w = (Ok true, w') /\
    files w' !! Demo.out
    = Some (ZipArchive (Demo.archive_signed_by "k-default" "default")).
Proof.
  intros w.
  destruct (auto_sign_signs Demo.externals Demo.out w
              {| private_key := Some "k-default"; public_key := "k-default" |}
              "k-default" Demo.packed "{unsigned}" Demo.sealed
              (Demo.signed_by "k-default" "default"))
    as (w' & E & Hout & _); try reflexivity.
  - intros n. reflexivity.
  - exists w'. split; [exact E | exact Hout].
Defined.

Lemma sign_then_verify {float} (X : Externals float)
    (source : zip_entries) (template : ManifestModel float) (out : string)
    (w : World) (kp : KeyPair) (priv : string) (sm : ManifestModel float)
    (sig : SignatureBlock) (msg : string) :
  NoDup (namelist (EPIContainer.archived_entries X source)) ->
  MANIFEST_JSON ∉ namelist (EPIContainer.archived_entries X source) ->
  model_validate_json X (model_dump_json X (EPIContainer.sealed_manifest X source template))
    = Ok (EPIContainer.sealed_manifest X source template) ->
  sign_manifest X (EPIContainer.sealed_manifest X source template) priv "default" = Ok sm ->
  model_validate_json X (model_dump_json X sm) = Ok sm ->
  digests sm = digests (EPIContainer.sealed_manifest X source template) ->
  signature sm = Some sig ->
  get_signer_name sig = "default" ->
  keystore w !! "default" = Some kp ->
  private_key kp = Some priv ->
  verify_signature X sm (public_key kp) = Ok (true, msg) ->
  fault_free w ->
  files w !! out = Some (ZipArchive (EPIContainer.packed_archive X source template)) ->
  exists w1 w2,
    auto_sign X out w = (Ok true, w1) /\
    _verify_recording X out w1 = (Ok (true, "OK (signed & verified)"), w2) /\
    files w1 !! out
    = Some (ZipArchive (resigned_archive (EPIContainer.packed_archive X source template)
                          (model_dump_json X sm))) /\
    keystore w1 = keystore w /\ fault_free w1.
Proof.
  intros Hnd Hres Hcodec Hsign Hcodec' Hdig Hsig Hname Hkp Hpriv Hver Hf Hzf.
  destruct (auto_sign_success X out w kp priv _ _ _ sm Hf Hkp Hpriv Hzf
              (getinfo_packed_manifest X source template) Hcodec Hsign)
    as (w1 & Es & Hout & _ & Hk1 & Hf1).
  exists w1.
  set (zf' := resigned_archive (EPIContainer.packed_archive X source template)
                (model_dump_json X sm)) in *.
  assert (Hman : getinfo zf' MANIFEST_JSON = Some (model_dump_json X sm))
    by (unfold zf'; now rewrite getinfo_resigned).
  assert (Hread : EPIContainer.read_manifest X out w1 = (Ok sm, bump w1)).
  { unfold EPIContainer.read_manifest, bind, zip_open_read.
    rewrite (storage_op_free _ _ Hf1). cbn [files bump].
    now rewrite Hout, Hman, Hcodec'. }
  assert (Hint : EPIContainer.verify_integrity X out (bump w1)
                 = (Ok (true, []), bump (bump (bump w1)))).
  { rewrite (verify_integrity_run X out (bump w1) zf' _ sm
               (fault_free_bump _ Hf1) Hout Hman Hcodec').
    unfold zf'. rewrite (report_after_resign X _ _ _ sm Hdig).
    - now rewrite (report_packed X source template Hnd Hres).
    - now rewrite (sealed_digest_names X source template). }
  exists (bump (bump (bump w1))). split; [exact Es |].
  split; [| now repeat split].
  rewrite (verify_recording_of_steps X out w1 (Ok (true, "OK (signed & verified)"))
             (bump (bump (bump w1)))); [reflexivity |].
  rewrite (verification_steps_signed X out w1 sm _ [] _ sig Hread Hint Hsig).
  apply try_except_ok.
  unfold check_signature, bind, KeyManager.load_public_key, lift.
  rewrite Hname. cbn [str_or keystore bump]. rewrite Hk1, Hkp, Hver. reflexivity.
Qed.

(** X9: pack, sign, verify.  Take an archive as [pack] writes it, for entries
    with distinct names none of which is [manifest.json]; a codec that reads
    back the sealed and the signed manifest; a signing call that keeps the
    digests and names the signer [default]; and a trust layer that accepts
    the signature under the default public key.  Then, on fault-free
    storage, the auto-sign step signs and the verification that follows
    answers [(True, "OK (signed & verified)")]. *)
Theorem pack_sign_verify {float} (X : Externals float)
    (source : zip_entries) (template : ManifestModel float) (out : string)
    (w : World) (kp : KeyPair) (priv : string) (sm : ManifestModel float)
    (sig : SignatureBlock) (msg : string) :
  NoDup (namelist (EPIContainer.archived_entries X source)) ->
  MANIFEST_JSON ∉ namelist (EPIContainer.archived_entries X source) ->
  model_validate_json X (model_dump_json X (EPIContainer.sealed_manifest X source template))
    = Ok (EPIContainer.sealed_manifest X source template) ->
  sign_manifest X (EPIContainer.sealed_manifest X source template) priv "default" = Ok sm ->
  model_validate_json X (model_dump_json X sm) = Ok sm ->
  digests sm = digests (EPIContainer.sealed_manifest X source template) ->
  signature sm = Some sig ->
  get_signer_name sig = "default" ->
  keystore w !! "default" = Some kp ->
  private_key kp = Some priv ->
  verify_signature X sm (public_key kp) = Ok (true, msg) ->
  fault_free w ->
  files w !! out = Some (ZipArchive (EPIContainer.packed_archive X source template)) ->
  exists w1 w2,
    auto_sign X out w = (Ok true, w1) /\
    _verify_recording X out w1 = (Ok (true, "OK (signed & verified)"), w2).
Proof.
  intros Hnd Hres Hcodec Hsign Hcodec' Hdig Hsig Hname Hkp Hpriv Hver Hf Hzf.
  destruct (sign_then_verify X source template out w kp priv sm sig msg)
    as (w1 & w2 & Es & Ev & _); auto.
  now exists w1, w2.
Qed.

Lemma pack_sign_verify_witness :
  let w := Demo.world Demo.packed Demo.default_keys Demo.no_faults in
  exists w1 w2,
    auto_sign Demo.externals Demo.out w = (Ok true, w1) /\
    _verify_recording Demo.externals Demo.out w1
    = (Ok (true, "OK (signed & verified)"), w2).
Proof.
  intros w.
  apply (pack_sign_verify Demo.externals Demo.workspace Demo.template Demo.out w
           {| private_key := Some "k-default"; public_key := "k-default" |}
           "k-default" (Demo.signed_by "k-default" "default")
           {| signer := "default"; algorithm := "ed25519";
              signature_bytes := Demo.digest ("k-default" +:+ "/usr/bin/python3 demo.py");
              signed_at := "20251121_231502" |}
           "Signature valid"); try reflexivity.
  - apply (bool_decide_eq_true_1 _). vm_compute. reflexivity.
  - apply (bool_decide_eq_true_1 _). vm_compute. reflexivity.
  - intros n. reflexivity.
Defined.


(** ** More on metrics *)

Lemma metric_keys_cons m l :
  metric_keys (m :: l) =
  match PyStr.split1 "=" m with
  | Some (k, _) => k :: metric_keys l
  | None => metric_keys l
  end.
Proof. unfold metric_keys. cbn. now destruct (PyStr.split1 "=" m) as [[k v]|]. Qed.

Lemma metric_keys_app l1 l2 : metric_keys (l1 ++ l2) = metric_keys l1 ++ metric_keys l2.
Proof.
  induction l1 as [|m l1 IH]; [reflexivity |].
  rewrite <- app_comm_cons, !metric_keys_cons, IH.
  now destruct (PyStr.split1 "=" m) as [[k v]|].
Qed.

Lemma no_metric_for_keys key l : no_metric_for key l <-> key ∉ metric_keys l.
Proof.
  induction l as [|m l IH].
  - split; [intros _ H; inversion H | intros _ m v H; inversion H].
  - rewrite metric_keys_cons. split.
    + intros Hno.
      assert (Hl : no_metric_for key l)
        by (intros m' v' Hm'; apply Hno, elem_of_cons; now right).
      apply IH in Hl.
      destruct (PyStr.split1 "=" m) as [[k v]|] eqn:Es; [| exact Hl].
      apply not_elem_of_cons. split; [| exact Hl]. intros ->.
      apply (Hno m v); [apply elem_of_cons; now left | exact Es].
    + intros Hnin m' v' Hm' Es'.
      apply elem_of_cons in Hm' as [-> | Hm'].
      * rewrite Es' in Hnin. apply Hnin, elem_of_cons. now left.
      * assert (Hl : key ∉ metric_keys l).
        { destruct (PyStr.split1 "=" m) as [[k v]|]; [| exact Hnin].
          now apply not_elem_of_cons in Hnin as [_ ?]. }
        apply IH in Hl. exact (Hl m' v' Hm' Es').
Qed.

Lemma run_metrics_some {float} (X : Externals float) (l : list string) (w : World) :
  l <> [] ->
  exists d w',
    run_metrics X (Some l) w = (Ok (Some d), w') /\
    console w' = console w ++ metric_warnings l /\
    (forall m value key,
       m ∈ l -> PyStr.split1 "=" m = Some (key, value) ->
       (forall before after, l = before ++ m :: after -> no_metric_for key after) ->
       d !! key = Some (metric_of X value)) /\
    (forall key, no_metric_for key l -> d !! key = None).
Proof.
  intros Hl. destruct l as [|m0 l]; [contradiction |].
  destruct (parse_metrics_spec X (m0 :: l) ∅ w) as (d & w' & E & Hcon & Hno & Hlast).
  exists d, w'. split; [unfold run_metrics, bind; now rewrite E |].
  split; [exact Hcon |]. split.
  - intros m value key Hm Hs Hafter.
    apply list_elem_of_split in Hm as (before & after & Hl').
    exact (Hlast before m after key value Hl' Hs (Hafter before after Hl')).
  - intros key Hkey. now rewrite (Hno key Hkey).
Qed.

(** X10: when every [--metric] argument lacks an [=], the [metrics] field is
    the empty dictionary, not [None], and one warning per argument is
    printed. *)
Theorem run_metrics_all_malformed {float} (X : Externals float)
    (l : list string) (w : World) :
  l <> [] ->
  (forall m, m ∈ l -> PyStr.contains "=" m = false) ->
  exists w',
    run_metrics X (Some l) w = (Ok (Some ∅), w') /\
    console w' = console w ++ metric_warnings l /\
    length (metric_warnings l) = length l.
Proof.
  intros Hl Hbad.
  destruct (run_metrics_some X l w Hl) as (d & w' & E & Hcon & _ & Hnone).
  exists w'. split; [| split; [exact Hcon |]].
  - rewrite E. do 3 f_equal. apply map_eq. intros key. rewrite lookup_empty.
    apply Hnone. intros m v Hm Hs.
    apply Hbad, contains_split1 in Hm. congruence.
  - unfold metric_warnings. rewrite length_map. clear -Hbad.
    induction l as [|m l IH]; [reflexivity |]. cbn [List.filter].
    rewrite (Hbad m) by (apply elem_of_cons; now left). cbn. f_equal.
    apply IH. intros m' Hm'. apply Hbad, elem_of_cons. now right.
Qed.

Lemma run_metrics_all_malformed_witness :
  exists w',
    run_metrics Demo.externals (Some ["accuracy"; "latency 210"]) Demo.machine
    = (Ok (Some ∅), w') /\
    length (console w') = 2%nat.
Proof.
  destruct (run_metrics_all_malformed Demo.externals ["accuracy"; "latency 210"]
              Demo.machine) as (w' & E & Hcon & Hlen); [discriminate | |].
  - intros m Hm. apply list_elem_of_In in Hm.
    destruct Hm as [<- | [<- | []]]; reflexivity.
  - exists w'. split; [exact E |]. rewrite Hcon, length_app, Hlen. reflexivity.
Defined.

(** X11: the dictionary binds a key exactly when some argument names it, and
    then to the value of the last such argument; so when no key is repeated,
    the order of the [--metric] arguments does not matter for the
    dictionary. *)
Theorem run_metrics_order {float} (X : Externals float)
    (l l' : list string) (w w' : World) :
  l ≡ₚ l' -> NoDup (metric_keys l) -> l <> [] ->
  exists d w1 w1',
    run_metrics X (Some l) w = (Ok (Some d), w1) /\
    run_metrics X (Some l') w' = (Ok (Some d), w1').
Proof.
  intros Hp Hnd Hl.
  assert (Hl' : l' <> []) by (intros ->; apply Permutation_nil_r in Hp; contradiction).
  assert (Hpk : metric_keys l ≡ₚ metric_keys l')
    by (unfold metric_keys; now apply omap_Permutation).
  assert (Hnd' : NoDup (metric_keys l')) by (now rewrite <- Hpk).
  destruct (run_metrics_some X l w Hl) as (d & w1 & E & _ & Hlast & Hnone).
  destruct (run_metrics_some X l' w' Hl') as (d' & w1' & E' & _ & Hlast' & Hnone').
  exists d, w1, w1'. split; [exact E |]. rewrite E'. do 3 f_equal.
  apply map_eq. intros key.
  assert (Hafter : forall l0 m value,
            NoDup (metric_keys l0) -> PyStr.split1 "=" m = Some (key, value) ->
            forall before after, l0 = before ++ m :: after -> no_metric_for key after).
  { intros l0 m value Hnd0 Hs before after ->.
    apply no_metric_for_keys.
    rewrite metric_keys_app, metric_keys_cons, Hs in Hnd0.
    apply NoDup_app in Hnd0 as (_ & _ & Hnd0).
    now apply NoDup_cons in Hnd0 as [? _]. }
  destruct (decide (key ∈ metric_keys l)) as [Hin | Hout].
  - unfold metric_keys in Hin. apply list_elem_of_omap in Hin as (m & Hm & Hs).
    destruct (PyStr.split1 "=" m) as [[k value]|] eqn:Es; [| discriminate Hs].
    cbn in Hs. injection Hs as ->.
    rewrite (Hlast m value key Hm Es (Hafter l m value Hnd Es)).
    rewrite (Hlast' m value key); [reflexivity | | exact Es | exact (Hafter l' m value Hnd' Es)].
    now rewrite <- Hp.
  - rewrite (Hnone' key), (Hnone key); [reflexivity | |].
    + now apply no_metric_for_keys.
    + apply no_metric_for_keys. now rewrite <- Hpk.
Qed.

Lemma run_metrics_order_witness :
  exists d w1 w1',
    run_metrics Demo.externals (Some ["a=1"; "bad"; "b=x"]) Demo.machine
    = (Ok (Some d), w1) /\
    run_metrics Demo.externals (Some ["b=x"; "a=1"; "bad"]) Demo.machine
    = (Ok (Some d), w1').
Proof.
  apply (run_metrics_order Demo.externals).
  - change ["b=x"; "a=1"; "bad"] with (["b=x"] ++ ["a=1"; "bad"]).
    change ["a=1"; "bad"; "b=x"] with (["a=1"; "bad"] ++ ["b=x"]).
    apply Permutation_app_comm.
  - apply (bool_decide_eq_true_1 _). vm_compute. reflexivity.
  - discriminate.
Defined.

(** ** Command normalisation and generated names *)

(** X12: normalising a command twice is the same as normalising it once,
    provided the interpreter path does not itself end in [.py]. *)
Theorem ensure_python_command_idempotent (sys_executable : string) (cmd : list string) :
  ~ ends_with_py_ci sys_executable ->
  _ensure_python_command sys_executable (_ensure_python_command sys_executable cmd)
  = _ensure_python_command sys_executable cmd.
Proof.
  intros Hexe. destruct cmd as [|first rest]; [reflexivity |].
  assert (Hx : PyStr.endswith (PyStr.lower sys_executable) ".py" = false).
  { destruct (PyStr.endswith (PyStr.lower sys_executable) ".py") eqn:E; [| reflexivity].
    apply endswith_lower_py in E. contradiction. }
  unfold _ensure_python_command.
  destruct (PyStr.endswith (PyStr.lower first) ".py") eqn:E.
  - cbn [app]. now rewrite Hx.
  - now rewrite E.
Qed.

Lemma ensure_python_command_idempotent_witness :
  _ensure_python_command "/usr/bin/python3"
    (_ensure_python_command "/usr/bin/python3" ["train.py"])
  = ["/usr/bin/python3"; "train.py"].
Proof.
  rewrite (ensure_python_command_idempotent "/usr/bin/python3" ["train.py"]).
  - reflexivity.
  - intros H. apply endswith_lower_py in H. vm_compute in H. discriminate H.
Defined.

Lemma contains_app c a b :
  PyStr.contains c (a +:+ b) = PyStr.contains c a || PyStr.contains c b.
Proof.
  induction a as [|x a IH]; sapp; [reflexivity |]. cbn. rewrite IH.
  now rewrite orb_assoc.
Qed.

Lemma rsplit_None c s : PyStr.contains c s = false -> PyStr.rsplit c s = None.
Proof.
  induction s as [|d s IH]; [reflexivity |]. cbn. intros H.
  apply orb_false_iff in H as [Hd Hs]. now rewrite (IH Hs), Hd.
Qed.

Lemma rsplit_None_inv c s : PyStr.rsplit c s = None -> PyStr.contains c s = false.
Proof.
  induction s as [|d s IH]; [reflexivity |]. cbn.
  destruct (PyStr.rsplit c s) as [[a b]|]; [discriminate |].
  destruct (Ascii.eqb d c); [discriminate |]. intros _. now apply IH.
Qed.

Lemma rsplit_last c a r :
  PyStr.contains c r = false ->
  PyStr.rsplit c (a +:+ String c r) = Some (a, String c r).
Proof.
  intros Hr. induction a as [|x a IH]; sapp.
  - cbn. now rewrite (rsplit_None c r Hr), Ascii.eqb_refl.
  - cbn [PyStr.rsplit]. now rewrite IH.
Qed.

Lemma name_no_separator p : PyStr.contains "/" (PyPath.name p) = false.
Proof.
  unfold PyPath.name, PyPath.split_name.
  destruct (PyStr.rsplit "/" p) as [[a b]|] eqn:E.
  - destruct (rsplit_spec _ _ _ _ E) as [_ (r & -> & Hr)]. exact Hr.
  - cbn. now apply rsplit_None_inv.
Qed.

Lemma stem_no_separator p : PyStr.contains "/" (PyPath.stem p) = false.
Proof.
  unfold PyPath.stem. pose proof (name_no_separator p) as Hn.
  destruct (split_suffix_spec (PyPath.name p)) as [Hsplit _].
  rewrite Hsplit, contains_app in Hn. now apply orb_false_iff in Hn as [? _].
Qed.

(** The pieces of a generated name. *)
Lemma gen_auto_name_parts {float} (X : Externals float) (script_path : string) :
  PyStr.contains "/" (utcnow_stamp X) = false ->
  exists base,
    _gen_auto_name X script_path
    = "epi-recordings/" +:+ (base +:+ "_" +:+ utcnow_stamp X) +:+ ".epi" /\
    PyPath.split_name (_gen_auto_name X script_path)
    = ("epi-recordings/", (base +:+ "_" +:+ utcnow_stamp X) +:+ ".epi") /\
    PyPath.split_suffix ((base +:+ "_" +:+ utcnow_stamp X) +:+ ".epi")
    = (base +:+ "_" +:+ utcnow_stamp X, ".epi").
Proof.
  intros Hts. unfold _gen_auto_name.
  set (base := if String.eqb (PyPath.name script_path) "-" then "recording"
               else PyPath.stem script_path).
  assert (Hbase : PyStr.contains "/" base = false).
  { unfold base. destruct (String.eqb _ _); [reflexivity | apply stem_no_separator]. }
  exists base. set (ts := utcnow_stamp X) in *.
  assert (Hname : PyStr.contains "/" ((base +:+ "_" +:+ ts) +:+ ".epi") = false).
  { rewrite !contains_app, Hbase, Hts. reflexivity. }
  split; [| split].
  - unfold DEFAULT_DIR. now rewrite !string_app_assoc.
  - unfold PyPath.split_name, DEFAULT_DIR.
    replace ("epi-recordings" +:+ "/" +:+ base +:+ "_" +:+ ts +:+ ".epi")
      with ("epi-recordings" +:+ String "/" ((base +:+ "_" +:+ ts) +:+ ".epi"))
      by (now rewrite !string_app_assoc).
    now rewrite (rsplit_last "/" "epi-recordings" _ Hname).
  - unfold PyPath.split_suffix.
    change ".epi" with (String "." "epi").
    rewrite (rsplit_last "." (base +:+ "_" +:+ ts) "epi" eq_refl).
    destruct base as [|c base]; reflexivity.
Qed.

(** X13: for a generated archive name, with a timestamp that has no path
    separator in it, the staging path of the re-sign is the archive path
    followed by [.tmp], hence a file in the same directory, and the
    name shown after "Open with" ends in [.epi]. *)
Theorem gen_auto_name_staging {float} (X : Externals float) (script_path : string) :
  PyStr.contains "/" (utcnow_stamp X) = false ->
  PyPath.with_suffix (_gen_auto_name X script_path) ".epi.tmp"
  = _gen_auto_name X script_path +:+ ".tmp" /\
  _gen_auto_name X script_path
  = "epi-recordings/" +:+ PyPath.name (_gen_auto_name X script_path) /\
  PyStr.endswith (PyPath.name (_gen_auto_name X script_path)) ".epi" = true.
Proof.
  intros Hts.
  destruct (gen_auto_name_parts X script_path Hts) as (base & Hout & Hname & Hsuf).
  unfold PyPath.with_suffix, PyPath.name. rewrite Hname, Hsuf. cbn [fst snd].
  split; [| split].
  - rewrite Hout. now rewrite !string_app_assoc.
  - exact Hout.
  - generalize (base +:+ "_" +:+ utcnow_stamp X). intros s.
    induction s as [|c s IH]; [reflexivity |]. sapp.
    cbn [PyStr.endswith]. rewrite IH. apply orb_true_r.
Qed.

Lemma gen_auto_name_staging_witness :
  PyPath.with_suffix (_gen_auto_name Demo.externals "experiments/my.train.py") ".epi.tmp"
  = "epi-recordings/my.train_20251121_231501.epi.tmp".
Proof.
  rewrite (proj1 (gen_auto_name_staging Demo.externals "experiments/my.train.py" eq_refl)).
  reflexivity.
Defined.

(** ** The [keys] command *)





(** ** The environment of the child process *)

Lemma build_env_effects (os_environ : gmap string string)
    (bootstrap_dir project_root sep steps_dir : string) (enable_redaction : bool)
    (w : World) (env : gmap string string) (w' : World) :
  _build_env_for_child os_environ bootstrap_dir project_root sep steps_dir
    enable_redaction w = (Ok env, w') ->
  env !! "EPI_RECORD" = Some "1" /\
  env !! "EPI_STEPS_DIR" = Some steps_dir /\
  env !! "EPI_REDACT" = Some (if enable_redaction then "1" else "0") /\
  env !! "PYTHONPATH"
  = Some (bootstrap_dir +:+ sep +:+ project_root +:+
          match os_environ !! "PYTHONPATH" with
          | None | Some EmptyString => EmptyString
          | Some existing => sep +:+ existing
          end) /\
  (forall k, k <> "EPI_RECORD" -> k <> "EPI_STEPS_DIR" -> k <> "EPI_REDACT" ->
             k <> "PYTHONPATH" -> env !! k = os_environ !! k) /\
  (forall q, q <> bootstrap_dir +:+ "/sitecustomize.py" ->
             files w' !! q = files w !! q).
Proof.
  unfold _build_env_for_child. intros E.
  apply bind_ok in E as (u & w1 & Ew & E). unfold ret in E. injection E as <- <-.
  split; [| split; [| split; [| split; [| split]]]].
  - repeat (rewrite lookup_insert_ne by discriminate). apply lookup_insert_eq.
  - repeat (rewrite lookup_insert_ne by discriminate). apply lookup_insert_eq.
  - repeat (rewrite lookup_insert_ne by discriminate). apply lookup_insert_eq.
  - rewrite lookup_insert_eq.
    repeat (rewrite lookup_insert_ne by discriminate).
    now destruct (os_environ !! "PYTHONPATH") as [[|c e]|].
  - intros k H1 H2 H3 H4. now rewrite !lookup_insert_ne by congruence.
  - intros q Hq. apply storage_op_ok in Ew. injection Ew as _ <-. cbn.
    now apply lookup_insert_ne.
Qed.

(** X15: the environment built for the child sets [EPI_RECORD] to [1],
    [EPI_STEPS_DIR] to the steps directory and [EPI_REDACT] to [1] or [0];
    its [PYTHONPATH] starts with the bootstrap directory and the project
    root and goes on with the inherited value when that is set and not
    empty, without a trailing separator otherwise; every other variable is
    inherited as it is; and the only file written is [sitecustomize.py] in
    the bootstrap directory. *)
Theorem build_env_for_child_spec (os_environ : gmap string string)
    (bootstrap_dir project_root sep steps_dir : string) (enable_redaction : bool)
    (w : World) (env : gmap string string) (w' : World) :
  _build_env_for_child os_environ bootstrap_dir project_root sep steps_dir
    enable_redaction w = (Ok env, w') ->
  env !! "EPI_RECORD" = Some "1" /\
  env !! "EPI_STEPS_DIR" = Some steps_dir /\
  env !! "EPI_REDACT" = Some (if enable_redaction then "1" else "0") /\
  env !! "PYTHONPATH"
  = Some (bootstrap_dir +:+ sep +:+ project_root +:+
          match os_environ !! "PYTHONPATH" with
          | None | Some EmptyString => EmptyString
          | Some existing => sep +:+ existing
          end) /\
  (forall k, k <> "EPI_RECORD" -> k <> "EPI_STEPS_DIR" -> k <> "EPI_REDACT" ->
             k <> "PYTHONPATH" -> env !! k = os_environ !! k) /\
  (forall q, q <> bootstrap_dir +:+ "/sitecustomize.py" ->
             files w' !! q = files w !! q).
Proof. apply build_env_effects. Qed.

Lemma build_env_for_child_spec_witness :
  let parent : gmap string string :=
    {[ "HOME" := "/home/dev"; "PYTHONPATH" := "/opt/lib"; "EPI_REDACT" := "0" ]} in
  exists env w',
    _build_env_for_child parent "/tmp/epi_bootstrap_x" "/srv/epi" ":" "/tmp/epi_record_y"
      true Demo.machine = (Ok env, w') /\
    env !! "PYTHONPATH" = Some "/tmp/epi_bootstrap_x:/srv/epi:/opt/lib" /\
    env !! "EPI_REDACT" = Some "1" /\
    env !! "HOME" = Some "/home/dev".
Proof.
  intros parent.
  set (res := _build_env_for_child parent "/tmp/epi_bootstrap_x" "/srv/epi" ":"
                "/tmp/epi_record_y" true Demo.machine).
  assert (E : res = (Ok (match fst res with Ok e => e | Raise _ => ∅ end), snd res))
    by (vm_compute; reflexivity).
  unfold res in E at 1.
  destruct (build_env_for_child_spec _ _ _ _ _ _ _ _ _ E)
    as (_ & _ & Hred & Hpath & Hother & _).
  eexists _, _. split; [exact E |]. split; [| split].
  - rewrite Hpath. reflexivity.
  - exact Hred.
  - rewrite Hother by discriminate. reflexivity.
Defined.

(** ** Python text: replacing and counting *)

Section TextFacts.

Context {A : Type} `{EqDecision A}.

Implicit Types (p old new s : list A).

Lemma replace_go_skip old new k s :
  PyText.replace_go old new k s = PyText.replace_go old new 0 (drop k s).
Proof.
  revert k. induction s as [|c r IH]; intros [|k]; try reflexivity.
  cbn [PyText.replace_go drop]. apply IH.
Qed.

Lemma count_go_skip old k s :
  PyText.count_go old k s = PyText.count_go old 0 (drop k s).
Proof.
  revert k. induction s as [|c r IH]; intros [|k]; try reflexivity.
  cbn [PyText.count_go drop]. apply IH.
Qed.

Lemma replace_go_match old new c r :
  PyText.startswith old (c :: r) = true ->
  PyText.replace_go old new 0 (c :: r)
  = new ++ PyText.replace_go old new 0 (drop (length old - 1) r).
Proof.
  intros H0. cbn [PyText.replace_go]. rewrite H0. f_equal. apply replace_go_skip.
Qed.

Lemma replace_go_step old new c r :
  PyText.startswith old (c :: r) = false ->
  PyText.replace_go old new 0 (c :: r) = c :: PyText.replace_go old new 0 r.
Proof. intros H0. cbn [PyText.replace_go]. now rewrite H0. Qed.

Lemma contains_cons p c r :
  PyText.contains p (c :: r) = PyText.startswith p (c :: r) || PyText.contains p r.
Proof. reflexivity. Qed.

Lemma contains_nil p : p <> [] -> PyText.contains p [] = false.
Proof. now destruct p. Qed.

(** Text without the pattern is left as it is, and counts zero. *)
Lemma replace_go_absent old new s :
  PyText.contains old s = false -> PyText.replace_go old new 0 s = s.
Proof.
  induction s as [|c r IH]; [reflexivity |]. rewrite contains_cons.
  intros H0. apply orb_false_iff in H0 as [Hh Ht].
  rewrite (replace_go_step _ _ _ _ Hh). now rewrite (IH Ht).
Qed.

Lemma count_go_absent old s :
  PyText.contains old s = false -> PyText.count_go old 0 s = 0%nat.
Proof.
  induction s as [|c r IH]; [reflexivity |]. rewrite contains_cons.
  intros H0. apply orb_false_iff in H0 as [Hh Ht].
  cbn [PyText.count_go]. rewrite Hh. now apply IH.
Qed.

Lemma count_go_present old s :
  old <> [] -> PyText.contains old s = true -> (0 < PyText.count_go old 0 s)%nat.
Proof.
  intros Hold. induction s as [|c r IH]; intros H0.
  - now rewrite contains_nil in H0.
  - rewrite contains_cons in H0. cbn [PyText.count_go].
    destruct (PyText.startswith old (c :: r)); [lia |]. now apply IH.
Qed.

(** A pattern that shares no character with [new] cannot start inside a
    replacement. *)
Lemma startswith_replace_go p old new s :
  new <> [] -> p <> [] -> (forall c, c ∈ p -> c ∉ new) ->
  PyText.startswith p (PyText.replace_go old new 0 s) = true ->
  PyText.startswith old s = false /\ PyText.startswith p s = true.
Proof.
  intros Hnew. revert s. induction p as [|a p IH]; intros s Hp Hdis Hs; [contradiction |].
  destruct s as [|c r]; [discriminate Hs |].
  destruct (PyText.startswith old (c :: r)) eqn:Hm.
  - exfalso. rewrite (replace_go_match _ _ _ _ Hm) in Hs.
    destruct new as [|n0 new]; [contradiction |]. cbn in Hs.
    apply andb_true_iff in Hs as [Ha _]. apply bool_decide_eq_true in Ha as ->.
    apply (Hdis n0); apply elem_of_cons; now left.
  - split; [reflexivity |]. rewrite (replace_go_step _ _ _ _ Hm) in Hs.
    cbn in Hs |- *. apply andb_true_iff in Hs as [Ha Hrest]. rewrite Ha. cbn.
    destruct p as [|b p]; [reflexivity |].
    apply (IH r); [discriminate | | exact Hrest].
    intros x Hx. apply Hdis, elem_of_cons. now right.
Qed.

Lemma contains_app_foreign p l s :
  p <> [] -> (forall c, c ∈ p -> c ∉ l) ->
  PyText.contains p (l ++ s) = PyText.contains p s.
Proof.
  intros Hp Hdis. induction l as [|x l IH]; [reflexivity |].
  rewrite <- app_comm_cons, contains_cons.
  rewrite IH by (intros c Hc Hin; apply (Hdis c Hc), elem_of_cons; now right).
  destruct p as [|a p]; [contradiction |].
  assert (PyText.startswith (a :: p) (x :: l ++ s) = false) as ->; [| reflexivity].
  cbn. destruct (bool_decide_reflect (a = x)) as [-> | _]; [| reflexivity].
  exfalso. apply (Hdis x); apply elem_of_cons; now left.
Qed.

Lemma contains_drop p k s : PyText.contains p (drop k s) = true -> PyText.contains p s = true.
Proof.
  revert k. induction s as [|c r IH]; intros k.
  - now rewrite drop_nil.
  - destruct k as [|k]; [now rewrite drop_0 |]. cbn [drop]. intros H0.
    rewrite contains_cons, (IH k H0). apply orb_true_r.
Qed.

(** An occurrence of [p] in the result of a replacement starts at a place of
    the original text where the scan found no match and [p] occurs there. *)
Lemma contains_replace_go p old new : forall n s,
  (length s <= n)%nat ->
  old <> [] -> new <> [] -> p <> [] -> (forall c, c ∈ p -> c ∉ new) ->
  PyText.contains p (PyText.replace_go old new 0 s) = true ->
  exists k, PyText.startswith old (drop k s) = false /\
            PyText.startswith p (drop k s) = true.
Proof.
  induction n as [|n IH]; intros s Hlen Hold Hnew Hp Hdis Hc.
  - destruct s; [| cbn in Hlen; lia]. now rewrite contains_nil in Hc.
  - destruct s as [|c r]; [now rewrite contains_nil in Hc |].
    cbn in Hlen. destruct (PyText.startswith old (c :: r)) eqn:Hm.
    + rewrite (replace_go_match _ _ _ _ Hm) in Hc.
      rewrite (contains_app_foreign p new _ Hp Hdis) in Hc.
      destruct (IH (drop (length old - 1) r)) as (k & Hk1 & Hk2); auto.
      { rewrite length_drop. lia. }
      exists (S (length old - 1 + k)). cbn [drop]. now rewrite <- drop_drop.
    + rewrite (replace_go_step _ _ _ _ Hm), contains_cons in Hc.
      apply orb_true_iff in Hc as [Hc | Hc].
      * exists 0%nat. rewrite <- (replace_go_step _ new _ _ Hm) in Hc.
        now apply (startswith_replace_go p old new (c :: r)).
      * destruct (IH r) as (k & Hk1 & Hk2); auto; [lia |]. now exists (S k).
Qed.

Lemma startswith_contains p s : PyText.startswith p s = true -> PyText.contains p s = true.
Proof. intros H0. destruct s; cbn; now rewrite H0. Qed.

(** After [s.replace(old, new)] no [old] is left, when [new] is not empty
    and has no character of [old]. *)
Lemma replace_removes old new s :
  old <> [] -> new <> [] -> (forall c, c ∈ old -> c ∉ new) ->
  PyText.contains old (PyText.replace old new s) = false.
Proof.
  intros Hold Hnew Hdis. destruct old as [|a old]; [contradiction |].
  unfold PyText.replace.
  destruct (PyText.contains (a :: old) (PyText.replace_go (a :: old) new 0 s)) eqn:E;
    [| reflexivity].
  destruct (contains_replace_go (a :: old) (a :: old) new (length s) s)
    as (k & Hk1 & Hk2); auto. congruence.
Qed.

(** [s.replace(old, new)] brings in no [p] that was not there, when [new]
    is not empty and has no character of [p]. *)
Lemma replace_brings_nothing p old new s :
  old <> [] -> new <> [] -> p <> [] -> (forall c, c ∈ p -> c ∉ new) ->
  PyText.contains p s = false ->
  PyText.contains p (PyText.replace old new s) = false.
Proof.
  intros Hold Hnew Hp Hdis Hs. destruct old as [|a old]; [contradiction |].
  unfold PyText.replace.
  destruct (PyText.contains p (PyText.replace_go (a :: old) new 0 s)) eqn:E;
    [| reflexivity].
  destruct (contains_replace_go p (a :: old) new (length s) s)
    as (k & _ & Hk2); auto.
  apply startswith_contains, contains_drop in Hk2. congruence.
Qed.

Lemma replace_absent old new s :
  old <> [] -> PyText.contains old s = false -> PyText.replace old new s = s.
Proof.
  intros Hold Hs. destruct old as [|a old]; [contradiction |].
  now apply replace_go_absent.
Qed.

Lemma count_zero_iff old s :
  old <> [] -> (PyText.count old s = 0%nat <-> PyText.contains old s = false).
Proof.
  intros Hold. destruct old as [|a old]; [contradiction |]. unfold PyText.count.
  split.
  - intros H0. destruct (PyText.contains (a :: old) s) eqn:E; [| reflexivity].
    apply (count_go_present (a :: old) s Hold) in E. lia.
  - apply count_go_absent.
Qed.

End TextFacts.


(** ** [fix_unicode.py] *)

Lemma table_ok_elim table u a u' a' :
  table_ok table -> (u, a) ∈ table -> (u', a') ∈ table ->
  u <> [] /\ a <> [] /\ forall c, c ∈ u -> c ∉ a'.
Proof.
  intros Hok Hin Hin'. unfold table_ok in Hok. rewrite Forall_forall in Hok.
  destruct (Hok _ Hin) as (Hu & Ha & Hall). cbn [fst snd] in *.
  split; [exact Hu |]. split; [exact Ha |].
  rewrite Forall_forall in Hall. specialize (Hall _ Hin'). cbn [fst snd] in Hall.
  rewrite Forall_forall in Hall. exact Hall.
Qed.

Lemma replacements_ok : table_ok FixUnicode.replacements.
Proof. apply (bool_decide_eq_true_1 _). vm_compute. reflexivity. Qed.

(** The inner loop, with [done] the pairs already applied. *)
Lemma apply_replacements_free todo : forall done content n out,
  table_ok (done ++ todo) ->
  free_of done content ->
  free_of (done ++ todo) (FixUnicode.apply_replacements todo content n out).1.1.
Proof.
  induction todo as [|[u a] todo IH]; intros done content n out Hok Hfree.
  - rewrite app_nil_r. exact Hfree.
  - cbn [FixUnicode.apply_replacements].
    assert (Hin : (u, a) ∈ done ++ (u, a) :: todo)
      by (apply elem_of_app; right; apply elem_of_cons; now left).
    destruct (table_ok_elim _ _ _ _ _ Hok Hin Hin) as (Hu & Ha & Hdis).
    replace (done ++ (u, a) :: todo) with ((done ++ [(u, a)]) ++ todo) in *
      by (now rewrite <- app_assoc).
    destruct (0 <? PyText.count u content)%nat eqn:Hc.
    + apply IH; [exact Hok |]. intros u' a' Hin'.
      apply elem_of_app in Hin' as [Hin' | Hin'].
      * assert (Hin2 : (u', a') ∈ (done ++ [(u, a)]) ++ todo)
          by (apply elem_of_app; left; apply elem_of_app; now left).
        destruct (table_ok_elim _ _ _ _ _ Hok Hin2 Hin) as (Hu' & _ & Hdis').
        apply replace_brings_nothing; auto. exact (Hfree _ _ Hin').
      * apply list_elem_of_singleton in Hin'. injection Hin' as -> ->.
        now apply replace_removes.
    + apply IH; [exact Hok |]. intros u' a' Hin'.
      apply elem_of_app in Hin' as [Hin' | Hin']; [exact (Hfree _ _ Hin') |].
      apply list_elem_of_singleton in Hin'. injection Hin' as -> ->.
      apply count_zero_iff; [exact Hu |]. apply Nat.ltb_ge in Hc. lia.
Qed.

(** On a text free of the patterns of the table the inner loop does nothing. *)
Lemma apply_replacements_idle table : forall content n out,
  table_ok table -> free_of table content ->
  FixUnicode.apply_replacements table content n out = (content, n, out).
Proof.
  induction table as [|[u a] table IH]; intros content n out Hok Hfree; [reflexivity |].
  cbn [FixUnicode.apply_replacements].
  assert (Hin : (u, a) ∈ (u, a) :: table) by (apply elem_of_cons; now left).
  destruct (table_ok_elim _ _ _ _ _ Hok Hin Hin) as (Hu & _ & _).
  rewrite (proj2 (count_zero_iff u content Hu) (Hfree _ _ Hin)). cbn.
  apply IH.
  - unfold table_ok in *. apply Forall_cons in Hok as [_ Hok].
    eapply Forall_impl; [exact Hok |]. intros [u' a'] (H1 & H2 & H3).
    split; [exact H1 |]. split; [exact H2 |]. now apply Forall_cons in H3 as [_ ?].
  - intros u' a' Hin'. apply (Hfree u' a'), elem_of_cons. now right.
Qed.

(** The inner loop counts at least one replacement whenever it changes the
    text. *)
Lemma apply_replacements_count table : forall content n out,
  let res := FixUnicode.apply_replacements table content n out in
  (n <= res.1.2)%nat /\ (res.1.2 = n -> res.1.1 = content).
Proof.
  induction table as [|[u a] table IH]; intros content n out; cbn zeta.
  - now split.
  - cbn [FixUnicode.apply_replacements].
    destruct (0 <? PyText.count u content)%nat eqn:Hc.
    + apply Nat.ltb_lt in Hc.
      destruct (IH (PyText.replace u a content) (n + PyText.count u content)%nat
                  (out ++
                   ["  - Replaced " +:+ pretty (PyText.count u content) +:+ "x '" +:+
                    pretty (default 0%nat (PyText.index (u, a) FixUnicode.replacements))
                    +:+ "' with '" +:+ FixUnicode.show a +:+ "'"])) as [Hle _].
      cbn zeta in Hle. split; lia.
    + apply IH.
Qed.

Lemma full_path_inj p q : FixUnicode.full_path p = FixUnicode.full_path q -> p = q.
Proof.
  unfold FixUnicode.full_path. intros H0.
  now apply string_app_inv_head, string_app_inv_head in H0.
Qed.

(** The outer loop: what it leaves alone, and what it leaves behind. *)
Lemma process_effects paths : forall fs total out,
  let res := FixUnicode.process paths fs total out in
  (forall q, (forall p, p ∈ paths -> q <> FixUnicode.full_path p) ->
             res.1.1 !! q = fs !! q) /\
  (forall q, is_Some (res.1.1 !! q) <-> is_Some (fs !! q)) /\
  (forall p content, p ∈ paths -> res.1.1 !! FixUnicode.full_path p = Some content ->
                     free_of FixUnicode.replacements content) /\
  (total <= res.1.2)%nat /\ (res.1.2 = total -> res.1.1 = fs).
Proof.
  induction paths as [|p0 rest IH]; intros fs total out; cbn zeta.
  - cbn. repeat split; auto. intros p content Hp. inversion Hp.
  - assert (Hstep : exists fs1 total1 out1,
              FixUnicode.process (p0 :: rest) fs total out
              = FixUnicode.process rest fs1 total1 out1 /\
              (forall q, q <> FixUnicode.full_path p0 -> fs1 !! q = fs !! q) /\
              (forall q, is_Some (fs1 !! q) <-> is_Some (fs !! q)) /\
              (forall content, fs1 !! FixUnicode.full_path p0 = Some content ->
                               free_of FixUnicode.replacements content) /\
              (total <= total1)%nat /\ (total1 = total -> fs1 = fs)).
    { cbn [FixUnicode.process].
      destruct (fs !! FixUnicode.full_path p0) as [original|] eqn:E0.
      - destruct (FixUnicode.apply_replacements FixUnicode.replacements original 0
                    (out ++ [FixUnicode.newline +:+ "[PROCESSING] " +:+ p0]))
          as [[content n] out1] eqn:Ea.
        pose proof (apply_replacements_free FixUnicode.replacements [] original 0
                      (out ++ [FixUnicode.newline +:+ "[PROCESSING] " +:+ p0])
                      replacements_ok) as Hfree.
        rewrite Ea in Hfree. cbn [fst app] in Hfree.
        assert (Hclean : free_of FixUnicode.replacements content)
          by (apply Hfree; intros u a Hin; inversion Hin).
        pose proof (apply_replacements_count FixUnicode.replacements original 0
                      (out ++ [FixUnicode.newline +:+ "[PROCESSING] " +:+ p0])) as Hcnt.
        cbn zeta in Hcnt. rewrite Ea in Hcnt. cbn [fst snd] in Hcnt.
        destruct (bool_decide_reflect (content <> original)) as [Hne | Heq].
        + eexists _, _, _. split; [reflexivity |]. split; [| split; [| split; [| split]]].
          * intros q Hq. now apply lookup_insert_ne.
          * intros q. destruct (decide (FixUnicode.full_path p0 = q)) as [<- | Hq].
            -- rewrite lookup_insert_eq, E0. split; eauto.
            -- now rewrite lookup_insert_ne.
          * intros c. rewrite lookup_insert_eq. now intros [= <-].
          * lia.
          * intros Ht. exfalso. apply Hne, Hcnt. lia.
        + apply dec_stable in Heq. subst content.
          eexists _, _, _. split; [reflexivity |]. repeat split; auto.
          intros c Hc. rewrite E0 in Hc. now injection Hc as <-.
      - eexists _, _, _. split; [reflexivity |]. repeat split; auto.
        intros c Hc. rewrite E0 in Hc. discriminate Hc. }
    destruct Hstep as (fs1 & total1 & out1 & -> & Hframe1 & Hdom1 & Hclean1 & Hle1 & Hsame1).
    destruct (IH fs1 total1 out1) as (Hframe & Hdom & Hclean & Hle & Hsame).
    cbn zeta in *. split; [| split; [| split; [| split]]].
    + intros q Hq. rewrite Hframe.
      * apply Hframe1, Hq, elem_of_cons. now left.
      * intros p Hp. apply Hq, elem_of_cons. now right.
    + intros q. now rewrite Hdom.
    + intros p content Hp Hc.
      destruct (decide (p ∈ rest)) as [Hin | Hout]; [exact (Hclean p content Hin Hc) |].
      apply elem_of_cons in Hp as [-> | Hp]; [| contradiction].
      rewrite Hframe in Hc; [exact (Hclean1 content Hc) |].
      intros p Hp Heq. apply full_path_inj in Heq as ->. contradiction.
    + lia.
    + intros Ht. assert (total1 = total) by lia. subst total1.
      rewrite (Hsame Ht). now apply Hsame1.
Qed.

Lemma main_eq fs :
  (FixUnicode.main fs).1
  = ((FixUnicode.process FixUnicode.files_to_fix fs 0
        [FixUnicode.rule; "FIXING UNICODE ISSUES IN CLI FILES"; FixUnicode.rule]).1.1,
     (FixUnicode.process FixUnicode.files_to_fix fs 0
        [FixUnicode.rule; "FIXING UNICODE ISSUES IN CLI FILES"; FixUnicode.rule]).1.2).
Proof.
  unfold FixUnicode.main.
  now destruct (FixUnicode.process _ _ _ _) as [[fs' t] o].
Qed.

Lemma process_idle paths : forall fs total out,
  (forall p content, p ∈ paths -> fs !! FixUnicode.full_path p = Some content ->
                     free_of FixUnicode.replacements content) ->
  (FixUnicode.process paths fs total out).1 = (fs, total).
Proof.
  induction paths as [|p0 rest IH]; intros fs total out Hfree; [reflexivity |].
  assert (Hrest : forall p content, p ∈ rest ->
            fs !! FixUnicode.full_path p = Some content ->
            free_of FixUnicode.replacements content)
    by (intros p c Hp; apply Hfree, elem_of_cons; now right).
  cbn [FixUnicode.process].
  destruct (fs !! FixUnicode.full_path p0) as [original|] eqn:E0; [| now apply IH].
  rewrite (apply_replacements_idle _ _ _ _ replacements_ok
             (Hfree p0 original (proj2 (elem_of_cons _ _ _) (or_introl eq_refl)) E0)).
  rewrite bool_decide_eq_false_2 by (intros Hne; now apply Hne).
  now apply IH.
Qed.

(** X16: after the script has run, none of the listed files that exist
    contains any of the four symbols it replaces. *)
Theorem fix_unicode_cleans (fs : gmap string FixUnicode.text)
    (file_path : string) (content : FixUnicode.text) :
  file_path ∈ FixUnicode.files_to_fix ->
  (FixUnicode.main fs).1.1 !! FixUnicode.full_path file_path = Some content ->
  forall unicode_char ascii_replacement,
    (unicode_char, ascii_replacement) ∈ FixUnicode.replacements ->
    PyText.contains unicode_char content = false.
Proof.
  intros Hin Hc. rewrite main_eq in Hc. cbn [fst] in Hc.
  destruct (process_effects FixUnicode.files_to_fix fs 0
              [FixUnicode.rule; "FIXING UNICODE ISSUES IN CLI FILES"; FixUnicode.rule])
    as (_ & _ & Hclean & _).
  exact (Hclean file_path content Hin Hc).
Qed.

(** X17: the script creates and deletes no file and leaves every file that
    is not one of the six listed ones as it is; and when it reports zero
    replacements it has changed nothing. *)
Theorem fix_unicode_frame (fs : gmap string FixUnicode.text) :
  (forall q, is_Some ((FixUnicode.main fs).1.1 !! q) <-> is_Some (fs !! q)) /\
  (forall q,
     (forall p, p ∈ FixUnicode.files_to_fix -> q <> FixUnicode.full_path p) ->
     (FixUnicode.main fs).1.1 !! q = fs !! q) /\
  ((FixUnicode.main fs).1.2 = 0%nat -> (FixUnicode.main fs).1.1 = fs).
Proof.
  rewrite main_eq. cbn [fst snd].
  destruct (process_effects FixUnicode.files_to_fix fs 0
              [FixUnicode.rule; "FIXING UNICODE ISSUES IN CLI FILES"; FixUnicode.rule])
    as (Hframe & Hdom & _ & _ & Hsame).
  split; [exact Hdom |]. split; [exact Hframe | exact Hsame].
Qed.

(** X18: the script is idempotent: run again on the files it left, it
    changes nothing and reports zero replacements. *)
Theorem fix_unicode_idempotent (fs : gmap string FixUnicode.text) :
  (FixUnicode.main (FixUnicode.main fs).1.1).1 = ((FixUnicode.main fs).1.1, 0%nat).
Proof.
  rewrite (main_eq (FixUnicode.main fs).1.1).
  rewrite process_idle; [reflexivity |].
  intros p content Hp Hc. rewrite main_eq in Hc. cbn [fst] in Hc.
  destruct (process_effects FixUnicode.files_to_fix fs 0
              [FixUnicode.rule; "FIXING UNICODE ISSUES IN CLI FILES"; FixUnicode.rule])
    as (_ & _ & Hclean & _).
  exact (Hclean p content Hp Hc).
Qed.

Lemma fix_unicode_cleans_witness :
  let fs : gmap string FixUnicode.text :=
    {[ FixUnicode.full_path "epi_cli/run.py" :=
         [9888%N; 9989%N; 9888%N; 65039%N; 10060%N] ]} in
  (FixUnicode.main fs).1.1 !! FixUnicode.full_path "epi_cli/run.py"
    = Some ([9888%N] ++ FixUnicode.ascii_text "[OK][WARN][FAIL]") /\
  PyText.contains [9888%N; 65039%N]
    ([9888%N] ++ FixUnicode.ascii_text "[OK][WARN][FAIL]") = false.
Proof.
  intros fs.
  assert (E : (FixUnicode.main fs).1.1 !! FixUnicode.full_path "epi_cli/run.py"
              = Some ([9888%N] ++ FixUnicode.ascii_text "[OK][WARN][FAIL]"))
    by (vm_compute; reflexivity).
  split; [exact E |].
  apply (fix_unicode_cleans fs "epi_cli/run.py" _) with (ascii_replacement := FixUnicode.ascii_text "[WARN]");
    [| exact E |].
  - apply (bool_decide_eq_true_1 _). vm_compute. reflexivity.
  - apply (bool_decide_eq_true_1 _). vm_compute. reflexivity.
Defined.

Lemma fix_unicode_frame_witness :
  let fs : gmap string FixUnicode.text :=
    {[ FixUnicode.full_path "epi_cli/run.py" := FixUnicode.ascii_text "print('[OK]')";
       "README.md" := [9989%N] ]} in
  (FixUnicode.main fs).1.1 = fs /\
  (FixUnicode.main fs).1.1 !! "README.md" = Some [9989%N].
Proof.
  intros fs. destruct (fix_unicode_frame fs) as (_ & Hframe & Hzero). split.
  - apply Hzero. vm_compute. reflexivity.
  - rewrite Hframe; [reflexivity |]. intros p Hp.
    apply list_elem_of_In in Hp.
    repeat (destruct Hp as [<- | Hp]; [vm_compute; discriminate |]). destruct Hp.
Defined.


(** ** [AsyncRecorder.stop] after [start] *)

Lemma counted_started : AsyncRecorder.counted AsyncRecorder.started.
Proof. split; [reflexivity |]. split; [reflexivity |]. intros H. inversion H. Qed.

Lemma counted_exec e s s' :
  AsyncRecorder.counted s -> AsyncRecorder.exec e s = Some s' ->
  AsyncRecorder.counted s'.
Proof.
  destruct s as [q n wk st]. unfold AsyncRecorder.counted. cbn.
  intros [Hn Hst] E. destruct e; cbn in E.
  - destruct wk; [| discriminate E].
    destruct q as [|[x|] rest]; [discriminate E | |]; injection E as <-; cbn in *.
    + split; [lia |]. destruct st; [| | exact Hst].
      * destruct Hst as [_ Hq]. split; [reflexivity |].
        intros H. apply Hq, elem_of_cons. now right.
      * intros _. specialize (Hst eq_refl).
        apply elem_of_cons in Hst as [Hst | Hst]; [discriminate Hst | exact Hst].
    + split; [lia |]. destruct st; [| discriminate | exact Hst].
      destruct Hst as [_ Hq]. exfalso. apply Hq, elem_of_cons. now left.
  - destruct wk; [| discriminate E]. destruct q; [| discriminate E].
    injection E as <-. now split.
  - injection E as <-. cbn. rewrite length_app. cbn. split; [lia |].
    destruct st; [| | exact Hst].
    + destruct Hst as [Hw Hq]. split; [exact Hw |]. intros H.
      apply elem_of_app in H as [H | H]; [contradiction |].
      apply list_elem_of_singleton in H. discriminate H.
    + intros Hw. apply elem_of_app. left. now apply Hst.
  - destruct st; try discriminate E. injection E as <-. cbn.
    rewrite length_app. cbn. split; [lia |]. intros _.
    apply elem_of_app. right. apply elem_of_cons. now left.
  - destruct st; try discriminate E. destruct n; [| discriminate E].
    exfalso. destruct wk; [| lia]. specialize (Hst eq_refl).
    destruct q; [inversion Hst | cbn in Hn; lia].
Qed.

Lemma counted_schedule schedule : forall s s',
  AsyncRecorder.counted s -> AsyncRecorder.run_schedule schedule s = Some s' ->
  AsyncRecorder.counted s'.
Proof.
  induction schedule as [|e rest IH]; intros s s' Hc E; cbn in E.
  - now injection E as <-.
  - destruct (AsyncRecorder.exec e s) as [s1|] eqn:E1; [| discriminate E].
    exact (IH s1 s' (counted_exec _ _ _ Hc E1) E).
Qed.

(** X19: once [start] has run, [stop] never gets past [await
    self._step_queue.join()].  Under every schedule of the worker, of [stop]
    and of producers of steps, the queue's count of unfinished tasks stays
    positive from [stop]'s [put(None)] on, because the worker takes the
    signal and leaves its loop without [task_done]; so the [join] never
    returns. *)
Theorem stop_never_passes_join (schedule : list AsyncRecorder.event)
    (s : AsyncRecorder.state) :
  AsyncRecorder.run_schedule schedule AsyncRecorder.started = Some s ->
  AsyncRecorder.stopper s <> AsyncRecorder.PastJoin /\
  (AsyncRecorder.stopper s = AsyncRecorder.Joining ->
   (0 < AsyncRecorder.unfinished_tasks s)%nat /\
   AsyncRecorder.exec AsyncRecorder.StopJoin s = None).
Proof.
  intros E. pose proof (counted_schedule _ _ _ counted_started E) as [Hn Hst].
  destruct s as [q n wk st]. cbn in *. split.
  - intros ->. exact Hst.
  - intros ->. assert (0 < n)%nat.
    { destruct wk; [| lia]. specialize (Hst eq_refl).
      destruct q; [inversion Hst | cbn in Hn; lia]. }
    split; [assumption |]. destruct n; [lia | reflexivity].
Qed.

Lemma stop_never_passes_join_witness :
  let schedule := [AsyncRecorder.WorkerTimeout; AsyncRecorder.ProducerPut 7;
                   AsyncRecorder.StopPut; AsyncRecorder.WorkerGet;
                   AsyncRecorder.WorkerGet] in
  exists s,
    AsyncRecorder.run_schedule schedule AsyncRecorder.started = Some s /\
    AsyncRecorder.worker s = AsyncRecorder.WorkerDone /\
    AsyncRecorder.items s = [] /\
    AsyncRecorder.unfinished_tasks s = 1%nat /\
    AsyncRecorder.exec AsyncRecorder.StopJoin s = None.
Proof.
  intros schedule.
  eexists. split; [reflexivity |]. split; [reflexivity |].
  split; [reflexivity |]. split; [reflexivity |].
  apply (stop_never_passes_join schedule); reflexivity.
Defined.


(** ** A run that goes well *)

Lemma run_success_steps {float} (X : Externals float) (a : RunArgs) (w w0 : World)
    (md : option (gmap string (metric_value float)))
    (workspace : zip_entries) (duration : string)
    (kp : KeyPair) (priv : string) (sm : ManifestModel float)
    (sig : SignatureBlock) (msg : string) :
  let out := _gen_auto_name X (script a) in
  let template := run_template X a md in
  let sealed := EPIContainer.sealed_manifest X workspace template in
  is_Some (files w !! script a) ->
  fault_free w ->
  run_metrics X (metric a) w = (Ok md, w0) ->
  record_child X (_ensure_python_command (sys_executable X) [script a])
    = Ok (0, workspace, duration) ->
  NoDup (namelist (EPIContainer.archived_entries X workspace)) ->
  MANIFEST_JSON ∉ namelist (EPIContainer.archived_entries X workspace) ->
  model_validate_json X (model_dump_json X sealed) = Ok sealed ->
  sign_manifest X sealed priv "default" = Ok sm ->
  model_validate_json X (model_dump_json X sm) = Ok sm ->
  digests sm = digests sealed ->
  signature sm = Some sig ->
  get_signer_name sig = "default" ->
  keystore w !! "default" = Some kp ->
  private_key kp = Some priv ->
  verify_signature X sm (public_key kp) = Ok (true, msg) ->
  exists w',
    run X a w = (Ok (Exit 0), w') /\
    files w' !! out
    = Some (ZipArchive (resigned_archive (EPIContainer.packed_archive X workspace template)
                          (model_dump_json X sm))).
Proof.
  intros out template sealed Hscript Hf Hmet Hchild Hnd Hres Hcodec Hsign Hcodec'
    Hdig Hsig Hname Hkp Hpriv Hver.
  destruct (confined_run_metrics X [] (metric a) _ _ _ Hmet) as (Hk0 & Hf0 & _).
  unfold run. unfold bind at 1, path_exists.
  rewrite bool_decide_eq_true_2 by exact Hscript. cbn [negb].
  unfold bind at 1. rewrite Hmet.
  unfold bind at 1, console_print.
  unfold bind at 1, lift. rewrite Hchild.
  unfold bind at 1, EPIContainer.pack. fold out.
  rewrite storage_op_free by (intros n; cbn; rewrite Hf0; apply Hf).
  match goal with |- context [bind (auto_sign X out) _ ?w3] => set (wp := w3) end.
  fold (run_template X a md). fold template.
  destruct (sign_then_verify X workspace template out wp kp priv sm sig msg)
    as (w1 & w2 & Es & Ev & Hout & Hk1 & Hf1); auto.
  { unfold wp. cbn. now rewrite Hk0. }
  { intros n. unfold wp. cbn. rewrite Hf0. apply Hf. }
  { unfold wp. cbn. apply lookup_insert_eq. }
  unfold bind at 1. rewrite Es.
  destruct (verify_and_report_progress X out 0 duration (no_verify a) (no_open a) w1 Hf1)
    as (o & w' & Er); [rewrite Hout; eauto |].
  exists w'. rewrite Er.
  destruct (confined_verify_and_report X [] out 0 duration (no_verify a) (no_open a)
              _ _ _ Er) as (_ & _ & Hfiles).
  split.
  - do 2 f_equal.
    apply verify_and_report_exit in Er as (verified & reason & w5 & Hv & ->).
    cbn [Z.eqb negb].
    destruct (no_verify a); [now rewrite andb_false_r |].
    rewrite Ev in Hv. now injection Hv as <- _ _.
  - rewrite Hfiles; [exact Hout |]. intros H0. inversion H0.
Qed.

(** X20: a run that goes well.  For an existing script whose child returns
    0, with a default key pair, entries with distinct names none of which is
    [manifest.json], a codec that reads back the sealed and the signed
    manifest, a signing call that keeps the digests and names the signer
    [default], a trust layer that accepts the signature, and storage that
    raises nothing, [run] exits with code 0 and leaves at the generated path
    the packed archive with its manifest replaced by the signed one. *)
Theorem run_success {float} (X : Externals float) (a : RunArgs) (w w0 : World)
    (md : option (gmap string (metric_value float)))
    (workspace : zip_entries) (duration : string)
    (kp : KeyPair) (priv : string) (sm : ManifestModel float)
    (sig : SignatureBlock) (msg : string) :
  let out := _gen_auto_name X (script a) in
  let template := run_template X a md in
  let sealed := EPIContainer.sealed_manifest X workspace template in
  is_Some (files w !! script a) ->
  fault_free w ->
  run_metrics X (metric a) w = (Ok md, w0) ->
  record_child X (_ensure_python_command (sys_executable X) [script a])
    = Ok (0, workspace, duration) ->
  NoDup (namelist (EPIContainer.archived_entries X workspace)) ->
  MANIFEST_JSON ∉ namelist (EPIContainer.archived_entries X workspace) ->
  model_validate_json X (model_dump_json X sealed) = Ok sealed ->
  sign_manifest X sealed priv "default" = Ok sm ->
  model_validate_json X (model_dump_json X sm) = Ok sm ->
  digests sm = digests sealed ->
  signature sm = Some sig ->
  get_signer_name sig = "default" ->
  keystore w !! "default" = Some kp ->
  private_key kp = Some priv ->
  verify_signature X sm (public_key kp) = Ok (true, msg) ->
  exists w',
    run X a w = (Ok (Exit 0), w') /\
    files w' !! out
    = Some (ZipArchive (resigned_archive (EPIContainer.packed_archive X workspace template)
                          (model_dump_json X sm))).
Proof. apply run_success_steps. Qed.

Lemma run_success_witness :
  exists w',
    run Demo.externals Demo.args Demo.machine = (Ok (Exit 0), w') /\
    files w' !! Demo.out
    = Some (ZipArchive (Demo.archive_signed_by "k-default" "default")).
Proof.
  apply (run_success Demo.externals Demo.args Demo.machine Demo.machine None
           Demo.workspace "0.5"
           {| private_key := Some "k-default"; public_key := "k-default" |}
           "k-default" (Demo.signed_by "k-default" "default")
           {| signer := "default"; algorithm := "ed25519";
              signature_bytes := Demo.digest ("k-default" +:+ "/usr/bin/python3 demo.py");
              signed_at := "20251121_231502" |}
           "Signature valid"); try reflexivity.
  - eexists. reflexivity.
  - intros n. reflexivity.
  - apply (bool_decide_eq_true_1 _). vm_compute. reflexivity.
  - apply (bool_decide_eq_true_1 _). vm_compute. reflexivity.
Defined.
